(** * awesome-popular-repos: the local cache, the sync client and the query engine

    A shallow embedding of
      - [src/js/utils/storage.js]        (modules [Storage] and [RawStorage]),
      - the admin client of the remote API (modules [Sync] and [Admin]),
      - [src/js/components/SearchBar.js] (module [SearchBar]),
      - [src/js/components/FilterPanel.js] (module [FilterPanel]),
      - [src/js/utils/github-api.js]     (module [GitHubApi]),
      - the authentication of the API    (module [Middleware]),
    followed by the properties of the specification stated over it. *)

From Stdlib Require Import ZArith String Ascii List Bool Sorted OrderedTypeEx DecimalString.
From stdpp Require Import gmap strings list fin_maps.
Import ListNotations.

#[local] Set Warnings "-register-all".
#[local] Open Scope string_scope.
#[local] Open Scope list_scope.

(** ** JSON values

    What [JSON.parse] produces.  A JS object is a finite map from property
    names to values; a property that is absent reads as [undefined], which
    is [None] of a lookup. *)

Inductive json : Type :=
| JNull
| JBool (b : bool)
| JNum (n : Z)
| JStr (s : string)
| JArr (l : list json)
| JObj (m : gmap string json).

Abbreviation obj := (gmap string json).

(** JS truthiness ([if (v)], [v || d], [v && e]). *)
Definition truthy (v : json) : bool :=
  match v with
  | JNull => false
  | JBool b => b
  | JNum n => negb (Z.eqb n 0)
  | JStr s => negb (String.eqb s "")
  | JArr _ => true
  | JObj _ => true
  end.

(** [o.k || d] *)
Definition prop_or (o : obj) (k : string) (d : json) : json :=
  match o !! k with
  | Some v => if truthy v then v else d
  | None => d
  end.

(** [o.k === s] for a string [s]: strict equality never coerces. *)
Definition prop_is (o : obj) (k : string) (s : string) : bool :=
  match o !! k with
  | Some (JStr s') => String.eqb s' s
  | _ => false
  end.

(** The length of the text that [JSON.stringify] writes for a value: the
    digits of a number, the characters of a string between its quotes (a
    character that is escaped counts once), the entries of an array or an
    object with their brackets, colons and commas. *)
Fixpoint stringify_length (v : json) : nat :=
  match v with
  | JNull => 4
  | JBool b => if b then 4 else 5
  | JNum n => String.length (NilZero.string_of_int (Z.to_int n))
  | JStr s => String.length s + 2
  | JArr l => 2 + list_sum (List.map stringify_length l) + pred (length l)
  | JObj m =>
      2 + map_fold (fun k v n => String.length k + 3 + stringify_length v + n) 0%nat m
        + pred (size m)
  end.

(** The property name of an array index. *)
Definition index_key (i : nat) : string := NilZero.string_of_uint (Nat.to_uint i).

(** The own enumerable properties that [{ ...v }] copies: those of an
    object, the elements of an array and the characters of a string under
    their indices, none of a number, a boolean or [null]. *)
Definition spread (v : json) : obj :=
  match v with
  | JObj m => m
  | JArr l => list_to_map (imap (fun i x => (index_key i, x)) l)
  | JStr s =>
      list_to_map
        (imap (fun i c => (index_key i, JStr (String c EmptyString)))
           (list_ascii_of_string s))
  | JNull | JBool _ | JNum _ => ∅
  end.

(** [arr.findIndex(pred)], with [None] for [-1]. *)
Fixpoint findIndex {A} (pred : A -> bool) (arr : list A) : option nat :=
  match arr with
  | [] => None
  | x :: rest => if pred x then Some 0%nat else S <$> findIndex pred rest
  end.

(** [arr.indexOf(s)] on an array of strings, with [None] for [-1]. *)
Definition indexOf (s : string) (arr : list string) : option nat :=
  findIndex (String.eqb s) arr.

(** [arr.includes(s)] *)
Definition includes_elem (s : string) (arr : list string) : bool :=
  existsb (String.eqb s) arr.

(** The clock: what [Date.now().toString()] and
    [new Date().toISOString().split('T')[0]] read during one call. *)
Record Clock := {
  timestamp : string;
  today : string
}.

(** ** storage.js *)

Module Storage.

(** [KEYS]: the five collections.  ([DATA_VERSION] is the marker of
    [versioned] below; [ADMIN_AUTH] is read and written by no function.) *)
Inductive key := PROJECTS | CATEGORIES | TAGS | FAVORITES | SETTINGS.

(** The view of each key: the four array collections as their accessors
    read and write them (their JSDoc types); the settings as any JSON
    value, since [setSettings] spreads whatever [JSON.parse] gave. *)
Definition value (k : key) : Type :=
  match k with
  | PROJECTS => list obj
  | CATEGORIES => list obj
  | TAGS => list json
  | FAVORITES => list string
  | SETTINGS => json
  end.

(** What is stored under a key: nothing ([getItem] returns [null]), a
    text on which [JSON.parse] throws, or the text of a value. *)
Inductive item (A : Type) :=
| Missing
| Unparsable
| Text (v : A).
Arguments Missing {A}.
Arguments Unparsable {A}.
Arguments Text {A} v.

(** The storage of the browser: the texts under the five keys and
    [room], the number of characters it still takes before [setItem]
    throws (its quota less what is stored; 0 when it takes nothing at
    all). *)
Record localStorage := {
  projects_item : item (list obj);
  categories_item : item (list obj);
  tags_item : item (list json);
  favorites_item : item (list string);
  settings_item : item json;
  room : nat
}.

Definition getItem (k : key) (ls : localStorage) : item (value k) :=
  match k with
  | PROJECTS => projects_item ls
  | CATEGORIES => categories_item ls
  | TAGS => tags_item ls
  | FAVORITES => favorites_item ls
  | SETTINGS => settings_item ls
  end.

(** The value under a key as [JSON.stringify] sees it. *)
Definition stringify (k : key) : value k -> json :=
  match k with
  | PROJECTS => fun v => JArr (JObj <$> v)
  | CATEGORIES => fun v => JArr (JObj <$> v)
  | TAGS => fun v => JArr v
  | FAVORITES => fun v => JArr (JStr <$> v)
  | SETTINGS => fun v => v
  end.

Definition textLength (k : key) (v : value k) : nat :=
  stringify_length (stringify k v).

(** The length of the text held under a key, which a write under that
    key gives back.  (The length of a text that does not parse is not
    known here; it counts as 0.) *)
Definition held (k : key) (ls : localStorage) : nat :=
  match getItem k ls with
  | Text v => textLength k v
  | Missing | Unparsable => 0
  end.

(** The storage after [localStorage.setItem(key, text)] went through. *)
Definition written (k : key) : value k -> localStorage -> localStorage :=
  match k with
  | PROJECTS => fun v ls =>
      {| projects_item := Text v; categories_item := categories_item ls;
         tags_item := tags_item ls; favorites_item := favorites_item ls;
         settings_item := settings_item ls;
         room := held PROJECTS ls + room ls - textLength PROJECTS v |}
  | CATEGORIES => fun v ls =>
      {| projects_item := projects_item ls; categories_item := Text v;
         tags_item := tags_item ls; favorites_item := favorites_item ls;
         settings_item := settings_item ls;
         room := held CATEGORIES ls + room ls - textLength CATEGORIES v |}
  | TAGS => fun v ls =>
      {| projects_item := projects_item ls; categories_item := categories_item ls;
         tags_item := Text v; favorites_item := favorites_item ls;
         settings_item := settings_item ls;
         room := held TAGS ls + room ls - textLength TAGS v |}
  | FAVORITES => fun v ls =>
      {| projects_item := projects_item ls; categories_item := categories_item ls;
         tags_item := tags_item ls; favorites_item := Text v;
         settings_item := settings_item ls;
         room := held FAVORITES ls + room ls - textLength FAVORITES v |}
  | SETTINGS => fun v ls =>
      {| projects_item := projects_item ls; categories_item := categories_item ls;
         tags_item := tags_item ls; favorites_item := favorites_item ls;
         settings_item := Text v;
         room := held SETTINGS ls + room ls - textLength SETTINGS v |}
  end.

(** Whether the browser takes the text of [v] under [k]: it is no longer
    than the text it replaces and the room that is left. *)
Definition fits (k : key) (v : value k) (ls : localStorage) : bool :=
  Nat.leb (textLength k v) (held k ls + room ls).

(** [localStorage.setItem(key, JSON.stringify(value))]: [None] when it
    throws, which the browser does for a text that does not fit. *)
Definition setItem (k : key) (v : value k) (ls : localStorage) : option localStorage :=
  if fits k v ls then Some (written k v ls) else None.

(** [get(key, defaultValue)] *)
Definition get (k : key) (defaultValue : value k) (ls : localStorage) : value k :=
  match getItem k ls with
  | Missing => defaultValue
  | Text v => v
  | Unparsable => defaultValue
  end.

(** [set(key, value)]: the new storage and the boolean it returns.  A
    throw of [setItem] is caught: the storage is as it was and the result
    is [false]. *)
Definition set (k : key) (v : value k) (ls : localStorage) : localStorage * bool :=
  match setItem k v ls with
  | Some ls' => (ls', true)
  | None => (ls, false)
  end.

Definition getProjects (ls : localStorage) : list obj := get PROJECTS [] ls.

(** [setProjects(projects)] drops the boolean of [set]. *)
Definition setProjects (projects : list obj) (ls : localStorage) : localStorage :=
  fst (set PROJECTS projects ls).

(** What [addProject] assigns to the object it is given:
    [project.id = project.id || Date.now().toString()], then [created_at]
    likewise with the current date, then [updated_at]. *)
Definition stamp (clk : Clock) (project : obj) : obj :=
  let project := <["id" := prop_or project "id" (JStr (timestamp clk))]> project in
  let project := <["created_at" := prop_or project "created_at" (JStr (today clk))]> project in
  <["updated_at" := JStr (today clk)]> project.

(** [addProject(project)]: the new storage and the project it returns,
    which is the object it was given, stamped in place, whether or not
    the write went through. *)
Definition addProject (clk : Clock) (project : obj) (ls : localStorage)
  : localStorage * obj :=
  let projects := getProjects ls in
  let project := stamp clk project in
  let projects := projects ++ [project] in
  (setProjects projects ls, project).

(** [updateProject(id, updates)]: [None] is the [null] it returns. *)
Definition updateProject (clk : Clock) (id : string) (updates : obj)
    (ls : localStorage) : localStorage * option obj :=
  let projects := getProjects ls in
  match findIndex (fun p => prop_is p "id" id) projects with
  | Some index =>
      match projects !! index with
      | Some old =>
          let new := <["updated_at" := JStr (today clk)]> (updates ∪ old) in
          let projects := <[index := new]> projects in
          (setProjects projects ls, Some new)
      | None => (ls, None)
      end
  | None => (ls, None)
  end.

Definition deleteProject (id : string) (ls : localStorage) : localStorage :=
  let projects := List.filter (fun p => negb (prop_is p "id" id)) (getProjects ls) in
  setProjects projects ls.

Definition getCategories (ls : localStorage) : list obj := get CATEGORIES [] ls.

Definition setCategories (categories : list obj) (ls : localStorage) : localStorage :=
  fst (set CATEGORIES categories ls).

Definition getTags (ls : localStorage) : list json := get TAGS [] ls.

Definition setTags (tags : list json) (ls : localStorage) : localStorage :=
  fst (set TAGS tags ls).

Definition getFavorites (ls : localStorage) : list string := get FAVORITES [] ls.

(** [toggleFavorite(projectId)]: [push] when absent, [splice(index, 1)]
    when present; the boolean it returns does not depend on [set]. *)
Definition toggleFavorite (projectId : string) (ls : localStorage)
  : localStorage * bool :=
  let favorites := getFavorites ls in
  match indexOf projectId favorites with
  | None =>
      let favorites := favorites ++ [projectId] in
      (fst (set FAVORITES favorites ls), true)
  | Some index =>
      let favorites := delete index favorites in
      (fst (set FAVORITES favorites ls), false)
  end.

Definition isFavorite (projectId : string) (ls : localStorage) : bool :=
  includes_elem projectId (getFavorites ls).

(** [{ theme: 'dark', sortBy: 'stars', sortOrder: 'desc' }] *)
Definition defaultSettings : json :=
  JObj (<["theme" := JStr "dark"]> (<["sortBy" := JStr "stars"]>
          (<["sortOrder" := JStr "desc"]> ∅))).

Definition getSettings (ls : localStorage) : json := get SETTINGS defaultSettings ls.

(** [set(KEYS.SETTINGS, { ...getSettings(), ...settings })] *)
Definition setSettings (settings : json) (ls : localStorage) : localStorage :=
  fst (set SETTINGS (JObj (spread settings ∪ spread (getSettings ls))) ls).

(** The snapshot object of [exportAllData] and the argument of
    [importData]; a field that is absent is [None]. *)
Record Snapshot := {
  projects : option (list obj);
  categories : option (list obj);
  tags : option (list json);
  favorites : option (list string);
  settings : option json;
  exportedAt : option string
}.

Definition exportAllData (isoNow : string) (ls : localStorage) : Snapshot :=
  {| projects := Some (getProjects ls);
     categories := Some (getCategories ls);
     tags := Some (getTags ls);
     favorites := Some (getFavorites ls);
     settings := Some (getSettings ls);
     exportedAt := Some isoNow |}.

(** [if (data.c) write(data.c)]: an array or an object is truthy. *)
Definition when_present {A} (field : option A) (write : A -> localStorage -> localStorage)
    (ls : localStorage) : localStorage :=
  match field with
  | Some v => write v ls
  | None => ls
  end.

(** [if (data.settings) setSettings(data.settings)] *)
Definition when_truthy (field : option json) (write : json -> localStorage -> localStorage)
    (ls : localStorage) : localStorage :=
  match field with
  | Some v => if truthy v then write v ls else ls
  | None => ls
  end.

Definition importData (data : Snapshot) (ls : localStorage) : localStorage :=
  let ls := when_present (projects data) setProjects ls in
  let ls := when_present (categories data) setCategories ls in
  let ls := when_present (tags data) setTags ls in
  let ls := when_present (favorites data) (fun v ls => fst (set FAVORITES v ls)) ls in
  when_truthy (settings data) setSettings ls.

(** The settings that [importData(data)] hands to [set]: those of [data]
    over the stored ones; the stored ones when [data] has none. *)
Definition merged_settings (data : Snapshot) (ls : localStorage) : json :=
  match settings data with
  | Some s => if truthy s then JObj (spread s ∪ spread (getSettings ls)) else getSettings ls
  | None => getSettings ls
  end.

(** The number of characters that [importData(data)] writes. *)
Definition importLength (data : Snapshot) (ls : localStorage) : nat :=
  from_option (textLength PROJECTS) 0 (projects data)
  + from_option (textLength CATEGORIES) 0 (categories data)
  + from_option (textLength TAGS) 0 (tags data)
  + from_option (textLength FAVORITES) 0 (favorites data)
  + textLength SETTINGS (merged_settings data ls).

(** The storage with the text under [KEYS.DATA_VERSION] beside the five
    collections.  ([KEYS.ADMIN_AUTH] is written nowhere.) *)
Record versioned := {
  collections : localStorage;
  version_item : item string
}.

Definition CURRENT_VERSION : string := "1.0.0".

(** [get(KEYS.DATA_VERSION)], with [None] for the default [null]. *)
Definition getVersion (vs : versioned) : option string :=
  match version_item vs with
  | Missing => None
  | Text v => Some v
  | Unparsable => None
  end.

(** The length of the text held under [KEYS.DATA_VERSION]. *)
Definition heldVersion (vs : versioned) : nat :=
  match version_item vs with
  | Text v => stringify_length (JStr v)
  | Missing | Unparsable => 0
  end.

Definition with_room (n : nat) (ls : localStorage) : localStorage :=
  {| projects_item := projects_item ls; categories_item := categories_item ls;
     tags_item := tags_item ls; favorites_item := favorites_item ls;
     settings_item := settings_item ls; room := n |}.

(** [set(KEYS.DATA_VERSION, version)], with the boolean it returns: like
    every [set] it leaves the storage as it was when the text does not
    fit. *)
Definition setVersion (version : string) (vs : versioned) : versioned * bool :=
  let available := heldVersion vs + room (collections vs) in
  if Nat.leb (stringify_length (JStr version)) available
  then ({| collections :=
             with_room (available - stringify_length (JStr version)) (collections vs);
           version_item := Text version |}, true)
  else (vs, false).

(** The default data handed to [initStorage]; a field that is absent is
    [None]. *)
Record Defaults := {
  default_projects : option (list obj);
  default_categories : option (list obj);
  default_tags : option (list json)
}.

(** The writes of the default data in [initStorage]. *)
Definition seed (defaultData : option Defaults) (ls : localStorage) : localStorage :=
  match defaultData with
  | Some d =>
      let ls := when_present (default_projects d) setProjects ls in
      let ls := when_present (default_categories d) setCategories ls in
      when_present (default_tags d) setTags ls
  | None => ls
  end.

(** [initStorage(defaultData)]; [None] is the default argument [null].
    The marker is written with [set], whose boolean is dropped. *)
Definition initStorage (defaultData : option Defaults) (vs : versioned) : versioned :=
  let version := getVersion vs in
  if (negb (from_option (fun v => truthy (JStr v)) false version)
      || negb (bool_decide (version = Some CURRENT_VERSION)))%bool
  then
    let ls := seed defaultData (collections vs) in
    fst (setVersion CURRENT_VERSION
           {| collections := ls; version_item := version_item vs |})
  else vs.

End Storage.

(** ** storage.js, without the types of its JSDoc

    [get], [set], [exportAllData] and [importData] ask nothing of the
    values they move: [get] returns whatever [JSON.parse] gave, and
    [importData] tests its fields for truthiness only.  Here every key
    holds any JSON value; module [Storage] above is this one on the texts
    of typed values (lemmas [raw_get] and [raw_set]). *)

Module RawStorage.
Import Storage.

Record localStorage := {
  projects_item : item json;
  categories_item : item json;
  tags_item : item json;
  favorites_item : item json;
  settings_item : item json;
  room : nat
}.

Definition getItem (k : key) (ls : localStorage) : item json :=
  match k with
  | PROJECTS => projects_item ls
  | CATEGORIES => categories_item ls
  | TAGS => tags_item ls
  | FAVORITES => favorites_item ls
  | SETTINGS => settings_item ls
  end.

Definition held (k : key) (ls : localStorage) : nat :=
  match getItem k ls with
  | Text v => stringify_length v
  | Missing | Unparsable => 0
  end.

(** The storage after [localStorage.setItem(key, text)] went through. *)
Definition written (k : key) (v : json) (ls : localStorage) : localStorage :=
  let room := held k ls + room ls - stringify_length v in
  match k with
  | PROJECTS =>
      {| projects_item := Text v; categories_item := categories_item ls;
         tags_item := tags_item ls; favorites_item := favorites_item ls;
         settings_item := settings_item ls; room := room |}
  | CATEGORIES =>
      {| projects_item := projects_item ls; categories_item := Text v;
         tags_item := tags_item ls; favorites_item := favorites_item ls;
         settings_item := settings_item ls; room := room |}
  | TAGS =>
      {| projects_item := projects_item ls; categories_item := categories_item ls;
         tags_item := Text v; favorites_item := favorites_item ls;
         settings_item := settings_item ls; room := room |}
  | FAVORITES =>
      {| projects_item := projects_item ls; categories_item := categories_item ls;
         tags_item := tags_item ls; favorites_item := Text v;
         settings_item := settings_item ls; room := room |}
  | SETTINGS =>
      {| projects_item := projects_item ls; categories_item := categories_item ls;
         tags_item := tags_item ls; favorites_item := favorites_item ls;
         settings_item := Text v; room := room |}
  end.

Definition fits (k : key) (v : json) (ls : localStorage) : bool :=
  Nat.leb (stringify_length v) (held k ls + room ls).

(** [localStorage.setItem(key, JSON.stringify(value))]: [None] when it
    throws. *)
Definition setItem (k : key) (v : json) (ls : localStorage) : option localStorage :=
  if fits k v ls then Some (written k v ls) else None.

(** [get(key, defaultValue)] *)
Definition get (k : key) (defaultValue : json) (ls : localStorage) : json :=
  match getItem k ls with
  | Missing => defaultValue
  | Text v => v
  | Unparsable => defaultValue
  end.

(** [set(key, value)] *)
Definition set (k : key) (v : json) (ls : localStorage) : localStorage * bool :=
  match setItem k v ls with
  | Some ls' => (ls', true)
  | None => (ls, false)
  end.

Definition getProjects (ls : localStorage) : json := get PROJECTS (JArr []) ls.
Definition setProjects (projects : json) (ls : localStorage) : localStorage :=
  fst (set PROJECTS projects ls).
Definition getCategories (ls : localStorage) : json := get CATEGORIES (JArr []) ls.
Definition setCategories (categories : json) (ls : localStorage) : localStorage :=
  fst (set CATEGORIES categories ls).
Definition getTags (ls : localStorage) : json := get TAGS (JArr []) ls.
Definition setTags (tags : json) (ls : localStorage) : localStorage :=
  fst (set TAGS tags ls).
Definition getFavorites (ls : localStorage) : json := get FAVORITES (JArr []) ls.
Definition getSettings (ls : localStorage) : json := get SETTINGS defaultSettings ls.

(** [set(KEYS.SETTINGS, { ...getSettings(), ...settings })] *)
Definition setSettings (settings : json) (ls : localStorage) : localStorage :=
  fst (set SETTINGS (JObj (spread settings ∪ spread (getSettings ls))) ls).

(** The object that [exportAllData()] returns. *)
Definition exportAllData (isoNow : string) (ls : localStorage) : obj :=
  <["projects" := getProjects ls]>
    (<["categories" := getCategories ls]>
       (<["tags" := getTags ls]>
          (<["favorites" := getFavorites ls]>
             (<["settings" := getSettings ls]>
                {["exportedAt" := JStr isoNow]})))).

(** [if (data.field) write(data.field)] *)
Definition when_truthy (data : obj) (field : string)
    (write : json -> localStorage -> localStorage) (ls : localStorage) : localStorage :=
  match data !! field with
  | Some v => if truthy v then write v ls else ls
  | None => ls
  end.

Definition importData (data : obj) (ls : localStorage) : localStorage :=
  let ls := when_truthy data "projects" setProjects ls in
  let ls := when_truthy data "categories" setCategories ls in
  let ls := when_truthy data "tags" setTags ls in
  let ls := when_truthy data "favorites" (fun v ls => fst (set FAVORITES v ls)) ls in
  when_truthy data "settings" setSettings ls.


(** The texts of a typed storage. *)
Definition text_of {A} (f : A -> json) (i : item A) : item json :=
  match i with
  | Missing => Missing
  | Unparsable => Unparsable
  | Text v => Text (f v)
  end.

Definition texts (ls : Storage.localStorage) : localStorage :=
  {| projects_item := text_of (stringify PROJECTS) (Storage.projects_item ls);
     categories_item := text_of (stringify CATEGORIES) (Storage.categories_item ls);
     tags_item := text_of (stringify TAGS) (Storage.tags_item ls);
     favorites_item := text_of (stringify FAVORITES) (Storage.favorites_item ls);
     settings_item := text_of (stringify SETTINGS) (Storage.settings_item ls);
     room := Storage.room ls |}.

End RawStorage.

(** ** The admin client of the remote API

    [apiRequest] is the only contact with the network.  The remote side is
    an oracle from the request to what the awaited promise does; every
    request is appended to the log [sent]. *)

Module Sync.
Import Storage.

(** [fetch(API_BASE + endpoint, { method, body })]; the body is the text
    of an object. *)
Record request := {
  endpoint : string;
  method : string;
  body : option obj
}.

(** The object a call resolves with: [success], [project] of the remote
    side, [local] of the fallback. *)
Record result := {
  success : bool;
  project : option obj;
  local : bool
}.

(** The awaited promise rejects ([fetch] fails, the body is no JSON) or
    resolves with a result. *)
Inductive reply :=
| Rejects
| Resolves (r : result).

Record World := {
  storage : localStorage;
  sent : list request
}.

Definition on_storage (f : localStorage -> localStorage) (w : World) : World :=
  {| storage := f (storage w); sent := sent w |}.

Definition apiRequest (remote : request -> reply) (req : request) (w : World)
  : World * reply :=
  ({| storage := storage w; sent := sent w ++ [req] |}, remote req).

(** [{ success: true, local: true }] *)
Definition localOnly : result :=
  {| success := true; project := None; local := true |}.

(** [result.project || projectData] *)
Definition project_or (r : result) (projectData : obj) : obj :=
  match project r with
  | Some p => p
  | None => projectData
  end.

(** The result the caller gets after [addProject(result.project ||
    projectData)]: [addProject] stamps the object it is given in place, so
    a [project] of the result is the stamped one. *)
Definition stamped_result (r : result) (stamped : obj) : result :=
  match project r with
  | Some _ => {| success := success r; project := Some stamped; local := local r |}
  | None => r
  end.

Definition addProjectToApi (remote : request -> reply) (clk : Clock)
    (projectData : obj) (w : World) : World * result :=
  let '(w, answer) :=
    apiRequest remote
      {| endpoint := "/projects"; method := "POST"; body := Some projectData |} w in
  match answer with
  | Resolves r =>
      if success r
      then
        let '(ls, stamped) := addProject clk (project_or r projectData) (storage w) in
        ({| storage := ls; sent := sent w |}, stamped_result r stamped)
      else (w, r)
  | Rejects =>
      (on_storage (fun ls => fst (addProject clk projectData ls)) w, localOnly)
  end.

Definition updateProjectToApi (remote : request -> reply) (clk : Clock)
    (id : string) (updates : obj) (w : World) : World * result :=
  let '(w, answer) :=
    apiRequest remote
      {| endpoint := "/projects"; method := "PUT";
         body := Some (updates ∪ {["id" := JStr id]}) |} w in
  match answer with
  | Resolves r =>
      if success r
      then (on_storage (fun ls => fst (updateProject clk id updates ls)) w, r)
      else (w, r)
  | Rejects =>
      (on_storage (fun ls => fst (updateProject clk id updates ls)) w, localOnly)
  end.

Definition deleteProjectFromApi (remote : request -> reply) (id : string)
    (w : World) : World * result :=
  let '(w, answer) :=
    apiRequest remote
      {| endpoint := String.append "/projects?id=" id; method := "DELETE";
         body := None |} w in
  match answer with
  | Resolves r =>
      if success r
      then (on_storage (deleteProject id) w, r)
      else (w, r)
  | Rejects =>
      (on_storage (deleteProject id) w, localOnly)
  end.

(** The requests the two calls above send. *)
Definition postRequest (projectData : obj) : request :=
  {| endpoint := "/projects"; method := "POST"; body := Some projectData |}.

Definition deleteRequest (id : string) : request :=
  {| endpoint := String.append "/projects?id=" id; method := "DELETE"; body := None |}.

(** The entry [entry] is [source] with [id] and [created_at] filled in
    when they were missing (or falsy) and [updated_at] set to the current
    date; its other properties are those of [source]. *)
Definition stamped (clk : Clock) (source entry : obj) : Prop :=
  entry !! "id" = Some (prop_or source "id" (JStr (timestamp clk)))
  /\ entry !! "created_at" = Some (prop_or source "created_at" (JStr (today clk)))
  /\ entry !! "updated_at" = Some (JStr (today clk))
  /\ (forall k, k <> "id" -> k <> "created_at" -> k <> "updated_at" ->
       entry !! k = source !! k).

(** What a call that appends [entry] does to the mirror: the entry is at
    its end when the browser took the write, and the storage is as it was
    when it did not. *)
Definition appended (entry : obj) (before after : localStorage) : Prop :=
  if fits PROJECTS (getProjects before ++ [entry]) before
  then getProjects after = getProjects before ++ [entry]
  else after = before.

(** What the local update of the project [id] does to the mirror: the
    first entry with the id is replaced by its merge with [updates],
    dated today, when the browser takes the write, and the storage is as
    it was when it does not. *)
Definition updated_locally (clk : Clock) (id : string) (updates : obj)
    (before after : localStorage) : Prop :=
  exists index old,
    findIndex (fun p => prop_is p "id" id) (getProjects before) = Some index
    /\ getProjects before !! index = Some old
    /\ let new := <["updated_at" := JStr (today clk)]> (updates ∪ old) in
       if fits PROJECTS (<[index := new]> (getProjects before)) before
       then getProjects after = <[index := new]> (getProjects before)
       else after = before.

(** The mirror [after] is the mirror [before] without the entries whose
    id is [id]. *)
Definition removed_locally (id : string) (before after : localStorage) : Prop :=
  getProjects after
  = List.filter (fun p => negb (prop_is p "id" id)) (getProjects before)
  /\ Forall (fun p => prop_is p "id" id = false) (getProjects after).

(** The [Authorization] header that [apiRequest] adds for the token of
    the session storage ([None]: no token); no header for a falsy token. *)
Definition authorizationHeader (token : option string) : option string :=
  match token with
  | Some t => if String.eqb t "" then None else Some (String.append "Basic " t)
  | None => None
  end.

(** [apiRequest] for a remote side that answers in any type. *)
Definition send {A} (remote : request -> A) (req : request) (w : World) : World * A :=
  ({| storage := storage w; sent := sent w ++ [req] |}, remote req).

(** [apiRequest(endpoint)] without options is a GET. *)
Definition getRequest (endpoint : string) : request :=
  {| endpoint := endpoint; method := "GET"; body := None |}.

(** What a listing resolves with: the array under [projects] (or
    [categories]), [None] when the answer has none. *)
Inductive listing :=
| ListRejects
| ListResolves (entries : option (list obj)).

Definition fetchProjectsFromApi (remote : request -> listing) (w : World)
  : World * list obj :=
  let '(w, answer) := send remote (getRequest "/projects") w in
  match answer with
  | ListResolves (Some projects) => (on_storage (setProjects projects) w, projects)
  | ListResolves None => (w, getProjects (storage w))
  | ListRejects => (w, getProjects (storage w))
  end.

Definition fetchCategoriesFromApi (remote : request -> listing) (w : World)
  : World * list obj :=
  let '(w, answer) := send remote (getRequest "/categories") w in
  match answer with
  | ListResolves (Some categories) => (on_storage (setCategories categories) w, categories)
  | ListResolves None => (w, getCategories (storage w))
  | ListRejects => (w, getCategories (storage w))
  end.

(** [{ projects: data.projects, categories: data.categories }] *)
Definition syncBody (data : Snapshot) : obj :=
  <["projects" := JArr (JObj <$> default [] (projects data))]>
    {["categories" := JArr (JObj <$> default [] (categories data))]}.

(** [syncDataToD1()]; the result of a failed request is
    [{ success: false, error }]. *)
Definition syncDataToD1 (remote : request -> reply) (isoNow : string) (w : World)
  : World * result :=
  let data := exportAllData isoNow (storage w) in
  let '(w, answer) :=
    apiRequest remote
      {| endpoint := "/sync"; method := "POST"; body := Some (syncBody data) |} w in
  match answer with
  | Resolves r => (w, r)
  | Rejects => (w, {| success := false; project := None; local := false |})
  end.

(** The object a category call resolves with. *)
Record categoryResult := {
  category_success : bool;
  category : option obj;
  category_local : bool
}.

Inductive categoryReply :=
| CategoryRejects
| CategoryResolves (r : categoryResult).

Definition categoryLocalOnly : categoryResult :=
  {| category_success := true; category := None; category_local := true |}.

(** [categories.push(entry); setCategories(categories)] *)
Definition pushCategory (entry : obj) (ls : localStorage) : localStorage :=
  setCategories (getCategories ls ++ [entry]) ls.

Definition addCategoryToApi (remote : request -> categoryReply) (categoryData : obj)
    (w : World) : World * categoryResult :=
  let '(w, answer) :=
    send remote
      {| endpoint := "/categories"; method := "POST"; body := Some categoryData |} w in
  match answer with
  | CategoryResolves r =>
      if category_success r
      then (on_storage (pushCategory (default categoryData (category r))) w, r)
      else (w, r)
  | CategoryRejects => (on_storage (pushCategory categoryData) w, categoryLocalOnly)
  end.

(** The local step of [updateCategoryToApi], the same in both branches. *)
Definition mergeCategory (id : string) (updates : obj) (ls : localStorage)
  : localStorage :=
  let categories := getCategories ls in
  match findIndex (fun c => prop_is c "id" id) categories with
  | Some index =>
      match categories !! index with
      | Some old => setCategories (<[index := updates ∪ old]> categories) ls
      | None => ls
      end
  | None => ls
  end.

Definition updateCategoryToApi (remote : request -> categoryReply) (id : string)
    (updates : obj) (w : World) : World * categoryResult :=
  let '(w, answer) :=
    send remote
      {| endpoint := "/categories"; method := "PUT";
         body := Some (updates ∪ {["id" := JStr id]}) |} w in
  match answer with
  | CategoryResolves r =>
      if category_success r then (on_storage (mergeCategory id updates) w, r) else (w, r)
  | CategoryRejects => (on_storage (mergeCategory id updates) w, categoryLocalOnly)
  end.

(** The local step of [deleteCategoryFromApi], the same in both branches:
    [splice(index, 1)] at the first entry with the id. *)
Definition spliceCategory (id : string) (ls : localStorage) : localStorage :=
  let categories := getCategories ls in
  match findIndex (fun c => prop_is c "id" id) categories with
  | Some index => setCategories (delete index categories) ls
  | None => ls
  end.

Definition deleteCategoryFromApi (remote : request -> categoryReply) (id : string)
    (w : World) : World * categoryResult :=
  let '(w, answer) :=
    send remote
      {| endpoint := String.append "/categories?id=" id; method := "DELETE";
         body := None |} w in
  match answer with
  | CategoryResolves r =>
      if category_success r then (on_storage (spliceCategory id) w, r) else (w, r)
  | CategoryRejects => (on_storage (spliceCategory id) w, categoryLocalOnly)
  end.

End Sync.

(** ** The query engine

    [searchProjects] and [applyFilters] read fixed fields of a project; a
    field that may be [null] or absent is an [option]. *)

Module Project.
Record t := {
  id : string;
  name : string;
  owner : string;
  description : option string;
  language : option string;
  category : option string;
  stars : Z;
  tags : option (list string);
  updated_at : string
}.
End Project.

(** [s.toLowerCase()], on the ASCII letters. *)
Definition lower (c : ascii) : ascii :=
  let n := nat_of_ascii c in
  if (Nat.leb 65 n && Nat.leb n 90)%bool then ascii_of_nat (n + 32) else c.

Fixpoint toLowerCase (s : string) : string :=
  match s with
  | EmptyString => EmptyString
  | String c rest => String (lower c) (toLowerCase rest)
  end.

(** [s.includes(sub)] *)
Fixpoint includes (s sub : string) : bool :=
  (String.prefix sub s
   || match s with
      | EmptyString => false
      | String _ rest => includes rest sub
      end)%bool.

(** Truthiness of a string that may be absent. *)
Definition present (s : option string) : bool :=
  match s with
  | Some s => negb (String.eqb s "")
  | None => false
  end.

(** [s.split(sep)] for a one-character separator. *)
Fixpoint split (sep : ascii) (s : string) : list string :=
  match s with
  | EmptyString => [EmptyString]
  | String c rest =>
      if Ascii.eqb c sep then EmptyString :: split sep rest
      else match split sep rest with
           | part :: parts => String c part :: parts
           | [] => [String c EmptyString]
           end
  end.

(** [Array.prototype.sort(compare)]: a stable sort; a negative [compare a b]
    puts [a] first. *)
Fixpoint insert_sorted {A} (compare : A -> A -> Z) (x : A) (sorted : list A) : list A :=
  match sorted with
  | [] => [x]
  | y :: rest =>
      if (compare x y <=? 0)%Z then x :: y :: rest
      else y :: insert_sorted compare x rest
  end.

Definition Array_sort {A} (compare : A -> A -> Z) (arr : list A) : list A :=
  foldr (insert_sorted compare) [] arr.

Module SearchBar.
Import Project.

(** The callback of [projects.filter] in [searchProjects]. *)
Definition matches (lowerQuery : string) (project : Project.t) : bool :=
  if includes (toLowerCase (name project)) lowerQuery then true
  else if includes (toLowerCase (owner project)) lowerQuery then true
  else if (present (description project)
           && includes (toLowerCase (default "" (description project))) lowerQuery)%bool
  then true
  else if (present (language project)
           && includes (toLowerCase (default "" (language project))) lowerQuery)%bool
  then true
  else if match tags project with
          | Some tags => existsb (fun tag => includes (toLowerCase tag) lowerQuery) tags
          | None => false
          end
  then true
  else false.

Definition searchProjects (projects : list Project.t) (query : string)
  : list Project.t :=
  if String.eqb query "" then projects
  else
    let lowerQuery := toLowerCase query in
    List.filter (matches lowerQuery) projects.

(** [value.trim()], on the ASCII white space: tab, line feed, vertical
    tab, form feed, carriage return and space. *)
Definition is_space (c : ascii) : bool :=
  let n := nat_of_ascii c in
  ((Nat.leb 9 n && Nat.leb n 13) || Nat.eqb n 32)%bool.

Fixpoint trimStart (s : string) : string :=
  match s with
  | EmptyString => EmptyString
  | String c rest => if is_space c then trimStart rest else s
  end.

Fixpoint trimEnd (s : string) : string :=
  match s with
  | EmptyString => EmptyString
  | String c rest =>
      match trimEnd rest with
      | EmptyString => if is_space c then EmptyString else String c EmptyString
      | kept => String c kept
      end
  end.

Definition trim (s : string) : string := trimEnd (trimStart s).

(** A text of white space only (the empty text included). *)
Fixpoint blank (s : string) : bool :=
  match s with
  | EmptyString => true
  | String c rest => (is_space c && blank rest)%bool
  end.

(** The ['input'] listener of [createSearchBar]: the query it hands to
    [onSearch] for the text [value] of the input element. *)
Definition inputQuery (value : string) : string := trim value.

End SearchBar.

Module Filters.
Record t := {
  language : string;
  category : string;
  sort : string;
  showFavorites : bool
}.
End Filters.

Module FilterPanel.

Section Engine.
(** [a.localeCompare(b)] of the host, and [new Date(s).getTime()] with
    [None] for [NaN]. *)
Variable localeCompare : string -> string -> Z.
Variable getTime : string -> option Z.

Definition languageFilter (filters : Filters.t) (result : list Project.t)
  : list Project.t :=
  if (negb (String.eqb (Filters.language filters) "")
      && negb (String.eqb (Filters.language filters) "all"))%bool
  then List.filter
         (fun p => bool_decide (Project.language p = Some (Filters.language filters)))
         result
  else result.

Definition categoryFilter (filters : Filters.t) (result : list Project.t)
  : list Project.t :=
  if (negb (String.eqb (Filters.category filters) "")
      && negb (String.eqb (Filters.category filters) "all"))%bool
  then List.filter
         (fun p => bool_decide (Project.category p = Some (Filters.category filters)))
         result
  else result.

Definition favoritesFilter (filters : Filters.t) (favorites : list string)
    (result : list Project.t) : list Project.t :=
  if Filters.showFavorites filters
  then List.filter (fun p => includes_elem (Project.id p) favorites) result
  else result.

(** [order === 'asc' ? x - y : y - x], a [NaN] operand giving [NaN],
    which [sort] reads as [0]. *)
Definition by_number (asc : bool) (valueA valueB : option Z) : Z :=
  match valueA, valueB with
  | Some x, Some y => if asc then (x - y)%Z else (y - x)%Z
  | _, _ => 0%Z
  end.

(** The comparator passed to [result.sort]. *)
Definition compareBy (field : string) (order : option string)
    (a b : Project.t) : Z :=
  let asc := bool_decide (order = Some "asc") in
  if String.eqb field "stars" then
    by_number asc (Some (Project.stars a)) (Some (Project.stars b))
  else if String.eqb field "name" then
    let valueA := toLowerCase (Project.name a) in
    let valueB := toLowerCase (Project.name b) in
    if asc then localeCompare valueA valueB else localeCompare valueB valueA
  else if String.eqb field "updated" then
    by_number asc (getTime (Project.updated_at a)) (getTime (Project.updated_at b))
  else 0%Z.

Definition sortStage (filters : Filters.t) (result : list Project.t)
  : list Project.t :=
  if negb (String.eqb (Filters.sort filters) "") then
    let parts := split "-" (Filters.sort filters) in
    let field := default "" (parts !! 0%nat) in
    let order := parts !! 1%nat in
    Array_sort (compareBy field order) result
  else result.

Definition applyFilters (projects : list Project.t) (filters : Filters.t)
    (favorites : list string) : list Project.t :=
  let result := projects in
  let result := languageFilter filters result in
  let result := categoryFilter filters result in
  let result := favoritesFilter filters favorites result in
  sortStage filters result.

End Engine.

(** The three facet filters of [applyFilters], applied in a given order. *)
Inductive facet := Language | Category | ShowFavorites.

Definition facetFilter (filters : Filters.t) (favorites : list string) (f : facet)
  : list Project.t -> list Project.t :=
  match f with
  | Language => languageFilter filters
  | Category => categoryFilter filters
  | ShowFavorites => favoritesFilter filters favorites
  end.

Definition applyFacets (filters : Filters.t) (favorites : list string)
    (order : list facet) (projects : list Project.t) : list Project.t :=
  foldl (fun result f => facetFilter filters favorites f result) projects order.

(** The order in which [applyFilters] applies them. *)
Definition sourceOrder : list facet := [Language; Category; ShowFavorites].

(** A field name: a text without ["-"]. *)
Fixpoint dash_free (s : string) : bool :=
  match s with
  | EmptyString => true
  | String c rest => (negb (Ascii.eqb c "-") && dash_free rest)%bool
  end.

(** The sort string ["<field>-<direction>"]. *)
Definition sortString (field direction : string) : string :=
  String.append field (String "-" direction).

(** A comparator that [Array.prototype.sort] can rely on: of two elements
    one goes first, and going first is transitive. *)
Definition orderly {A} (compare : A -> A -> Z) : Prop :=
  (forall x y, (0 < compare x y)%Z -> (compare y x <= 0)%Z)
  /\ (forall x y z, (compare x y <= 0)%Z -> (compare y z <= 0)%Z -> (compare x z <= 0)%Z).

(** The field and the order that [applyFilters] reads off [filters.sort]. *)
Definition sortField (filters : Filters.t) : string :=
  default "" (split "-" (Filters.sort filters) !! 0%nat).

Definition sortOrder (filters : Filters.t) : option string :=
  split "-" (Filters.sort filters) !! 1%nat.

(** A project passes the three facet filters. *)
Definition passes (filters : Filters.t) (favorites : list string) (p : Project.t) : Prop :=
  (Filters.language filters = "" \/ Filters.language filters = "all"
   \/ Project.language p = Some (Filters.language filters))
  /\ (Filters.category filters = "" \/ Filters.category filters = "all"
      \/ Project.category p = Some (Filters.category filters))
  /\ (Filters.showFavorites filters = false \/ In (Project.id p) favorites).

(** The callback of one [Array.filter] that does what the three facet
    filters do one after the other. *)
Definition keeps (filters : Filters.t) (favorites : list string) (p : Project.t) : bool :=
  ((String.eqb (Filters.language filters) ""
    || String.eqb (Filters.language filters) "all"
    || bool_decide (Project.language p = Some (Filters.language filters)))
   && (String.eqb (Filters.category filters) ""
       || String.eqb (Filters.category filters) "all"
       || bool_decide (Project.category p = Some (Filters.category filters)))
   && (negb (Filters.showFavorites filters)
       || includes_elem (Project.id p) favorites))%bool.

(** The order of [Array.prototype.sort()] without a comparator, on the
    characters of the two strings. *)
Definition compareStrings (a b : string) : Z :=
  match String.compare a b with
  | Lt => (-1)%Z
  | Eq => 0%Z
  | Gt => 1%Z
  end.

(** [languages.add(x)] on a [Set], kept in insertion order. *)
Definition Set_add (x : string) (languages : list string) : list string :=
  if includes_elem x languages then languages else languages ++ [x].

(** [extractLanguages(projects)] *)
Definition extractLanguages (projects : list Project.t) : list string :=
  let languages :=
    foldl (fun languages p =>
             match Project.language p with
             | Some language =>
                 if negb (String.eqb language "") then Set_add language languages
                 else languages
             | None => languages
             end) [] projects in
  Array_sort compareStrings languages.

End FilterPanel.

(** ** The front page

    The data part of [refreshProjects]: the list handed to
    [renderProjectCards] and kept as [state.filteredProjects]. *)

Module App.

Record State := {
  projects : list Project.t;
  searchQuery : string;
  filters : Filters.t
}.

Definition refreshProjects (localeCompare : string -> string -> Z)
    (getTime : string -> option Z) (state : State) (ls : Storage.localStorage)
  : list Project.t :=
  let favorites := Storage.getFavorites ls in
  let projects := SearchBar.searchProjects (projects state) (searchQuery state) in
  FilterPanel.applyFilters localeCompare getTime projects (filters state) favorites.

End App.

(** ** github-api.js *)

Module GitHubApi.

(** [s.replace(/\.git$/, '')] *)
Fixpoint dropDotGit (s : string) : string :=
  if String.eqb s ".git" then EmptyString
  else match s with
       | EmptyString => EmptyString
       | String c rest => String c (dropDotGit rest)
       end.

(** What follows the prefix [p] in [s], when [s] starts with [p]. *)
Fixpoint afterPrefix (p s : string) : option string :=
  match p with
  | EmptyString => Some s
  | String a p' =>
      match s with
      | EmptyString => None
      | String b s' => if Ascii.eqb a b then afterPrefix p' s' else None
      end
  end.

(** [s.replace(/^p/, '')] for a literal [p]. *)
Definition dropPrefix (p s : string) : string := default s (afterPrefix p s).

(** [s.replace(/^(https?:\/\/)?(www\.)?/, '')] *)
Definition dropProtocol (s : string) : string :=
  let s :=
    match afterPrefix "https://" s with
    | Some rest => rest
    | None => dropPrefix "http://" s
    end in
  dropPrefix "www." s.

Record parsed := {
  owner : string;
  repo : string
}.

(** [parseGitHubUrl(url)], with [None] for [null]. *)
Definition parseGitHubUrl (url : string) : option parsed :=
  let cleanUrl := SearchBar.trim url in
  let cleanUrl := dropDotGit cleanUrl in
  let cleanUrl := dropProtocol cleanUrl in
  let cleanUrl := dropPrefix "github.com/" cleanUrl in
  let parts := List.filter (fun part => negb (String.eqb part "")) (split "/" cleanUrl) in
  match parts with
  | owner :: repo :: _ => Some {| owner := owner; repo := repo |}
  | _ => None
  end.

Definition buildGitHubUrl (owner repo : string) : string :=
  String.append "https://github.com/" (String.append owner (String "/" repo)).

(** The characters of a GitHub user name: letters, digits and ["-"]; a
    repository name has ["."] and ["_"] as well. *)
Definition is_user_char (c : ascii) : bool :=
  let n := nat_of_ascii c in
  ((Nat.leb 48 n && Nat.leb n 57) || (Nat.leb 65 n && Nat.leb n 90)
   || (Nat.leb 97 n && Nat.leb n 122) || Nat.eqb n 45)%bool.

Definition is_repo_char (c : ascii) : bool :=
  (is_user_char c || Nat.eqb (nat_of_ascii c) 46 || Nat.eqb (nat_of_ascii c) 95)%bool.

Fixpoint all_chars (class : ascii -> bool) (s : string) : bool :=
  match s with
  | EmptyString => true
  | String c rest => (class c && all_chars class rest)%bool
  end.

(** [s] ends with [".git"]. *)
Fixpoint endsDotGit (s : string) : bool :=
  (String.eqb s ".git"
   || match s with
      | EmptyString => false
      | String _ rest => endsDotGit rest
      end)%bool.

Definition userName (s : string) : bool :=
  (negb (String.eqb s "") && all_chars is_user_char s)%bool.

Definition repoName (s : string) : bool :=
  (negb (String.eqb s "") && all_chars is_repo_char s && negb (endsDotGit s))%bool.

(** The path [owner/repo]. *)
Definition path (owner repo : string) : string :=
  String.append owner (String "/" repo).

(** The first character of [s] that is [stop] or ["/"]. *)
Fixpoint firstStop (stop : ascii) (s : string) : option ascii :=
  match s with
  | EmptyString => None
  | String c rest =>
      if (Ascii.eqb c stop || Ascii.eqb c "/")%bool then Some c else firstStop stop rest
  end.

(** One entry of [results]: [{ success: true, url, data }] or
    [{ success: false, url, error }]. *)
Record outcome := {
  success : bool;
  url : string;
  data : option obj;
  error : option string
}.

(** One call of [onProgress(current, total, result)]. *)
Record progress := {
  current : nat;
  total : nat;
  reported : outcome
}.

(** What [batchGetRepoInfo] returns. *)
Record batch := {
  results : list outcome;
  errors : list outcome;
  successCount : nat
}.

Section Batch.
(** [getRepoInfo(owner, repo)]: the network and the rate limit counters
    are the state [Net]; the call returns the repository information or
    throws an error with a message. *)
Context {Net : Type}.
Variable getRepoInfo : string -> string -> Net -> Net * (string + obj).

Definition getRepoInfoFromUrl (url : string) (net : Net) : Net * (string + obj) :=
  match parseGitHubUrl url with
  | None => (net, inl "无效的 GitHub URL")
  | Some parsed => getRepoInfo (owner parsed) (repo parsed) net
  end.

(** The loop of [batchGetRepoInfo] from index [i] on; [calls] are the
    calls of [onProgress] so far. *)
Fixpoint batchLoop (total i : nat) (urls : list string) (net : Net)
    (results errors : list outcome) (calls : list progress)
  : Net * (list outcome * list outcome * list progress) :=
  match urls with
  | [] => (net, (results, errors, calls))
  | url :: rest =>
      let '(net, answer) := getRepoInfoFromUrl url net in
      match answer with
      | inr info =>
          let result := {| success := true; url := url; data := Some info; error := None |} in
          batchLoop total (S i) rest net (results ++ [result]) errors
            (calls ++ [{| current := i + 1; total := total; reported := result |}])
      | inl message =>
          let errorResult :=
            {| success := false; url := url; data := None; error := Some message |} in
          batchLoop total (S i) rest net (results ++ [errorResult]) (errors ++ [errorResult])
            (calls ++ [{| current := i + 1; total := total; reported := errorResult |}])
      end
  end.

(** [batchGetRepoInfo(urls, onProgress)]: the state of the network after
    it, what it returns, and the calls of [onProgress] it made. *)
Definition batchGetRepoInfo (urls : list string) (net : Net)
  : Net * batch * list progress :=
  let '(net, (results, errors, calls)) :=
    batchLoop (length urls) 0 urls net [] [] [] in
  (net,
   {| results := results; errors := errors;
      successCount := length results - length errors |},
   calls).

End Batch.

End GitHubApi.

(** ** The API side: _middleware.js and api/auth.js *)

Module Middleware.

(** [env.ADMIN_USERNAME] and [env.ADMIN_PASSWORD]; [None] when unset. *)
Record Env := {
  ADMIN_USERNAME : option string;
  ADMIN_PASSWORD : option string
}.

(** [v || d] *)
Definition or_default (v : option string) (d : string) : string :=
  match v with
  | Some s => if String.eqb s "" then d else s
  | None => d
  end.

Definition adminUsername (env : Env) : string := or_default (ADMIN_USERNAME env) "admin".
Definition adminPassword (env : Env) : string := or_default (ADMIN_PASSWORD env) "admin123".

(** [s.slice(n)] *)
Fixpoint slice (n : nat) (s : string) : string :=
  match n, s with
  | S n', String _ rest => slice n' rest
  | _, _ => s
  end.

Section Base64.
(** [atob] of the host, [None] when it throws; [btoa] of the host. *)
Variable atob : string -> option string.
Variable btoa : string -> string.

(** [verifyAuth(request, env)], on [request.headers.get('Authorization')]. *)
Definition verifyAuth (authorization : option string) (env : Env) : bool :=
  match authorization with
  | None => false
  | Some authHeader =>
      if (String.eqb authHeader "" || negb (String.prefix "Basic " authHeader))%bool
      then false
      else
        let base64Credentials := slice 6 authHeader in
        match atob base64Credentials with
        | Some credentials =>
            let parts := split ":" credentials in
            let username := parts !! 0%nat in
            let password := parts !! 1%nat in
            (bool_decide (username = Some (adminUsername env))
             && bool_decide (password = Some (adminPassword env)))%bool
        | None => false
        end
  end.

(** [onRequestPost] of [/api/auth]: the token of the answer, [None] for
    the answer 401. *)
Definition login (username password : string) (env : Env) : option string :=
  if (String.eqb username (adminUsername env)
      && String.eqb password (adminPassword env))%bool
  then Some (btoa (String.append username (String ":" password)))
  else None.

End Base64.

(** A text without [sep]. *)
Fixpoint sep_free (sep : ascii) (s : string) : bool :=
  match s with
  | EmptyString => true
  | String c rest => (negb (Ascii.eqb c sep) && sep_free sep rest)%bool
  end.

End Middleware.

(** ** The admin page: the category form and the bulk import *)

Module Admin.
Import Storage Sync.

(** [\w] *)
Definition is_word (c : ascii) : bool :=
  let n := nat_of_ascii c in
  ((Nat.leb 48 n && Nat.leb n 57) || (Nat.leb 65 n && Nat.leb n 90)
   || (Nat.leb 97 n && Nat.leb n 122) || Nat.eqb n 95)%bool.

Definition is_dash (c : ascii) : bool := Ascii.eqb c "-".

Fixpoint keepChars (keep : ascii -> bool) (s : string) : string :=
  match s with
  | EmptyString => EmptyString
  | String c rest =>
      if keep c then String c (keepChars keep rest) else keepChars keep rest
  end.

(** [s.replace(/c+/g, '-')] for a class [c] of characters: every maximal
    run becomes one ["-"]; [inRun] says that the character before was in
    the class. *)
Fixpoint runsToDash (class : ascii -> bool) (inRun : bool) (s : string) : string :=
  match s with
  | EmptyString => EmptyString
  | String c rest =>
      if class c
      then if inRun then runsToDash class true rest
           else String "-" (runsToDash class true rest)
      else String c (runsToDash class false rest)
  end.

(** [generateSlug(text)], on ASCII text. *)
Definition generateSlug (text : string) : string :=
  let s := toLowerCase text in
  let s := keepChars (fun c => is_word c || SearchBar.is_space c || is_dash c)%bool s in
  let s := runsToDash SearchBar.is_space false s in
  let s := runsToDash is_dash false s in
  SearchBar.trim s.

Definition is_slug_char (c : ascii) : bool :=
  let n := nat_of_ascii c in
  ((Nat.leb 97 n && Nat.leb n 122) || (Nat.leb 48 n && Nat.leb n 57) || is_dash c)%bool.

Fixpoint allChars (class : ascii -> bool) (s : string) : bool :=
  match s with
  | EmptyString => true
  | String c rest => (class c && allChars class rest)%bool
  end.

(** [/^[a-z0-9-]+$/.test(slug)], the check of the category form. *)
Definition validSlug (slug : string) : bool :=
  (negb (String.eqb slug "") && allChars is_slug_char slug)%bool.

(** [[a-z0-9_-]] *)
Definition is_slug_like (c : ascii) : bool := (is_slug_char c || Ascii.eqb c "_")%bool.

Definition startsDash (s : string) : bool :=
  match s with
  | String c _ => is_dash c
  | EmptyString => false
  end.

(** No two ["-"] in a row. *)
Fixpoint singleDashes (s : string) : bool :=
  match s with
  | EmptyString => true
  | String a rest =>
      match rest with
      | String b _ => (negb (is_dash a && is_dash b) && singleDashes rest)%bool
      | EmptyString => true
      end
  end.

(** Text of 7-bit characters only. *)
Definition ascii_only (s : string) : bool :=
  allChars (fun c => Nat.ltb (nat_of_ascii c) 128) s.

(** [o.k.toLowerCase()]: [None] when it throws, the property being no
    string. *)
Definition lowerProp (o : obj) (k : string) : option string :=
  match o !! k with
  | Some (JStr s) => Some (toLowerCase s)
  | _ => None
  end.

(** A project or a repository information whose [owner] and [name] are
    strings. *)
Definition named (o : obj) : Prop :=
  (exists s, o !! "owner" = Some (JStr s)) /\ (exists s, o !! "name" = Some (JStr s)).

(** The callback of [existingProjects.some] in the duplicate check:
    [p.owner.toLowerCase() === data.owner.toLowerCase() &&
     p.name.toLowerCase() === data.name.toLowerCase()]. *)
Definition sameRepo (data p : obj) : option bool :=
  pOwner ← lowerProp p "owner";
  dOwner ← lowerProp data "owner";
  if String.eqb pOwner dOwner
  then pName ← lowerProp p "name";
       dName ← lowerProp data "name";
       Some (String.eqb pName dName)
  else Some false.

(** [arr.some(callback)] for a callback that may throw. *)
Fixpoint some_throwing {A} (callback : A -> option bool) (arr : list A) : option bool :=
  match arr with
  | [] => Some false
  | x :: rest =>
      match callback x with
      | Some true => Some true
      | Some false => some_throwing callback rest
      | None => None
      end
  end.

Definition isDuplicate (existingProjects : list obj) (data : obj) : option bool :=
  some_throwing (sameRepo data) existingProjects.

(** [{ ...r.data, github_url: r.url, tags: r.data.topics || [] }] *)
Definition importedProject (url : string) (data : obj) : obj :=
  <["tags" := prop_or data "topics" (JArr [])]> (<["github_url" := JStr url]> data).

(** The counters of the import. *)
Record counts := {
  addedCount : nat;
  skippedCount : nat;
  failedCount : nat
}.

Section BulkImport.
Context {Net : Type}.
Variable getRepoInfo : string -> string -> Net -> Net * (string + obj).
Variable listRemote : request -> listing.
Variable remote : request -> reply.
(** The clock at the k-th call of [addProjectToApi]. *)
Variable clock : nat -> Clock.

(** The loop over [results.filter(r => r.success)]; [None] when the
    duplicate check throws. *)
Fixpoint addImported (existingProjects : list obj) (successes : list GitHubApi.outcome)
    (w : World) (added skipped : nat) : option (World * nat * nat) :=
  match successes with
  | [] => Some (w, added, skipped)
  | r :: rest =>
      match GitHubApi.data r with
      | Some data =>
          duplicate ← isDuplicate existingProjects data;
          if (duplicate : bool)
          then addImported existingProjects rest w added (S skipped)
          else
            let w := fst (addProjectToApi remote (clock added)
                            (importedProject (GitHubApi.url r) data) w) in
            addImported existingProjects rest w (S added) skipped
      | None => None
      end
  end.

(** The click listener of the import button, on the list [urls] of the
    text area: the data part, without the page.  With no url it returns
    at once; [ImportThrows] is a duplicate check that throws. *)
Inductive imported :=
| NoUrls
| ImportThrows
| Imported (net : Net) (w : World) (c : counts).

Definition importUrls (urls : list string) (net : Net) (w : World) : imported :=
  if bool_decide (length urls = 0%nat) then NoUrls
  else
    let '(w, existingProjects) := fetchProjectsFromApi listRemote w in
    let '(net, batch, _) := GitHubApi.batchGetRepoInfo getRepoInfo urls net in
    let results := GitHubApi.results batch in
    let successCount := GitHubApi.successCount batch in
    match addImported existingProjects (List.filter GitHubApi.success results) w 0 0 with
    | Some (w, added, skipped) =>
        Imported net w
          {| addedCount := added; skippedCount := skipped;
             failedCount := length results - successCount |}
    | None => ImportThrows
    end.

End BulkImport.

End Admin.

(** ** Sample data *)

Module Sample.
Import Storage.

(** A storage holding the given projects and favorites, no categories
    and tags, a settings text that does not parse, and room for 4096 more
    characters. *)
Definition storageOf (projects : list obj) (favorites : list string) : localStorage :=
  {| projects_item := Text projects; categories_item := Missing;
     tags_item := Missing; favorites_item := Text favorites;
     settings_item := Unparsable; room := 4096 |}.


(** The storage [ls] in a browser that takes no more characters. *)
Definition full (ls : localStorage) : localStorage := Storage.with_room 0 ls.

(** An object to import: one project, no categories or tags, the
    favorites ["9"] and the settings [{ theme: "light" }]. *)
Definition snapshot : Storage.Snapshot :=
  {| Storage.projects := Some [<["name" := JStr "react"]> {["owner" := JStr "facebook"]}];
     Storage.categories := None; Storage.tags := None;
     Storage.favorites := Some ["9"];
     Storage.settings := Some (JObj {["theme" := JStr "light"]});
     Storage.exportedAt := None |}.

(** [{ theme: "light" }] *)
Definition light : json := JObj {["theme" := JStr "light"]}.

Definition clock : Clock := {| timestamp := "1700000000000"; today := "2023-11-14" |}.

(** [{ id: "1", name: "vite", owner: "vitejs", created_at: "2020-01-01",
      updated_at: "2020-01-01" }] *)
Definition vite : obj :=
  <["id" := JStr "1"]> (<["name" := JStr "vite"]> (<["owner" := JStr "vitejs"]>
    (<["created_at" := JStr "2020-01-01"]> (<["updated_at" := JStr "2020-01-01"]> ∅)))).

(** [{ created_at: "1999-12-31" }] *)
Definition backdate : obj := {["created_at" := JStr "1999-12-31"]}.

(** [{ stars: 5 }] *)
Definition restar : obj := {["stars" := JNum 5]}.

(** [{ name: "react", owner: "facebook" }] *)
Definition react : obj := <["name" := JStr "react"]> {["owner" := JStr "facebook"]}.

(** A remote side that answers every request with an object without
    [success], as the API does to a request it does not authorize. *)
Definition refuses (req : Sync.request) : Sync.reply :=
  Sync.Resolves {| Sync.success := false; Sync.project := None; Sync.local := false |}.

(** A remote side that cannot be reached. *)
Definition offline (req : Sync.request) : Sync.reply := Sync.Rejects.

(** A remote side that accepts: a POST is answered with the project and
    the id the server gave it, as [onRequestPost] does. *)
Definition accepts (req : Sync.request) : Sync.reply :=
  Sync.Resolves
    {| Sync.success := true;
       Sync.project :=
         if String.eqb (Sync.method req) "POST"
         then (fun p => <["id" := prop_or p "id" (JStr "1700000000123")]> p)
                <$> Sync.body req
         else None;
       Sync.local := false |}.

Definition hugo : Project.t :=
  {| Project.id := "1"; Project.name := "hugo"; Project.owner := "gohugoio";
     Project.description := Some "Static site generator";
     Project.language := Some "Go"; Project.category := Some "tools";
     Project.stars := 10; Project.tags := Some ["cms"; "blog"];
     Project.updated_at := "2024-01-01" |}.

Definition deno : Project.t :=
  {| Project.id := "2"; Project.name := "deno"; Project.owner := "denoland";
     Project.description := None;
     Project.language := Some "Rust"; Project.category := Some "tools";
     Project.stars := 500; Project.tags := None;
     Project.updated_at := "2024-03-01" |}.

Definition gin : Project.t :=
  {| Project.id := "3"; Project.name := "gin"; Project.owner := "gin-gonic";
     Project.description := Some "";
     Project.language := Some "Go"; Project.category := Some "web";
     Project.stars := 10000; Project.tags := Some [];
     Project.updated_at := "2023-06-01" |}.

Definition filtersOf (language sort : string) (showFavorites : bool) : Filters.t :=
  {| Filters.language := language; Filters.category := "all";
     Filters.sort := sort; Filters.showFavorites := showFavorites |}.

(** Stand-ins for the host's [localeCompare] and date parser. *)
Definition byLength (a b : string) : Z :=
  (Z.of_nat (String.length a) - Z.of_nat (String.length b))%Z.

Definition noDate (s : string) : option Z := None.

(** [{ id: 5, name: "left-pad" }] *)
Definition numbered : obj := <["id" := JNum 5]> {["name" := JStr "left-pad"]}.

(** A storage with the given projects and the current version. *)
Definition seeded (projects : list obj) : Storage.versioned :=
  {| Storage.collections := storageOf projects [];
     Storage.version_item := Text Storage.CURRENT_VERSION |}.

(** A storage with the given projects and no version. *)
Definition unversioned (projects : list obj) : Storage.versioned :=
  {| Storage.collections := storageOf projects [];
     Storage.version_item := Missing |}.

(** Default data with one project and no tags. *)
Definition defaults : Storage.Defaults :=
  {| Storage.default_projects := Some [react];
     Storage.default_categories := Some [];
     Storage.default_tags := None |}.

(** The front page with three projects, the query ["go"] and the default
    filters. *)
Definition frontPage : App.State :=
  {| App.projects := [hugo; deno; gin]; App.searchQuery := "go";
     App.filters := filtersOf "all" "stars-desc" false |}.

(** [{ id: "tool", name: "Tools", slug: "tool" }] *)
Definition tool : obj :=
  <["id" := JStr "tool"]> (<["name" := JStr "Tools"]> {["slug" := JStr "tool"]}).

(** A world whose mirror holds the given categories. *)
Definition categoryWorld (categories : list obj) : Sync.World :=
  {| Sync.storage :=
       {| projects_item := Missing; categories_item := Text categories;
          tags_item := Missing; favorites_item := Missing;
          settings_item := Missing; room := 4096 |};
     Sync.sent := [] |}.

(** A category API that cannot be reached. *)
Definition unreachable (req : Sync.request) : Sync.categoryReply := Sync.CategoryRejects.

Definition world (projects : list obj) : Sync.World :=
  {| Sync.storage := storageOf projects []; Sync.sent := [] |}.

(** A stand-in for [getRepoInfo] that finds every repository; the state
    counts the calls. *)
Definition github (owner repo : string) (net : nat) : nat * (string + obj) :=
  (S net, inr (<["name" := JStr repo]> {["owner" := JStr owner]})).

(** A remote side that lists the given projects. *)
Definition catalogue (projects : list obj) (req : Sync.request) : Sync.listing :=
  Sync.ListResolves (Some projects).

Definition clocks (k : nat) : Clock := clock.

(** Stand-ins for [btoa] and [atob]. *)
Definition tagged (s : string) : string := String "=" s.

Definition untagged (s : string) : option string :=
  match s with
  | String "=" rest => Some rest
  | _ => None
  end.

(** An environment whose password holds a [":"]. *)
Definition colonEnv : Middleware.Env :=
  {| Middleware.ADMIN_USERNAME := Some "root"; Middleware.ADMIN_PASSWORD := Some "a:b" |}.

(** An environment without credentials of its own. *)
Definition unsetEnv : Middleware.Env :=
  {| Middleware.ADMIN_USERNAME := None; Middleware.ADMIN_PASSWORD := Some "" |}.

End Sample.

(** * Properties *)

(** ** Arrays *)

Section Arrays.
Context {A : Type}.
Implicit Types (pred : A -> bool) (arr : list A).

Lemma findIndex_Some pred arr i :
  findIndex pred arr = Some i ->
  exists x, arr !! i = Some x /\ pred x = true
            /\ Forall (fun y => pred y = false) (take i arr).
Proof.
  revert i. induction arr as [|x rest IH]; intros i; simpl; [discriminate|].
  destruct (pred x) eqn:Hx.
  - intros [= <-]. exists x. simpl. auto.
  - destruct (findIndex pred rest) as [j|] eqn:Hj; simpl; [|discriminate].
    intros [= <-]. destruct (IH j eq_refl) as (y & Hy & Hp & Hbefore).
    exists y. simpl. auto.
Qed.

Lemma findIndex_None pred arr :
  findIndex pred arr = None <-> Forall (fun y => pred y = false) arr.
Proof.
  induction arr as [|x rest IH]; simpl.
  - split; auto.
  - destruct (pred x) eqn:Hx.
    + split; [discriminate|]. intros H. inversion H; congruence.
    + destruct (findIndex pred rest); simpl.
      * split; [discriminate|]. intros H. inversion H; subst.
        destruct IH as [_ IH]. discriminate (IH ltac:(assumption)).
      * split; [|reflexivity]. intros _. constructor; [assumption|].
        apply IH. reflexivity.
Qed.

Lemma findIndex_is_Some pred arr :
  (exists x, In x arr /\ pred x = true) -> exists i, findIndex pred arr = Some i.
Proof.
  intros (x & Hin & Hx). destruct (findIndex pred arr) as [i|] eqn:Hfind; [eauto|].
  apply findIndex_None in Hfind. rewrite Forall_forall in Hfind.
  apply list_elem_of_In, Hfind in Hin. congruence.
Qed.

Lemma findIndex_app_last pred arr x :
  Forall (fun y => pred y = false) arr -> pred x = true ->
  findIndex pred (arr ++ [x]) = Some (length arr).
Proof.
  induction 1 as [|y rest Hy _ IH]; intros Hx; simpl.
  - rewrite Hx. reflexivity.
  - rewrite Hy, (IH Hx). reflexivity.
Qed.

Lemma findIndex_existsb pred arr :
  existsb pred arr = bool_decide (is_Some (findIndex pred arr)).
Proof.
  induction arr as [|x rest IH]; [reflexivity|]. simpl.
  destruct (pred x); [reflexivity|]. simpl. rewrite IH.
  destruct (findIndex pred rest); reflexivity.
Qed.

Lemma delete_app_last arr x : delete (length arr) (arr ++ [x]) = arr.
Proof.
  induction arr as [|y rest IH]; simpl; [reflexivity|]. f_equal. exact IH.
Qed.

Lemma filter_filter_comm (f g : A -> bool) arr :
  List.filter f (List.filter g arr) = List.filter g (List.filter f arr).
Proof.
  induction arr as [|x rest IH]; simpl; [reflexivity|].
  destruct (f x) eqn:Hf, (g x) eqn:Hg; simpl; rewrite ?Hf, ?Hg, IH; reflexivity.
Qed.

Lemma Array_sort_constant arr : Array_sort (fun _ _ : A => 0%Z) arr = arr.
Proof.
  unfold Array_sort.
  induction arr as [|x rest IH]; simpl; [reflexivity|].
  rewrite IH. destruct rest; reflexivity.
Qed.

End Arrays.

(** ** The local cache *)

Section LocalCache.
Import Storage.

(** *** What a write does *)

Lemma getItem_written_same k v ls : getItem k (written k v ls) = Text v.
Proof. destruct k; reflexivity. Qed.

Lemma getItem_written_other k k' v ls :
  k <> k' -> getItem k' (written k v ls) = getItem k' ls.
Proof. destruct k, k'; intros H; try reflexivity; contradiction. Qed.

Lemma set_fits k v ls : fits k v ls = true -> set k v ls = (written k v ls, true).
Proof. intros H. unfold set, setItem. rewrite H. reflexivity. Qed.

Lemma set_refused k v ls : fits k v ls = false -> set k v ls = (ls, false).
Proof. intros H. unfold set, setItem. rewrite H. reflexivity. Qed.

Lemma snd_set k v ls : snd (set k v ls) = fits k v ls.
Proof. unfold set, setItem. destruct (fits k v ls); reflexivity. Qed.

Lemma getItem_set_other k k' v ls :
  k <> k' -> getItem k' (fst (set k v ls)) = getItem k' ls.
Proof.
  intros H. unfold set, setItem. destruct (fits k v ls); [|reflexivity].
  apply getItem_written_other, H.
Qed.

Lemma get_set k v d ls :
  get k d (fst (set k v ls)) = if fits k v ls then v else get k d ls.
Proof.
  unfold set, setItem. destruct (fits k v ls); [|reflexivity].
  unfold get. cbn [fst]. rewrite getItem_written_same. reflexivity.
Qed.

Lemma get_set_other k k' v d ls :
  k <> k' -> get k' d (fst (set k v ls)) = get k' d ls.
Proof. intros H. unfold get. rewrite (getItem_set_other _ _ _ _ H). reflexivity. Qed.

(** A text that is no longer than the one it replaces always fits, and so
    does one that is no longer than the room left. *)
Lemma fits_held k v ls : textLength k v <= held k ls -> fits k v ls = true.
Proof. intros H. apply Nat.leb_le. lia. Qed.

Lemma fits_room k v ls : textLength k v <= room ls -> fits k v ls = true.
Proof. intros H. apply Nat.leb_le. lia. Qed.

(** Writing what is stored changes nothing. *)
Lemma set_same k v ls : getItem k ls = Text v -> set k v ls = (ls, true).
Proof.
  intros H.
  assert (Hheld : held k ls = textLength k v) by (unfold held; rewrite H; reflexivity).
  rewrite set_fits by (apply fits_held; lia). f_equal.
  destruct ls as [ps cs ts fs ss r]; destruct k; cbn in H; subst;
    unfold written; cbn [projects_item categories_item tags_item favorites_item
                          settings_item room]; f_equal; rewrite Hheld; cbn [room]; lia.
Qed.

Lemma get_set_same_value k d ls : get k d (fst (set k (get k d ls) ls)) = get k d ls.
Proof. rewrite get_set. destruct (fits _ _ _); reflexivity. Qed.

Lemma getProjects_setProjects projects ls :
  getProjects (setProjects projects ls)
  = if fits PROJECTS projects ls then projects else getProjects ls.
Proof. apply (get_set PROJECTS). Qed.

(** *** Shorter lists have shorter texts *)

Lemma stringify_length_JArr l :
  stringify_length (JArr l)
  = 2 + list_sum (List.map stringify_length l) + pred (length l).
Proof. reflexivity. Qed.

Lemma stringify_length_sublist (l1 l2 : list json) :
  sublist l1 l2 -> stringify_length (JArr l1) <= stringify_length (JArr l2).
Proof.
  intros Hsub. rewrite !stringify_length_JArr.
  assert (Hsum : list_sum (List.map stringify_length l1)
                 <= list_sum (List.map stringify_length l2)).
  { induction Hsub as [|x l1 l2 _ IH|x l1 l2 _ IH]; simpl; lia. }
  pose proof (sublist_length _ _ Hsub). lia.
Qed.

Lemma sublist_List_filter {A} (f : A -> bool) (l : list A) : sublist (List.filter f l) l.
Proof.
  induction l as [|x rest IH]; [constructor|]. cbn [List.filter].
  destruct (f x); [apply sublist_skip|apply sublist_cons]; exact IH.
Qed.

Lemma textLength_projects_sublist l1 l2 :
  sublist l1 l2 -> textLength PROJECTS l1 <= textLength PROJECTS l2.
Proof. intros H. apply stringify_length_sublist, fmap_sublist, H. Qed.

Lemma textLength_categories_sublist l1 l2 :
  sublist l1 l2 -> textLength CATEGORIES l1 <= textLength CATEGORIES l2.
Proof. intros H. apply stringify_length_sublist, fmap_sublist, H. Qed.

Lemma textLength_favorites_sublist l1 l2 :
  sublist l1 l2 -> textLength FAVORITES l1 <= textLength FAVORITES l2.
Proof. intros H. apply stringify_length_sublist, fmap_sublist, H. Qed.

(** A write that only drops entries of the stored list is never lost: the
    list read afterwards is the shorter one. *)
Lemma setProjects_sublist projects ls :
  sublist projects (getProjects ls) -> getProjects (setProjects projects ls) = projects.
Proof.
  intros Hsub. rewrite getProjects_setProjects.
  destruct (fits PROJECTS projects ls) eqn:Hfits; [reflexivity|].
  unfold getProjects, get in *. unfold fits, held in Hfits.
  destruct (getItem PROJECTS ls) as [| |stored].
  - apply sublist_nil_r in Hsub. congruence.
  - apply sublist_nil_r in Hsub. congruence.
  - apply Nat.leb_gt in Hfits.
    pose proof (textLength_projects_sublist _ _ Hsub). lia.
Qed.

Lemma getCategories_sublist categories ls :
  sublist categories (getCategories ls) ->
  getCategories (setCategories categories ls) = categories.
Proof.
  intros Hsub. unfold getCategories, setCategories. rewrite get_set.
  destruct (fits CATEGORIES categories ls) eqn:Hfits; [reflexivity|].
  unfold getCategories, get in *. unfold fits, held in Hfits.
  destruct (getItem CATEGORIES ls) as [| |stored].
  - apply sublist_nil_r in Hsub. congruence.
  - apply sublist_nil_r in Hsub. congruence.
  - apply Nat.leb_gt in Hfits.
    pose proof (textLength_categories_sublist _ _ Hsub). lia.
Qed.

Lemma getFavorites_sublist favorites ls :
  sublist favorites (getFavorites ls) ->
  getFavorites (fst (set FAVORITES favorites ls)) = favorites.
Proof.
  intros Hsub. unfold getFavorites. rewrite get_set.
  destruct (fits FAVORITES favorites ls) eqn:Hfits; [reflexivity|].
  unfold getFavorites, get in *. unfold fits, held in Hfits.
  destruct (getItem FAVORITES ls) as [| |stored].
  - apply sublist_nil_r in Hsub. congruence.
  - apply sublist_nil_r in Hsub. congruence.
  - apply Nat.leb_gt in Hfits.
    pose proof (textLength_favorites_sublist _ _ Hsub). lia.
Qed.

(** C9: [get(key, default)] returns the caller's default, and returns
    normally, when nothing is stored under the key and when the stored
    text does not parse. *)
Theorem get_default_when_missing_or_unparsable
    (k : key) (defaultValue : value k) (ls : localStorage) :
  getItem k ls = Missing \/ getItem k ls = Unparsable ->
  get k defaultValue ls = defaultValue.
Proof. unfold get. intros [-> | ->]; reflexivity. Qed.

Lemma get_default_witness :
  (getItem SETTINGS (Sample.storageOf [] []) = Missing
   \/ getItem SETTINGS (Sample.storageOf [] []) = Unparsable)
  /\ get SETTINGS defaultSettings (Sample.storageOf [] []) = defaultSettings.
Proof.
  split; [right; reflexivity|].
  apply get_default_when_missing_or_unparsable. right; reflexivity.
Defined.

(** What [updateProject] does to the entry it finds. *)
Lemma updateProject_found clk id updates ls index :
  findIndex (fun p => prop_is p "id" id) (getProjects ls) = Some index ->
  exists old,
    getProjects ls !! index = Some old
    /\ updateProject clk id updates ls =
       (setProjects
          (<[index := <["updated_at" := JStr (today clk)]> (updates ∪ old)]>
             (getProjects ls)) ls,
        Some (<["updated_at" := JStr (today clk)]> (updates ∪ old))).
Proof.
  intros Hfind. destruct (findIndex_Some _ _ _ Hfind) as (old & Hold & _ & _).
  exists old. split; [exact Hold|].
  unfold updateProject. rewrite Hfind, Hold. reflexivity.
Qed.

(** C3, as the code has it: when a project with the given id is stored,
    [updateProject(id, updates)] returns the shallow merge of the first
    such entry with [updates] (a property of [updates] wins over the
    stored one), with [updated_at] set to the current date whatever
    [updates] holds; [created_at] is the one of [updates] when [updates]
    has that key, and the stored one otherwise.  When the browser takes
    the write the merge replaces the entry in the stored list; when it
    does not the storage is as it was, and the merge is returned all the
    same.  The other entries stay as they were. *)
Theorem updateProject_refreshes_updated_at
    (clk : Clock) (id : string) (updates : obj) (ls : localStorage) :
  (exists p, In p (getProjects ls) /\ prop_is p "id" id = true) ->
  exists index old new,
    findIndex (fun p => prop_is p "id" id) (getProjects ls) = Some index
    /\ getProjects ls !! index = Some old
    /\ snd (updateProject clk id updates ls) = Some new
    /\ (forall k, k <> "updated_at" ->
          new !! k = match updates !! k with
                     | Some v => Some v
                     | None => old !! k
                     end)
    /\ new !! "updated_at" = Some (JStr (today clk))
    /\ new !! "created_at" =
         match updates !! "created_at" with
         | Some v => Some v
         | None => old !! "created_at"
         end
    /\ (if fits PROJECTS (<[index := new]> (getProjects ls)) ls
        then getProjects (fst (updateProject clk id updates ls))
             = <[index := new]> (getProjects ls)
        else fst (updateProject clk id updates ls) = ls)
    /\ (forall j, j <> index ->
          getProjects (fst (updateProject clk id updates ls)) !! j
          = getProjects ls !! j).
Proof.
  intros Hstored. destruct (findIndex_is_Some _ _ Hstored) as [index Hfind].
  destruct (updateProject_found clk id updates ls index Hfind) as (old & Hold & ->).
  exists index, old. eexists. cbn [fst snd].
  assert (Hmerge : forall k, k <> "updated_at" ->
            (<["updated_at" := JStr (today clk)]> (updates ∪ old) : obj) !! k
            = match updates !! k with
              | Some v => Some v
              | None => old !! k
              end).
  { intros k Hk. rewrite lookup_insert_ne by congruence. rewrite lookup_union.
    destruct (updates !! k), (old !! k); reflexivity. }
  split; [exact Hfind|]. split; [exact Hold|]. split; [reflexivity|].
  split; [exact Hmerge|].
  split; [apply lookup_insert_eq|].
  split; [apply Hmerge; discriminate|].
  unfold setProjects. destruct (fits PROJECTS _ ls) eqn:Hfits.
  - rewrite (set_fits _ _ _ Hfits). cbn [fst].
    unfold getProjects at 1 3. unfold get. rewrite !getItem_written_same.
    split; [reflexivity|].
    intros j Hj. apply list_lookup_insert_ne. congruence.
  - rewrite (set_refused _ _ _ Hfits). cbn [fst]. split; reflexivity.
Qed.

Lemma updateProject_witness :
  (exists p, In p (getProjects (Sample.storageOf [Sample.vite] []))
             /\ prop_is p "id" "1" = true)
  /\ exists index old new,
    findIndex (fun p => prop_is p "id" "1")
      (getProjects (Sample.storageOf [Sample.vite] [])) = Some index
    /\ getProjects (Sample.storageOf [Sample.vite] []) !! index = Some old
    /\ snd (updateProject Sample.clock "1" Sample.restar
              (Sample.storageOf [Sample.vite] [])) = Some new
    /\ (forall k, k <> "updated_at" ->
          new !! k = match Sample.restar !! k with
                     | Some v => Some v
                     | None => old !! k
                     end)
    /\ new !! "updated_at" = Some (JStr (today Sample.clock))
    /\ new !! "created_at" =
         match Sample.restar !! "created_at" with
         | Some v => Some v
         | None => old !! "created_at"
         end
    /\ (if fits PROJECTS (<[index := new]> (getProjects (Sample.storageOf [Sample.vite] [])))
             (Sample.storageOf [Sample.vite] [])
        then getProjects (fst (updateProject Sample.clock "1" Sample.restar
                                 (Sample.storageOf [Sample.vite] [])))
             = <[index := new]> (getProjects (Sample.storageOf [Sample.vite] []))
        else fst (updateProject Sample.clock "1" Sample.restar
                    (Sample.storageOf [Sample.vite] []))
             = Sample.storageOf [Sample.vite] [])
    /\ (forall j, j <> index ->
          getProjects (fst (updateProject Sample.clock "1" Sample.restar
                              (Sample.storageOf [Sample.vite] []))) !! j
          = getProjects (Sample.storageOf [Sample.vite] []) !! j).
Proof.
  assert (Hstored : exists p, In p (getProjects (Sample.storageOf [Sample.vite] []))
                              /\ prop_is p "id" "1" = true).
  { exists Sample.vite. split; [left; reflexivity|reflexivity]. }
  split; [exact Hstored|].
  exact (updateProject_refreshes_updated_at Sample.clock "1" Sample.restar
           (Sample.storageOf [Sample.vite] []) Hstored).
Defined.

(** C3 as stated fails: an update object that carries [created_at]
    replaces the stored [created_at]. *)
Lemma updateProject_overwrites_created_at :
  let ls := Sample.storageOf [Sample.vite] [] in
  let ls' := fst (updateProject Sample.clock "1" Sample.backdate ls) in
  exists old new,
    getProjects ls !! 0%nat = Some old
    /\ prop_is old "id" "1" = true
    /\ getProjects ls' !! 0%nat = Some new
    /\ old !! "created_at" = Some (JStr "2020-01-01")
    /\ new !! "created_at" = Some (JStr "1999-12-31")
    /\ new !! "created_at" <> old !! "created_at".
Proof.
  eexists _, _. do 2 (split; [reflexivity|]).
  split; [vm_compute; reflexivity|]. split; [reflexivity|].
  split; [reflexivity|]. vm_compute. discriminate.
Qed.

(** The same update in a browser that takes no more characters: the
    merge is returned, and the stored project is as it was. *)
Example updateProject_refused :
  let ls := Sample.full (Sample.storageOf [Sample.vite] []) in
  (fun new => new !! "stars") <$> snd (updateProject Sample.clock "1" Sample.restar ls)
  = Some (Some (JNum 5))
  /\ fst (updateProject Sample.clock "1" Sample.restar ls) = ls
  /\ getProjects ls = [Sample.vite].
Proof. vm_compute. repeat split. Qed.

Lemma indexOf_None projectId favorites :
  indexOf projectId favorites = None <-> ~ In projectId favorites.
Proof.
  unfold indexOf. rewrite findIndex_None, Forall_forall. split.
  - intros H Hin. apply list_elem_of_In, H in Hin.
    rewrite String.eqb_refl in Hin. discriminate.
  - intros H x Hx. apply list_elem_of_In in Hx.
    destruct (String.eqb_spec projectId x); [subst; contradiction|reflexivity].
Qed.

Lemma indexOf_Some projectId favorites index :
  indexOf projectId favorites = Some index ->
  favorites !! index = Some projectId.
Proof.
  intros H. destruct (findIndex_Some _ _ _ H) as (x & Hx & Heq & _).
  apply String.eqb_eq in Heq. congruence.
Qed.

Lemma getFavorites_set favorites ls :
  getFavorites (fst (set FAVORITES favorites ls))
  = if fits FAVORITES favorites ls then favorites else getFavorites ls.
Proof. apply (get_set FAVORITES). Qed.

Lemma toggleFavorite_absent projectId ls :
  ~ In projectId (getFavorites ls) ->
  toggleFavorite projectId ls =
  (fst (set FAVORITES (getFavorites ls ++ [projectId]) ls), true).
Proof.
  intros H. apply indexOf_None in H. unfold toggleFavorite. rewrite H. reflexivity.
Qed.

Lemma toggleFavorite_present projectId ls index :
  indexOf projectId (getFavorites ls) = Some index ->
  toggleFavorite projectId ls =
  (fst (set FAVORITES (delete index (getFavorites ls)) ls), false).
Proof. intros H. unfold toggleFavorite. rewrite H. reflexivity. Qed.

(** The favorites after a removal: the write only drops an entry, so it
    is never lost. *)
Lemma toggleFavorite_removes projectId ls index :
  indexOf projectId (getFavorites ls) = Some index ->
  getFavorites (fst (toggleFavorite projectId ls)) = delete index (getFavorites ls).
Proof.
  intros H. rewrite (toggleFavorite_present _ _ _ H). cbn [fst].
  apply getFavorites_sublist, sublist_delete.
Qed.

(** Toggling keeps a duplicate-free list duplicate-free: lists that only
    [toggleFavorite] has written never hold an id twice. *)
Lemma toggleFavorite_NoDup projectId ls :
  NoDup (getFavorites ls) ->
  NoDup (getFavorites (fst (toggleFavorite projectId ls))).
Proof.
  intros Hnodup.
  destruct (indexOf projectId (getFavorites ls)) as [index|] eqn:Hidx.
  - rewrite (toggleFavorite_removes _ _ _ Hidx).
    exact (sublist_NoDup _ _ Hnodup (sublist_delete _ _)).
  - apply indexOf_None in Hidx.
    rewrite (toggleFavorite_absent _ _ Hidx); cbn [fst].
    rewrite getFavorites_set. destruct (fits _ _ _); [|exact Hnodup].
    apply NoDup_app. split; [exact Hnodup|].
    split; [|apply NoDup_singleton].
    intros x Hx ->%list_elem_of_singleton. apply Hidx, list_elem_of_In, Hx.
Qed.

(** C10: on a favorites list that holds the id twice, which an import
    can write, [toggleFavorite] removes one occurrence and returns
    [false] while the id is still a favorite; a second call removes the
    other, so two calls in a row do not give back the list. *)
Lemma toggleFavorite_twice_drops_duplicates :
  let ls := Sample.storageOf [] ["1"; "1"] in
  let once := toggleFavorite "1" ls in
  let twice := toggleFavorite "1" (fst once) in
  getFavorites ls = ["1"; "1"]
  /\ snd once = false
  /\ isFavorite "1" (fst once) = true
  /\ getFavorites (fst once) = ["1"]
  /\ getFavorites (fst twice) = []
  /\ ~ In "1" (getFavorites (fst twice)).
Proof.
  cbn zeta. do 5 (split; [vm_compute; reflexivity|]). vm_compute. tauto.
Qed.

End LocalCache.

(** *** The storage without its types *)

Section RawLaws.
Import Storage.

(** The typed storage is the untyped one on the texts of typed values. *)
Lemma raw_get k d ls :
  RawStorage.get k (stringify k d) (RawStorage.texts ls) = stringify k (get k d ls).
Proof.
  unfold RawStorage.get, get.
  destruct k; cbn [RawStorage.getItem RawStorage.texts getItem
                   RawStorage.projects_item RawStorage.categories_item
                   RawStorage.tags_item RawStorage.favorites_item
                   RawStorage.settings_item];
    match goal with |- context [RawStorage.text_of _ ?i] => destruct i end; reflexivity.
Qed.

Lemma raw_held k ls : RawStorage.held k (RawStorage.texts ls) = held k ls.
Proof.
  unfold RawStorage.held, held.
  destruct k; cbn [RawStorage.getItem RawStorage.texts getItem
                   RawStorage.projects_item RawStorage.categories_item
                   RawStorage.tags_item RawStorage.favorites_item
                   RawStorage.settings_item];
    match goal with |- context [RawStorage.text_of _ ?i] => destruct i end; reflexivity.
Qed.

Lemma raw_set k v ls :
  RawStorage.set k (stringify k v) (RawStorage.texts ls)
  = (RawStorage.texts (fst (set k v ls)), snd (set k v ls)).
Proof.
  unfold RawStorage.set, RawStorage.setItem, set, setItem, RawStorage.fits, fits.
  rewrite raw_held. cbn [RawStorage.room RawStorage.texts]. fold (textLength k v).
  destruct (Nat.leb _ _); [|reflexivity]. cbn [fst snd]. f_equal.
  unfold RawStorage.written. rewrite raw_held.
  destruct k; reflexivity.
Qed.











End RawLaws.

(** ** The sync client *)

Section SyncClient.
Import Storage Sync.

Lemma stamp_stamped clk source : stamped clk source (stamp clk source).
Proof.
  unfold stamped, stamp.
  split; [rewrite lookup_insert_ne, lookup_insert_ne, lookup_insert_eq
            by discriminate; reflexivity|].
  split.
  { rewrite lookup_insert_ne, lookup_insert_eq by discriminate.
    unfold prop_or. rewrite lookup_insert_ne by discriminate. reflexivity. }
  split; [apply lookup_insert_eq|].
  intros k Hid Hcreated Hupdated.
  rewrite !lookup_insert_ne by congruence. reflexivity.
Qed.

Lemma addProject_appends clk source ls :
  appended (stamp clk source) ls (fst (addProject clk source ls)).
Proof.
  unfold appended, addProject, setProjects. cbn [fst].
  destruct (fits PROJECTS _ ls) eqn:Hfits.
  - rewrite (set_fits _ _ _ Hfits). cbn [fst].
    unfold getProjects at 1. unfold get. rewrite getItem_written_same. reflexivity.
  - rewrite (set_refused _ _ _ Hfits). reflexivity.
Qed.

Lemma deleteProject_removes id ls :
  removed_locally id ls (deleteProject id ls).
Proof.
  unfold removed_locally, deleteProject.
  rewrite setProjects_sublist by apply sublist_List_filter.
  split; [reflexivity|].
  apply Forall_forall. intros p Hp. apply list_elem_of_In, filter_In in Hp.
  destruct Hp as [_ Hp]. apply negb_true_iff in Hp. exact Hp.
Qed.

(** C8, as the code has it: [addProjectToApi] sends the project data to
    the remote side as it received it.  [id] and [created_at] are filled
    in when missing, and [updated_at] is set, afterwards and on the
    client: on the entity the remote side returned (the supplied data
    when it returned none) after a successful answer, on the supplied
    data after a failed request.  The stamped entry is appended to the
    local mirror when the browser takes the write, and the mirror is as
    it was when it does not; the call answers all the same, with the
    result of the remote side, whose [project] is the stamped entry, or
    with [{ success: true, local: true }].  An unsuccessful answer stamps
    and appends nothing. *)
Theorem addProjectToApi_stamps_after_request
    (remote : request -> reply) (clk : Clock) (projectData : obj) (w : World) :
  let w' := fst (addProjectToApi remote clk projectData w) in
  let answer := snd (addProjectToApi remote clk projectData w) in
  sent w' = sent w ++ [postRequest projectData]
  /\ match remote (postRequest projectData) with
     | Resolves r =>
         if success r
         then exists entry,
                stamped clk (project_or r projectData) entry
                /\ appended entry (storage w) (storage w')
                /\ success answer = true
                /\ local answer = local r
                /\ project answer = (fun _ => entry) <$> project r
         else storage w' = storage w /\ answer = r
     | Rejects =>
         exists entry,
           stamped clk projectData entry
           /\ appended entry (storage w) (storage w')
           /\ answer = localOnly
     end.
Proof.
  unfold addProjectToApi, apiRequest, postRequest. cbn zeta.
  destruct (remote _) as [|r]; [|destruct (success r) eqn:Hsuccess].
  - cbn [fst snd sent storage on_storage]. split; [reflexivity|].
    exists (stamp clk projectData).
    split; [apply stamp_stamped|]. split; [|reflexivity].
    apply addProject_appends.
  - pose proof (addProject_appends clk (project_or r projectData) (storage w)) as Happ.
    unfold addProject in *. cbn [fst snd sent storage] in *.
    split; [reflexivity|].
    exists (stamp clk (project_or r projectData)).
    split; [apply stamp_stamped|]. split; [exact Happ|].
    unfold stamped_result. destruct (project r) eqn:Hproject; cbn; auto.
  - cbn [fst snd sent storage]. repeat split.
Qed.

(** C8 as stated fails: the request carries the supplied data without
    [id], [created_at] and [updated_at]. *)
Lemma addProjectToApi_sends_unstamped :
  let w' := fst (addProjectToApi Sample.accepts Sample.clock Sample.react
                   (Sample.world [])) in
  exists sentData,
    sent w' = [{| endpoint := "/projects"; method := "POST"; body := Some sentData |}]
    /\ sentData !! "name" = Some (JStr "react")
    /\ sentData !! "id" = None
    /\ sentData !! "created_at" = None
    /\ sentData !! "updated_at" = None.
Proof. eexists. repeat split; reflexivity. Qed.

(** C2, as the code has it: after [deleteProjectFromApi(id)] the local
    mirror holds no entry with that id, and every other entry as before,
    when the remote delete succeeds and when the request fails; when the
    remote side answers without success the local mirror is left as it
    was.  The caller gets the result of the remote side, and
    [{ success: true, local: true }] after a failed request. *)
Theorem deleteProjectFromApi_local_effect
    (remote : request -> reply) (id : string) (w : World) :
  let w' := fst (deleteProjectFromApi remote id w) in
  let answer := snd (deleteProjectFromApi remote id w) in
  sent w' = sent w ++ [deleteRequest id]
  /\ match remote (deleteRequest id) with
     | Resolves r =>
         answer = r
         /\ if success r
            then removed_locally id (storage w) (storage w')
            else storage w' = storage w
     | Rejects =>
         answer = localOnly
         /\ removed_locally id (storage w) (storage w')
     end.
Proof.
  unfold deleteProjectFromApi, apiRequest, deleteRequest. cbn zeta.
  destruct (remote _) as [|r]; [|destruct (success r)];
    cbn [fst snd sent storage on_storage];
    (split; [reflexivity|]); (split; [reflexivity|]);
    try reflexivity; apply deleteProject_removes.
Qed.

(** C2 as stated fails: after an unsuccessful answer the entry with the
    id is still in the local mirror. *)
Lemma deleteProjectFromApi_keeps_entry_when_refused :
  let w' := fst (deleteProjectFromApi Sample.refuses "1" (Sample.world [Sample.vite])) in
  exists entry,
    getProjects (storage w') = [entry]
    /\ prop_is entry "id" "1" = true.
Proof. eexists. split; reflexivity. Qed.

(** The other two outcomes on the same mirror: the entry is gone after a
    successful answer and after a failed request. *)
Example deleteProjectFromApi_when_accepted :
  getProjects (storage (fst (deleteProjectFromApi Sample.accepts "1"
                               (Sample.world [Sample.vite; Sample.react]))))
  = [Sample.react].
Proof. vm_compute. reflexivity. Qed.

Example deleteProjectFromApi_when_offline :
  let '(w', answer) :=
    deleteProjectFromApi Sample.offline "1" (Sample.world [Sample.vite; Sample.react]) in
  getProjects (storage w') = [Sample.react]
  /\ sent w' = [deleteRequest "1"]
  /\ answer = localOnly.
Proof. vm_compute. repeat split. Qed.

(** The entry appended after a successful answer carries the id of the
    remote side; after a failed request, the local time stamp. *)
Example addProjectToApi_when_accepted :
  (fun p => p !! "id") <$>
    getProjects (storage (fst (addProjectToApi Sample.accepts Sample.clock Sample.react
                                 (Sample.world []))))
  = [Some (JStr "1700000000123")].
Proof. vm_compute. reflexivity. Qed.

Example addProjectToApi_when_offline :
  (fun p => (p !! "id", p !! "created_at", p !! "updated_at")) <$>
    getProjects (storage (fst (addProjectToApi Sample.offline Sample.clock Sample.react
                                 (Sample.world []))))
  = [(Some (JStr "1700000000000"), Some (JStr "2023-11-14"), Some (JStr "2023-11-14"))].
Proof. vm_compute. reflexivity. Qed.

(** In a browser that takes no more characters the call answers as
    before and the mirror stays empty. *)
Example addProjectToApi_when_full :
  let '(w', answer) :=
    addProjectToApi Sample.offline Sample.clock Sample.react
      {| storage := Sample.full (Sample.storageOf [] []); sent := [] |} in
  getProjects (storage w') = [] /\ answer = localOnly.
Proof. vm_compute. split; reflexivity. Qed.

End SyncClient.

(** ** The query engine *)

Section QueryEngine.
Import SearchBar FilterPanel.

Lemma trim_blank value : blank value = true -> trim value = "".
Proof.
  unfold trim. induction value as [|c rest IH]; simpl; [reflexivity|].
  intros [Hc Hrest]%andb_true_iff. rewrite Hc. exact (IH Hrest).
Qed.

Lemma searchProjects_nonempty (projects : list Project.t) (query : string) :
  query <> "" ->
  searchProjects projects query
  = List.filter (matches (toLowerCase query)) projects.
Proof.
  intros Hquery. unfold searchProjects.
  destruct (String.eqb_spec query ""); [contradiction|reflexivity].
Qed.

(** C4, as the code has it: [searchProjects] returns the list it was
    given for the empty query; the model is a function of its arguments,
    as the source only reads [projects].  A text of white space only that
    is typed into the search bar is trimmed to the empty query by the
    input listener, and so gives the list back as well; handed to
    [searchProjects] itself, any other query, of white space only or not,
    filters the list by substring. *)
Theorem searchProjects_empty_query (projects : list Project.t) :
  searchProjects projects "" = projects
  /\ (forall value, blank value = true ->
       searchProjects projects (inputQuery value) = projects)
  /\ (forall query, query <> "" ->
       searchProjects projects query
       = List.filter (matches (toLowerCase query)) projects).
Proof.
  split; [reflexivity|]. split.
  - intros value Hblank. unfold inputQuery. rewrite (trim_blank _ Hblank).
    reflexivity.
  - apply searchProjects_nonempty.
Qed.

Lemma searchProjects_empty_query_witness :
  (blank "  " = true /\ " " <> "")
  /\ searchProjects [Sample.hugo; Sample.deno] (inputQuery "  ")
     = [Sample.hugo; Sample.deno]
  /\ searchProjects [Sample.hugo; Sample.deno] " "
     = List.filter (matches (toLowerCase " ")) [Sample.hugo; Sample.deno].
Proof.
  split; [split; [reflexivity|discriminate]|].
  split.
  - apply (proj1 (proj2 (searchProjects_empty_query [Sample.hugo; Sample.deno]))).
    reflexivity.
  - apply (proj2 (proj2 (searchProjects_empty_query [Sample.hugo; Sample.deno]))).
    discriminate.
Defined.

(** C4 as stated fails on a query of white space only: it is matched as
    a substring, and a project without it in any field is dropped. *)
Lemma searchProjects_blank_query_filters :
  blank " " = true
  /\ searchProjects [Sample.hugo; Sample.deno] " " = [Sample.hugo]
  /\ searchProjects [Sample.hugo; Sample.deno] " " <> [Sample.hugo; Sample.deno].
Proof.
  split; [reflexivity|]. split; [reflexivity|]. vm_compute. discriminate.
Qed.

(** C5: for a non-empty query every element of
    [searchProjects(projects, query)] is an element of [projects], in the
    order of [projects], so that no id appears that was not there. *)
Theorem searchProjects_subset (projects : list Project.t) (query : string) :
  query <> "" ->
  searchProjects projects query ⊆ projects
  /\ sublist (searchProjects projects query) projects
  /\ Project.id <$> searchProjects projects query ⊆ Project.id <$> projects.
Proof.
  intros Hquery.
  rewrite (searchProjects_nonempty projects query Hquery).
  assert (Hsub : List.filter (matches (toLowerCase query)) projects ⊆ projects).
  { intros p Hp. apply list_elem_of_In, filter_In in Hp.
    apply list_elem_of_In. tauto. }
  split; [exact Hsub|]. split.
  - induction projects as [|p rest IH]; simpl; [constructor|].
    assert (Hrest : List.filter (matches (toLowerCase query)) rest ⊆ rest).
    { intros x Hx. apply list_elem_of_In, filter_In in Hx.
      apply list_elem_of_In. tauto. }
    destruct (matches _ p); [apply sublist_skip|apply sublist_cons]; auto.
  - intros i Hi. apply list_elem_of_fmap in Hi as (p & -> & Hp).
    apply list_elem_of_fmap. exists p. split; [reflexivity|]. auto.
Qed.

Lemma searchProjects_subset_witness :
  "go" <> ""
  /\ searchProjects [Sample.hugo; Sample.deno; Sample.gin] "go"
     ⊆ [Sample.hugo; Sample.deno; Sample.gin].
Proof.
  split; [discriminate|].
  apply (searchProjects_subset [Sample.hugo; Sample.deno; Sample.gin] "go").
  discriminate.
Defined.

(** Any two facet filters commute. *)
Lemma facetFilter_comm filters favorites (f g : facet) (result : list Project.t) :
  facetFilter filters favorites f (facetFilter filters favorites g result)
  = facetFilter filters favorites g (facetFilter filters favorites f result).
Proof.
  destruct f, g; try reflexivity;
    unfold facetFilter, languageFilter, categoryFilter, favoritesFilter;
    repeat match goal with
           | |- context [if ?b then _ else _] => destruct b
           end;
    try reflexivity; apply filter_filter_comm.
Qed.

Lemma applyFacets_cons filters favorites f order result :
  applyFacets filters favorites (f :: order) result
  = applyFacets filters favorites order (facetFilter filters favorites f result).
Proof. reflexivity. Qed.

Lemma applyFacets_Permutation filters favorites (order order' : list facet) :
  Permutation order order' ->
  forall result,
    applyFacets filters favorites order result
    = applyFacets filters favorites order' result.
Proof.
  induction 1 as [|f o o' _ IH|f g o|o o' o'' _ IH _ IH']; intros result.
  - reflexivity.
  - rewrite !applyFacets_cons. apply IH.
  - rewrite !applyFacets_cons. f_equal. apply facetFilter_comm.
  - rewrite IH. apply IH'.
Qed.

(** C6: the language, category and favorites filters of [applyFilters]
    give the same list in each of the six orders in which they can be
    applied, and so does [applyFilters], which sorts what they leave. *)
Theorem applyFilters_order_independent
    (localeCompare : string -> string -> Z) (getTime : string -> option Z)
    (projects : list Project.t) (filters : Filters.t) (favorites : list string)
    (order : list facet) :
  Permutation order sourceOrder ->
  applyFacets filters favorites order projects
  = applyFacets filters favorites sourceOrder projects
  /\ applyFilters localeCompare getTime projects filters favorites
     = sortStage localeCompare getTime filters
         (applyFacets filters favorites order projects).
Proof.
  intros Horder.
  rewrite (applyFacets_Permutation filters favorites _ _ Horder projects).
  split; reflexivity.
Qed.

Lemma applyFilters_order_independent_witness :
  Permutation [ShowFavorites; Language; Category] sourceOrder
  /\ applyFacets (Sample.filtersOf "Go" "stars-desc" true) ["3"; "2"]
       [ShowFavorites; Language; Category] [Sample.hugo; Sample.deno; Sample.gin]
     = applyFacets (Sample.filtersOf "Go" "stars-desc" true) ["3"; "2"]
         sourceOrder [Sample.hugo; Sample.deno; Sample.gin].
Proof.
  assert (Horder : Permutation [ShowFavorites; Language; Category] sourceOrder).
  { unfold sourceOrder.
    eapply perm_trans; [apply perm_swap|apply perm_skip, perm_swap]. }
  split; [exact Horder|].
  exact (proj1 (applyFilters_order_independent Sample.byLength Sample.noDate
                  [Sample.hugo; Sample.deno; Sample.gin]
                  (Sample.filtersOf "Go" "stars-desc" true) ["3"; "2"]
                  [ShowFavorites; Language; Category] Horder)).
Defined.

Lemma split_sortString field direction :
  dash_free field = true ->
  split "-" (sortString field direction) = field :: split "-" direction.
Proof.
  unfold sortString. induction field as [|c rest IH]; simpl; [reflexivity|].
  intros [Hc Hrest]%andb_true_iff. apply negb_true_iff in Hc.
  rewrite Hc, (IH Hrest). reflexivity.
Qed.

Lemma sortString_not_empty field direction : sortString field direction <> "".
Proof. destruct field; discriminate. Qed.

Lemma compareBy_unknown localeCompare getTime field order :
  field <> "stars" -> field <> "name" -> field <> "updated" ->
  compareBy localeCompare getTime field order = (fun _ _ => 0%Z).
Proof.
  intros Hstars Hname Hupdated. unfold compareBy.
  destruct (String.eqb_spec field "stars"); [contradiction|].
  destruct (String.eqb_spec field "name"); [contradiction|].
  destruct (String.eqb_spec field "updated"); [contradiction|].
  reflexivity.
Qed.

(** C7: for a sort string ["<field>-<direction>"] whose field is none of
    [stars], [name] and [updated], the sort stage gives back the list it
    was given, so that [applyFilters] returns the filtered projects in
    their original order. *)
Theorem unknown_sort_field_keeps_order
    (localeCompare : string -> string -> Z) (getTime : string -> option Z)
    (projects : list Project.t) (filters : Filters.t) (favorites : list string)
    (field direction : string) :
  Filters.sort filters = sortString field direction ->
  dash_free field = true ->
  field <> "stars" -> field <> "name" -> field <> "updated" ->
  (forall result,
      sortStage localeCompare getTime filters result = result)
  /\ applyFilters localeCompare getTime projects filters favorites
     = applyFacets filters favorites sourceOrder projects.
Proof.
  intros Hsort Hfield Hstars Hname Hupdated.
  assert (Hstage : forall result,
             sortStage localeCompare getTime filters result = result).
  { intros result. unfold sortStage. rewrite Hsort.
    destruct (String.eqb_spec (sortString field direction) "") as [Hempty|_].
    - destruct (sortString_not_empty _ _ Hempty).
    - cbn [negb]. rewrite (split_sortString _ _ Hfield). cbn [lookup list_lookup default].
      rewrite (compareBy_unknown _ _ _ _ Hstars Hname Hupdated).
      apply Array_sort_constant. }
  split; [exact Hstage|].
  unfold applyFilters. apply Hstage.
Qed.

Lemma unknown_sort_field_keeps_order_witness :
  (Filters.sort (Sample.filtersOf "all" "forks-desc" false) = sortString "forks" "desc"
   /\ dash_free "forks" = true
   /\ "forks" <> "stars" /\ "forks" <> "name" /\ "forks" <> "updated")
  /\ applyFilters Sample.byLength Sample.noDate
       [Sample.hugo; Sample.deno; Sample.gin]
       (Sample.filtersOf "all" "forks-desc" false) []
     = applyFacets (Sample.filtersOf "all" "forks-desc" false) [] sourceOrder
         [Sample.hugo; Sample.deno; Sample.gin].
Proof.
  split; [repeat split; (reflexivity || discriminate)|].
  apply (unknown_sort_field_keeps_order Sample.byLength Sample.noDate
           [Sample.hugo; Sample.deno; Sample.gin]
           (Sample.filtersOf "all" "forks-desc" false) [] "forks" "desc");
    (reflexivity || discriminate).
Defined.

(** The sort scenario of the specification: stars [10, 500, 10000] under
    [stars-desc] come out as [10000, 500, 10]. *)
Example sort_scenario_stars_desc :
  Project.stars <$>
    applyFilters Sample.byLength Sample.noDate
      [Sample.hugo; Sample.deno; Sample.gin]
      (Sample.filtersOf "all" "stars-desc" false) []
  = [10000%Z; 500%Z; 10%Z].
Proof. reflexivity. Qed.

End QueryEngine.

(** * Further properties *)

(** ** The local cache: settings, import, projects, favorites *)

Section LocalCacheLaws.
Import Storage.

Lemma room_written k v ls :
  room (written k v ls) = held k ls + room ls - textLength k v.
Proof. destruct k; reflexivity. Qed.

(** A write takes no more room than the length of its text. *)
Lemma room_set k v ls : room ls <= room (fst (set k v ls)) + textLength k v.
Proof.
  unfold set, setItem. destruct (fits k v ls) eqn:Hfits; cbn [fst]; [|lia].
  rewrite room_written. apply Nat.leb_le in Hfits. lia.
Qed.

Lemma getSettings_setSettings settings ls :
  getSettings (setSettings settings ls)
  = if fits SETTINGS (JObj (spread settings ∪ spread (getSettings ls))) ls
    then JObj (spread settings ∪ spread (getSettings ls))
    else getSettings ls.
Proof. apply (get_set SETTINGS). Qed.

Lemma setSettings_refused settings ls :
  fits SETTINGS (JObj (spread settings ∪ spread (getSettings ls))) ls = false ->
  setSettings settings ls = ls.
Proof. intros H. unfold setSettings. rewrite (set_refused _ _ _ H). reflexivity. Qed.

(** X1: [setSettings] merges and never replaces: a key that neither of
    two calls names keeps its value, whether or not the browser takes the
    writes; when it takes both, the settings are the second argument over
    the first over what was there (the built-in defaults when nothing was
    stored); a call whose write it does not take leaves the storage as it
    was.  No other collection changes. *)
Theorem setSettings_merges (first second : json) (ls : localStorage) :
  let ls1 := setSettings first ls in
  let ls' := setSettings second ls1 in
  (forall k, spread second !! k = None -> spread first !! k = None ->
             spread (getSettings ls') !! k = spread (getSettings ls) !! k)
  /\ (fits SETTINGS (JObj (spread first ∪ spread (getSettings ls))) ls = true ->
      fits SETTINGS (JObj (spread second ∪ spread (getSettings ls1))) ls1 = true ->
      getSettings ls'
      = JObj (spread second ∪ (spread first ∪ spread (getSettings ls))))
  /\ (fits SETTINGS (JObj (spread first ∪ spread (getSettings ls))) ls = false ->
      ls1 = ls)
  /\ getProjects ls' = getProjects ls
  /\ getCategories ls' = getCategories ls
  /\ getTags ls' = getTags ls
  /\ getFavorites ls' = getFavorites ls.
Proof.
  cbn zeta. split; [|split; [|split]].
  - intros k Hsecond Hfirst. rewrite !getSettings_setSettings.
    destruct (fits SETTINGS _ (setSettings first ls)); cbn [spread];
      rewrite ?lookup_union, ?Hsecond, ?getSettings_setSettings;
      destruct (fits SETTINGS _ ls); cbn [spread];
      rewrite ?lookup_union, ?Hfirst;
      try reflexivity; destruct (spread (getSettings ls) !! k); reflexivity.
  - intros H1 H2. rewrite getSettings_setSettings, H2.
    rewrite getSettings_setSettings, H1. reflexivity.
  - apply setSettings_refused.
  - unfold getProjects, getCategories, getTags, getFavorites, setSettings.
    rewrite !get_set_other by discriminate. repeat split.
Qed.

Lemma setSettings_merges_witness :
  fits SETTINGS
    (JObj (spread Sample.light ∪ spread (getSettings (Sample.storageOf [] []))))
    (Sample.storageOf [] []) = true
  /\ getSettings (setSettings Sample.light (setSettings Sample.light (Sample.storageOf [] [])))
     = JObj (spread Sample.light
               ∪ (spread Sample.light ∪ spread (getSettings (Sample.storageOf [] [])))).
Proof.
  assert (H1 : fits SETTINGS
                 (JObj (spread Sample.light
                          ∪ spread (getSettings (Sample.storageOf [] []))))
                 (Sample.storageOf [] []) = true) by (vm_compute; reflexivity).
  split; [exact H1|].
  apply (proj1 (proj2 (setSettings_merges Sample.light Sample.light
                         (Sample.storageOf [] []))) H1).
  vm_compute. reflexivity.
Defined.

(** What each write of [importData] leaves for the accessor of its
    collection: the supplied value or the stored one. *)
Lemma importData_projects data ls :
  getProjects (importData data ls)
  = match projects data with
    | Some v => if fits PROJECTS v ls then v else getProjects ls
    | None => getProjects ls
    end.
Proof.
  unfold importData, when_present, when_truthy, setSettings, setTags, setCategories,
    setProjects, getProjects.
  destruct (settings data) as [s|]; [destruct (truthy s)|];
    destruct (favorites data), (tags data), (categories data);
    rewrite ?get_set_other by discriminate;
    destruct (projects data); rewrite ?get_set; reflexivity.
Qed.

Lemma importData_categories data ls :
  getCategories (importData data ls) = getCategories ls
  \/ Some (getCategories (importData data ls)) = categories data.
Proof.
  unfold importData, when_present, when_truthy, setSettings, setTags, setCategories,
    getCategories.
  destruct (settings data) as [s|]; [destruct (truthy s)|];
    destruct (favorites data), (tags data);
    rewrite ?get_set_other by discriminate;
    (destruct (categories data);
     [rewrite get_set; destruct (fits _ _ _); [right; reflexivity|left]|left]);
    destruct (projects data); unfold setProjects;
    rewrite ?get_set_other by discriminate; reflexivity.
Qed.

Lemma importData_tags data ls :
  getTags (importData data ls) = getTags ls
  \/ Some (getTags (importData data ls)) = tags data.
Proof.
  unfold importData, when_present, when_truthy, setSettings, setTags, getTags.
  destruct (settings data) as [s|]; [destruct (truthy s)|];
    destruct (favorites data);
    rewrite ?get_set_other by discriminate;
    (destruct (tags data);
     [rewrite get_set; destruct (fits _ _ _); [right; reflexivity|left]|left]);
    destruct (categories data), (projects data); unfold setCategories, setProjects;
    rewrite ?get_set_other by discriminate; reflexivity.
Qed.

Lemma importData_favorites data ls :
  getFavorites (importData data ls) = getFavorites ls
  \/ Some (getFavorites (importData data ls)) = favorites data.
Proof.
  unfold importData, when_present, when_truthy, setSettings, getFavorites.
  destruct (settings data) as [s|]; [destruct (truthy s)|];
    rewrite ?get_set_other by discriminate;
    (destruct (favorites data);
     [rewrite get_set; destruct (fits _ _ _); [right; reflexivity|left]|left]);
    destruct (tags data), (categories data), (projects data);
    unfold setTags, setCategories, setProjects;
    rewrite ?get_set_other by discriminate; reflexivity.
Qed.

(** The settings that [importData(data)] asks [setSettings] to store. *)
Lemma importData_settings_read data ls :
  getSettings
    (when_present (favorites data) (fun v ls => fst (set FAVORITES v ls))
       (when_present (tags data) setTags
          (when_present (categories data) setCategories
             (when_present (projects data) setProjects ls))))
  = getSettings ls.
Proof.
  unfold when_present, setTags, setCategories, setProjects, getSettings.
  destruct (favorites data), (tags data), (categories data), (projects data);
    rewrite ?get_set_other by discriminate; reflexivity.
Qed.

Lemma importData_settings data ls :
  getSettings (importData data ls) = getSettings ls
  \/ getSettings (importData data ls) = merged_settings data ls.
Proof.
  unfold importData, merged_settings, when_truthy.
  destruct (settings data) as [s|]; [destruct (truthy s)|].
  - rewrite getSettings_setSettings, importData_settings_read.
    destruct (fits _ _ _); [right|left]; reflexivity.
  - left. apply importData_settings_read.
  - left. apply importData_settings_read.
Qed.

Lemma when_present_other k k' (field : option (value k)) d ls :
  k <> k' ->
  get k' d (when_present field (fun v l => fst (set k v l)) ls) = get k' d ls.
Proof.
  intros H. destruct field; [|reflexivity]. cbn [when_present].
  apply get_set_other, H.
Qed.

Lemma when_present_fits k (field : option (value k)) d ls n :
  from_option (textLength k) 0 field + n <= room ls ->
  get k d (when_present field (fun v l => fst (set k v l)) ls)
  = default (get k d ls) field
  /\ n <= room (when_present field (fun v l => fst (set k v l)) ls).
Proof.
  destruct field as [v|]; cbn [when_present from_option default]; [|intros; split; [reflexivity|lia]].
  intros Hroom. rewrite get_set, fits_room by lia. split; [reflexivity|].
  pose proof (room_set k v ls). lia.
Qed.

Lemma when_truthy_other k' field d ls :
  k' <> SETTINGS -> get k' d (when_truthy field setSettings ls) = get k' d ls.
Proof.
  intros H. unfold when_truthy, setSettings.
  destruct field as [s|]; [destruct (truthy s)|]; try reflexivity.
  apply get_set_other. congruence.
Qed.

(** X2: after [importData] each accessor returns what it returned before
    or what the object supplies for it (for the settings: the supplied
    ones merged over the stored ones), and a collection that the object
    does not supply is as before.  When the browser has room for all the
    texts, every supplied collection is the one stored afterwards. *)
Theorem importData_replaces_or_merges (data : Snapshot) (ls : localStorage) :
  let ls' := importData data ls in
  (getProjects ls' = getProjects ls \/ Some (getProjects ls') = projects data)
  /\ (getCategories ls' = getCategories ls \/ Some (getCategories ls') = categories data)
  /\ (getTags ls' = getTags ls \/ Some (getTags ls') = tags data)
  /\ (getFavorites ls' = getFavorites ls \/ Some (getFavorites ls') = favorites data)
  /\ (getSettings ls' = getSettings ls \/ getSettings ls' = merged_settings data ls)
  /\ (importLength data ls <= room ls ->
      getProjects ls' = default (getProjects ls) (projects data)
      /\ getCategories ls' = default (getCategories ls) (categories data)
      /\ getTags ls' = default (getTags ls) (tags data)
      /\ getFavorites ls' = default (getFavorites ls) (favorites data)
      /\ getSettings ls' = merged_settings data ls).
Proof.
  cbn zeta.
  split. { rewrite importData_projects. destruct (projects data); [|auto].
           destruct (fits _ _ _); auto. }
  split; [apply importData_categories|]. split; [apply importData_tags|].
  split; [apply importData_favorites|]. split; [apply importData_settings|].
  unfold importLength. intros Hroom. unfold importData.
  set (ls1 := when_present (projects data) setProjects ls).
  set (ls2 := when_present (categories data) setCategories ls1).
  set (ls3 := when_present (tags data) setTags ls2).
  set (ls4 := when_present (favorites data) (fun v l => fst (set FAVORITES v l)) ls3).
  assert (H1 : get PROJECTS [] ls1 = default (get PROJECTS [] ls) (projects data)
               /\ from_option (textLength CATEGORIES) 0 (categories data)
                  + from_option (textLength TAGS) 0 (tags data)
                  + from_option (textLength FAVORITES) 0 (favorites data)
                  + textLength SETTINGS (merged_settings data ls) <= room ls1).
  { apply when_present_fits. cbn [value] in *. lia. }
  destruct H1 as [Hp Hroom1].
  assert (H2 : get CATEGORIES [] ls2 = default (get CATEGORIES [] ls1) (categories data)
               /\ from_option (textLength TAGS) 0 (tags data)
                  + from_option (textLength FAVORITES) 0 (favorites data)
                  + textLength SETTINGS (merged_settings data ls) <= room ls2).
  { apply when_present_fits. cbn [value] in *. lia. }
  destruct H2 as [Hc Hroom2].
  assert (H3 : get TAGS [] ls3 = default (get TAGS [] ls2) (tags data)
               /\ from_option (textLength FAVORITES) 0 (favorites data)
                  + textLength SETTINGS (merged_settings data ls) <= room ls3).
  { apply when_present_fits. cbn [value] in *. lia. }
  destruct H3 as [Ht Hroom3].
  assert (H4 : get FAVORITES [] ls4 = default (get FAVORITES [] ls3) (favorites data)
               /\ textLength SETTINGS (merged_settings data ls) <= room ls4).
  { apply when_present_fits. cbn [value] in *. lia. }
  destruct H4 as [Hf Hroom4].
  assert (Hframe : forall k d,
            (k <> FAVORITES -> get k d ls4 = get k d ls3)
            /\ (k <> TAGS -> get k d ls3 = get k d ls2)
            /\ (k <> CATEGORIES -> get k d ls2 = get k d ls1)
            /\ (k <> PROJECTS -> get k d ls1 = get k d ls)).
  { intros k d. repeat split; intros Hk.
    - apply (when_present_other FAVORITES). congruence.
    - apply (when_present_other TAGS). congruence.
    - apply (when_present_other CATEGORIES). congruence.
    - apply (when_present_other PROJECTS). congruence. }
  assert (Hread : getSettings ls4 = getSettings ls).
  { unfold getSettings. destruct (Hframe SETTINGS defaultSettings) as (-> & -> & -> & ->);
      [reflexivity|discriminate..]. }
  unfold getProjects, getCategories, getTags, getFavorites.
  rewrite !when_truthy_other by discriminate.
  split.
  { destruct (Hframe PROJECTS []) as (-> & -> & -> & _); [exact Hp|discriminate..]. }
  split.
  { destruct (Hframe CATEGORIES []) as (-> & -> & _ & H1); try discriminate.
    rewrite Hc, H1 by discriminate. reflexivity. }
  split.
  { destruct (Hframe TAGS []) as (-> & _ & H2 & H1); try discriminate.
    rewrite Ht, H2, H1 by discriminate. reflexivity. }
  split.
  { destruct (Hframe FAVORITES []) as (_ & H3 & H2 & H1).
    rewrite Hf, H3, H2, H1 by discriminate. reflexivity. }
  unfold merged_settings in *. unfold when_truthy.
  destruct (settings data) as [s|]; [destruct (truthy s)|]; try exact Hread.
  rewrite getSettings_setSettings, Hread, fits_room; [reflexivity|exact Hroom4].
Qed.

Lemma importData_replaces_or_merges_witness :
  importLength Sample.snapshot (Sample.storageOf [Sample.vite] ["9"])
  <= room (Sample.storageOf [Sample.vite] ["9"])
  /\ getProjects (importData Sample.snapshot (Sample.storageOf [Sample.vite] ["9"]))
     = [Sample.react]
  /\ getFavorites (importData Sample.snapshot (Sample.storageOf [Sample.vite] ["9"]))
     = ["9"].
Proof.
  assert (Hroom : importLength Sample.snapshot (Sample.storageOf [Sample.vite] ["9"])
                  <= room (Sample.storageOf [Sample.vite] ["9"])).
  { apply Nat.leb_le. vm_compute. reflexivity. }
  split; [exact Hroom|].
  destruct (proj2 (proj2 (proj2 (proj2 (proj2
              (importData_replaces_or_merges Sample.snapshot
                 (Sample.storageOf [Sample.vite] ["9"])))))) Hroom)
    as (Hp & _ & _ & Hf & _).
  split; [exact Hp|exact Hf].
Defined.

(** X3: when a first import stored what it was given, a second import of
    the same object changes what no accessor returns. *)
Theorem importData_idempotent (data : Snapshot) (ls : localStorage) :
  let ls1 := importData data ls in
  getProjects ls1 = default (getProjects ls) (projects data) ->
  getCategories ls1 = default (getCategories ls) (categories data) ->
  getTags ls1 = default (getTags ls) (tags data) ->
  getFavorites ls1 = default (getFavorites ls) (favorites data) ->
  getSettings ls1 = merged_settings data ls ->
  let ls2 := importData data ls1 in
  getProjects ls2 = getProjects ls1
  /\ getCategories ls2 = getCategories ls1
  /\ getTags ls2 = getTags ls1
  /\ getFavorites ls2 = getFavorites ls1
  /\ getSettings ls2 = getSettings ls1.
Proof.
  cbn zeta. intros Hp Hc Ht Hf Hs.
  set (ls1 := importData data ls) in *.
  split.
  { rewrite importData_projects. destruct (projects data) as [v|]; [|reflexivity].
    destruct (fits _ _ _); [|reflexivity]. cbn in Hp. congruence. }
  split.
  { destruct (importData_categories data ls1) as [H|H]; [exact H|].
    rewrite <- H in Hc. symmetry. exact Hc. }
  split.
  { destruct (importData_tags data ls1) as [H|H]; [exact H|].
    rewrite <- H in Ht. symmetry. exact Ht. }
  split.
  { destruct (importData_favorites data ls1) as [H|H]; [exact H|].
    rewrite <- H in Hf. symmetry. exact Hf. }
  destruct (importData_settings data ls1) as [H|H]; [exact H|].
  rewrite H. unfold merged_settings in *.
  destruct (settings data) as [s|]; [destruct (truthy s)|]; try reflexivity.
  rewrite Hs. cbn [spread]. rewrite (assoc_L (∪)), map_union_idemp. reflexivity.
Qed.

Lemma importData_idempotent_witness :
  getProjects (importData Sample.snapshot (Sample.storageOf [Sample.vite] ["9"]))
  = [Sample.react]
  /\ getProjects
       (importData Sample.snapshot
          (importData Sample.snapshot (Sample.storageOf [Sample.vite] ["9"])))
     = getProjects (importData Sample.snapshot (Sample.storageOf [Sample.vite] ["9"])).
Proof.
  split; [vm_compute; reflexivity|].
  apply (importData_idempotent Sample.snapshot (Sample.storageOf [Sample.vite] ["9"]));
    vm_compute; reflexivity.
Defined.

Lemma filter_all_true {A} (f : A -> bool) (l : list A) :
  Forall (fun x => f x = true) l -> List.filter f l = l.
Proof.
  induction 1 as [|x rest Hx _ IH]; simpl; [reflexivity|]. rewrite Hx, IH. reflexivity.
Qed.

Lemma filter_idempotent {A} (f : A -> bool) (l : list A) :
  List.filter f (List.filter f l) = List.filter f l.
Proof.
  apply filter_all_true, Forall_forall. intros x Hx.
  apply list_elem_of_In, filter_In in Hx. tauto.
Qed.

Lemma getProjects_deleteProject id ls :
  getProjects (deleteProject id ls)
  = List.filter (fun p => negb (prop_is p "id" id)) (getProjects ls).
Proof. unfold deleteProject. apply setProjects_sublist, sublist_List_filter. Qed.

(** X4: deleting a project twice is deleting it once, and deleting an id
    that no stored project has leaves the list of projects as it was. *)
Theorem deleteProject_idempotent (id : string) (ls : localStorage) :
  deleteProject id (deleteProject id ls) = deleteProject id ls
  /\ (Forall (fun p => prop_is p "id" id = false) (getProjects ls) ->
      getProjects (deleteProject id ls) = getProjects ls).
Proof.
  split.
  - unfold deleteProject at 1.
    rewrite getProjects_deleteProject, filter_idempotent.
    unfold deleteProject, setProjects.
    destruct (fits PROJECTS (List.filter (fun p => negb (prop_is p "id" id))
                               (getProjects ls)) ls) eqn:Hfits.
    + rewrite (set_fits _ _ _ Hfits). cbn [fst].
      rewrite (set_same PROJECTS); [reflexivity|apply getItem_written_same].
    + rewrite (set_refused _ _ _ Hfits). cbn [fst].
      rewrite (set_refused _ _ _ Hfits). reflexivity.
  - intros Habsent. rewrite getProjects_deleteProject.
    apply filter_all_true. eapply Forall_impl; [exact Habsent|].
    intros p Hp. cbn beta in Hp. rewrite Hp. reflexivity.
Qed.

Lemma deleteProject_idempotent_witness :
  Forall (fun p => prop_is p "id" "7" = false)
    (getProjects (Sample.storageOf [Sample.vite; Sample.react] []))
  /\ getProjects (deleteProject "7" (Sample.storageOf [Sample.vite; Sample.react] []))
     = getProjects (Sample.storageOf [Sample.vite; Sample.react] []).
Proof.
  assert (Habsent : Forall (fun p => prop_is p "id" "7" = false)
                      (getProjects (Sample.storageOf [Sample.vite; Sample.react] []))).
  { repeat constructor. }
  split; [exact Habsent|].
  exact (proj2 (deleteProject_idempotent "7"
                  (Sample.storageOf [Sample.vite; Sample.react] [])) Habsent).
Defined.

(** X5: [updateProject] on an id that no stored project has writes nothing
    and returns [null]; on any id it keeps the number of projects. *)
Theorem updateProject_absent_id
    (clk : Clock) (id : string) (updates : obj) (ls : localStorage) :
  (Forall (fun p => prop_is p "id" id = false) (getProjects ls) ->
   updateProject clk id updates ls = (ls, None))
  /\ length (getProjects (fst (updateProject clk id updates ls)))
     = length (getProjects ls).
Proof.
  split.
  - intros Habsent. apply findIndex_None in Habsent.
    unfold updateProject. rewrite Habsent. reflexivity.
  - unfold updateProject.
    destruct (findIndex _ (getProjects ls)) as [index|]; [|reflexivity].
    destruct (getProjects ls !! index); [|reflexivity].
    cbn [fst]. rewrite getProjects_setProjects.
    destruct (fits _ _ _); [apply length_insert|reflexivity].
Qed.

Lemma updateProject_absent_id_witness :
  Forall (fun p => prop_is p "id" "7" = false)
    (getProjects (Sample.storageOf [Sample.vite] []))
  /\ updateProject Sample.clock "7" Sample.restar (Sample.storageOf [Sample.vite] [])
     = (Sample.storageOf [Sample.vite] [], None).
Proof.
  assert (Habsent : Forall (fun p => prop_is p "id" "7" = false)
                      (getProjects (Sample.storageOf [Sample.vite] []))).
  { repeat constructor. }
  split; [exact Habsent|].
  exact (proj1 (updateProject_absent_id Sample.clock "7" Sample.restar
                  (Sample.storageOf [Sample.vite] [])) Habsent).
Defined.

Lemma addProject_getProjects clk project ls :
  getProjects (fst (addProject clk project ls))
  = if fits PROJECTS (getProjects ls ++ [snd (addProject clk project ls)]) ls
    then getProjects ls ++ [snd (addProject clk project ls)]
    else getProjects ls.
Proof. unfold addProject. cbn [fst snd]. apply getProjects_setProjects. Qed.

Lemma addProject_assigns_timestamp clk project ls :
  project !! "id" = None ->
  snd (addProject clk project ls) !! "id" = Some (JStr (timestamp clk)).
Proof.
  intros Hid. unfold addProject, stamp. cbn [snd].
  rewrite !lookup_insert_ne by discriminate. rewrite lookup_insert_eq.
  unfold prop_or. rewrite Hid. reflexivity.
Qed.

Lemma prop_is_of_id (p : obj) (id : string) :
  p !! "id" = Some (JStr id) -> prop_is p "id" id = true.
Proof. intros H. unfold prop_is. rewrite H. apply String.eqb_refl. Qed.

(** X6: a project that was added is removed again by [deleteProject] on
    the id it was stored with, and the list of projects is back to what it
    was, provided that id is a string and no stored project had it. *)
Theorem addProject_then_deleteProject
    (clk : Clock) (project : obj) (ls : localStorage) (id : string) :
  snd (addProject clk project ls) !! "id" = Some (JStr id) ->
  Forall (fun p => prop_is p "id" id = false) (getProjects ls) ->
  getProjects (deleteProject id (fst (addProject clk project ls))) = getProjects ls.
Proof.
  intros Hid Hfresh.
  assert (Hkept : List.filter (fun p => negb (prop_is p "id" id)) (getProjects ls)
                  = getProjects ls).
  { apply filter_all_true. eapply Forall_impl; [exact Hfresh|].
    intros p Hp. cbn beta in Hp. rewrite Hp. reflexivity. }
  rewrite getProjects_deleteProject, addProject_getProjects.
  destruct (fits _ _ _); [|exact Hkept].
  rewrite List.filter_app. cbn [List.filter].
  rewrite (prop_is_of_id _ _ Hid). cbn [negb].
  rewrite app_nil_r. exact Hkept.
Qed.

Lemma addProject_then_deleteProject_witness :
  (snd (addProject Sample.clock Sample.react (Sample.storageOf [Sample.vite] []))
     !! "id" = Some (JStr "1700000000000")
   /\ Forall (fun p => prop_is p "id" "1700000000000" = false)
        (getProjects (Sample.storageOf [Sample.vite] [])))
  /\ getProjects
       (deleteProject "1700000000000"
          (fst (addProject Sample.clock Sample.react (Sample.storageOf [Sample.vite] []))))
     = getProjects (Sample.storageOf [Sample.vite] []).
Proof.
  assert (Hid : snd (addProject Sample.clock Sample.react
                       (Sample.storageOf [Sample.vite] []))
                  !! "id" = Some (JStr "1700000000000")) by reflexivity.
  assert (Hfresh : Forall (fun p => prop_is p "id" "1700000000000" = false)
                     (getProjects (Sample.storageOf [Sample.vite] []))).
  { repeat constructor. }
  split; [split; assumption|].
  exact (addProject_then_deleteProject Sample.clock Sample.react
           (Sample.storageOf [Sample.vite] []) "1700000000000" Hid Hfresh).
Defined.

(** X7: a stored project whose [id] is not a string (a number, say) is out
    of reach of [deleteProject] and [updateProject], which compare with
    [===] against the string they are given: it stays in the list whatever
    id is passed. *)
Theorem non_string_id_out_of_reach
    (clk : Clock) (id : string) (updates : obj) (ls : localStorage) (p : obj) :
  In p (getProjects ls) ->
  (forall s, p !! "id" <> Some (JStr s)) ->
  In p (getProjects (deleteProject id ls))
  /\ In p (getProjects (fst (updateProject clk id updates ls))).
Proof.
  intros Hin Hid.
  assert (Hmiss : prop_is p "id" id = false).
  { unfold prop_is. destruct (p !! "id") as [[| | |s| |]|] eqn:Hp; try reflexivity.
    destruct (Hid s eq_refl). }
  split.
  - rewrite getProjects_deleteProject.
    apply filter_In. rewrite Hmiss. auto.
  - unfold updateProject.
    destruct (findIndex _ (getProjects ls)) as [index|] eqn:Hfind; [|exact Hin].
    destruct (findIndex_Some _ _ _ Hfind) as (old & Hold & Hhit & _).
    rewrite Hold. cbn [fst]. rewrite getProjects_setProjects.
    destruct (fits _ _ _); [|exact Hin].
    apply list_elem_of_In, list_elem_of_lookup in Hin as [j Hj].
    apply list_elem_of_In, list_elem_of_lookup. exists j.
    rewrite list_lookup_insert_ne; [exact Hj|].
    intros ->. rewrite Hold in Hj. injection Hj as ->. congruence.
Qed.

Lemma non_string_id_out_of_reach_witness :
  (In Sample.numbered (getProjects (Sample.storageOf [Sample.numbered] []))
   /\ forall s, Sample.numbered !! "id" <> Some (JStr s))
  /\ In Sample.numbered
       (getProjects (deleteProject "5" (Sample.storageOf [Sample.numbered] []))).
Proof.
  assert (Hin : In Sample.numbered
                  (getProjects (Sample.storageOf [Sample.numbered] [])))
    by (left; reflexivity).
  assert (Hid : forall s, Sample.numbered !! "id" <> Some (JStr s))
    by (intros s; vm_compute; discriminate).
  split; [split; assumption|].
  exact (proj1 (non_string_id_out_of_reach Sample.clock "5" Sample.restar
                  (Sample.storageOf [Sample.numbered] []) Sample.numbered Hin Hid)).
Defined.

(** X8: two projects without an id that are added at the same reading of
    the clock get the same id, the time stamp, in what [addProject]
    returns and in what it stores: the list of projects grows by the
    first entry when the browser takes the first write and by the second
    when it takes the second.  [deleteProject] on that id then removes
    whatever was stored of the two, leaving what it leaves of the list
    before they were added. *)
Theorem addProject_same_clock_same_id
    (clk : Clock) (first second : obj) (ls : localStorage) :
  first !! "id" = None -> second !! "id" = None ->
  let ls1 := fst (addProject clk first ls) in
  let e1 := snd (addProject clk first ls) in
  let ls' := fst (addProject clk second ls1) in
  let e2 := snd (addProject clk second ls1) in
  e1 !! "id" = Some (JStr (timestamp clk))
  /\ e2 !! "id" = Some (JStr (timestamp clk))
  /\ getProjects ls'
     = getProjects ls
       ++ (if fits PROJECTS (getProjects ls ++ [e1]) ls then [e1] else [])
       ++ (if fits PROJECTS (getProjects ls1 ++ [e2]) ls1 then [e2] else [])
  /\ getProjects (deleteProject (timestamp clk) ls')
     = getProjects (deleteProject (timestamp clk) ls).
Proof.
  intros Hfirst Hsecond. cbn zeta.
  pose proof (addProject_assigns_timestamp clk first ls Hfirst) as H1.
  pose proof (addProject_assigns_timestamp clk second
                (fst (addProject clk first ls)) Hsecond) as H2.
  split; [exact H1|]. split; [exact H2|].
  assert (Hlist : getProjects (fst (addProject clk second (fst (addProject clk first ls))))
                  = getProjects ls
                    ++ (if fits PROJECTS
                             (getProjects ls ++ [snd (addProject clk first ls)]) ls
                        then [snd (addProject clk first ls)] else [])
                    ++ (if fits PROJECTS
                             (getProjects (fst (addProject clk first ls))
                              ++ [snd (addProject clk second
                                         (fst (addProject clk first ls)))])
                             (fst (addProject clk first ls))
                        then [snd (addProject clk second (fst (addProject clk first ls)))]
                        else [])).
  { rewrite (addProject_getProjects clk second).
    destruct (fits PROJECTS _ (fst (addProject clk first ls)));
      rewrite (addProject_getProjects clk first);
      destruct (fits PROJECTS _ ls); rewrite ?app_nil_r, <- ?app_assoc; reflexivity. }
  split; [exact Hlist|].
  rewrite !getProjects_deleteProject, Hlist, !List.filter_app.
  destruct (fits PROJECTS _ ls), (fits PROJECTS _ (fst (addProject clk first ls)));
    cbn [List.filter]; rewrite ?(prop_is_of_id _ _ H1), ?(prop_is_of_id _ _ H2);
    cbn [negb]; rewrite ?app_nil_r; reflexivity.
Qed.

Lemma addProject_same_clock_same_id_witness :
  (Sample.react !! "id" = None /\ Sample.restar !! "id" = None)
  /\ snd (addProject Sample.clock Sample.react (Sample.storageOf [] [])) !! "id"
     = Some (JStr (timestamp Sample.clock))
  /\ snd (addProject Sample.clock Sample.restar
            (fst (addProject Sample.clock Sample.react (Sample.storageOf [] [])))) !! "id"
     = Some (JStr (timestamp Sample.clock)).
Proof.
  split; [split; reflexivity|].
  destruct (addProject_same_clock_same_id Sample.clock Sample.react Sample.restar
              (Sample.storageOf [] []) eq_refl eq_refl) as (H1 & H2 & _).
  split; [exact H1|exact H2].
Defined.

Lemma isFavorite_In projectId ls :
  isFavorite projectId ls = true <-> In projectId (getFavorites ls).
Proof.
  unfold isFavorite, includes_elem. rewrite existsb_exists. split.
  - intros (x & Hx & Heq). apply String.eqb_eq in Heq. congruence.
  - intros Hin. exists projectId. split; [exact Hin|apply String.eqb_refl].
Qed.

Lemma bool_eq_iff (a b : bool) : (a = true <-> b = true) -> a = b.
Proof. destruct a, b; intuition congruence. Qed.

Lemma delete_only_occurrence (projectId : string) (favorites : list string) index :
  favorites !! index = Some projectId ->
  count_occ string_dec favorites projectId <= 1 ->
  ~ In projectId (delete index favorites).
Proof.
  intros Hat Hcount. rewrite <- (take_drop_middle _ _ _ Hat) in Hcount.
  rewrite count_occ_app in Hcount. cbn [count_occ] in Hcount.
  destruct (string_dec projectId projectId) as [_|Hne]; [|contradiction].
  rewrite delete_take_drop, in_app_iff.
  intros [Hin|Hin]; apply (count_occ_In string_dec) in Hin; lia.
Qed.

(** X9: [toggleFavorite(projectId)] changes the favorite state of no
    other id, and the boolean it returns says whether the id was absent
    before the call.  That is the favorite state after the call when the
    id was absent and the browser takes the write, and when the id
    occurred once (a removal is never refused); when the browser does not
    take the write of an added id the storage is as it was, and the id is
    no favorite although [true] is returned. *)
Theorem toggleFavorite_frame (projectId other : string) (ls : localStorage) :
  (other <> projectId ->
   isFavorite other (fst (toggleFavorite projectId ls)) = isFavorite other ls)
  /\ snd (toggleFavorite projectId ls) = negb (isFavorite projectId ls)
  /\ (In projectId (getFavorites ls) ->
      count_occ string_dec (getFavorites ls) projectId <= 1 ->
      isFavorite projectId (fst (toggleFavorite projectId ls)) = false)
  /\ (~ In projectId (getFavorites ls) ->
      if fits FAVORITES (getFavorites ls ++ [projectId]) ls
      then isFavorite projectId (fst (toggleFavorite projectId ls)) = true
      else fst (toggleFavorite projectId ls) = ls).
Proof.
  destruct (indexOf projectId (getFavorites ls)) as [index|] eqn:Hidx.
  - pose proof (toggleFavorite_removes _ _ _ Hidx) as Hafter.
    assert (Hat := indexOf_Some _ _ _ Hidx).
    pose proof (take_drop_middle _ _ _ Hat) as Hsplit.
    assert (Hin : In projectId (getFavorites ls)).
    { apply list_elem_of_In, list_elem_of_lookup. eauto. }
    split; [|split; [|split]].
    + intros Hother. apply bool_eq_iff. rewrite !isFavorite_In, Hafter.
      rewrite delete_take_drop. rewrite <- Hsplit at 3.
      rewrite !in_app_iff. cbn [In]. intuition congruence.
    + rewrite (toggleFavorite_present _ _ _ Hidx). cbn [snd].
      apply isFavorite_In in Hin. rewrite Hin. reflexivity.
    + intros _ Hcount. apply not_true_is_false. rewrite isFavorite_In, Hafter.
      apply delete_only_occurrence; assumption.
    + intros Hnotin. contradiction.
  - apply indexOf_None in Hidx as Hnotin.
    rewrite (toggleFavorite_absent _ _ Hnotin). cbn [fst snd].
    split; [|split; [|split]].
    + intros Hother. apply bool_eq_iff. rewrite !isFavorite_In, getFavorites_set.
      destruct (fits _ _ _); [|reflexivity].
      rewrite in_app_iff. cbn [In]. intuition congruence.
    + destruct (isFavorite projectId ls) eqn:Hfav; [|reflexivity].
      apply isFavorite_In in Hfav. contradiction.
    + intros Hin. contradiction.
    + intros _. destruct (fits FAVORITES _ ls) eqn:Hfits.
      * apply isFavorite_In. rewrite getFavorites_set, Hfits.
        apply in_app_iff. right. left. reflexivity.
      * rewrite (set_refused _ _ _ Hfits). reflexivity.
Qed.

Lemma toggleFavorite_frame_witness :
  ("2" <> "1"
   /\ In "1" (getFavorites (Sample.storageOf [] ["1"; "2"; "2"]))
   /\ count_occ string_dec (getFavorites (Sample.storageOf [] ["1"; "2"; "2"])) "1" <= 1)
  /\ isFavorite "2" (fst (toggleFavorite "1" (Sample.storageOf [] ["1"; "2"; "2"])))
     = isFavorite "2" (Sample.storageOf [] ["1"; "2"; "2"])
  /\ isFavorite "1" (fst (toggleFavorite "1" (Sample.storageOf [] ["1"; "2"; "2"])))
     = false.
Proof.
  assert (Hne : "2" <> "1") by discriminate.
  assert (Hin : In "1" (getFavorites (Sample.storageOf [] ["1"; "2"; "2"])))
    by (left; reflexivity).
  assert (Hcount : count_occ string_dec
                     (getFavorites (Sample.storageOf [] ["1"; "2"; "2"])) "1" <= 1)
    by (vm_compute; lia).
  split; [repeat split; assumption|].
  destruct (toggleFavorite_frame "1" "2" (Sample.storageOf [] ["1"; "2"; "2"]))
    as (Hframe & _ & Honce & _).
  split; [exact (Hframe Hne)|exact (Honce Hin Hcount)].
Defined.

(** An added id in a browser that takes no more characters: [true] is
    returned and the id is no favorite. *)
Example toggleFavorite_refused :
  let ls := Sample.full (Sample.storageOf [] ["2"]) in
  snd (toggleFavorite "1" ls) = true
  /\ isFavorite "1" (fst (toggleFavorite "1" ls)) = false.
Proof. vm_compute. split; reflexivity. Qed.

End LocalCacheLaws.

(** ** The local cache: the generation marker *)

Section Generation.
Import Storage.

Lemma initStorage_current defaultData vs :
  getVersion vs = Some CURRENT_VERSION -> initStorage defaultData vs = vs.
Proof. intros H. unfold initStorage. rewrite H. reflexivity. Qed.

Lemma initStorage_stale defaultData vs :
  getVersion vs <> Some CURRENT_VERSION ->
  initStorage defaultData vs
  = fst (setVersion CURRENT_VERSION
           {| collections := seed defaultData (collections vs);
              version_item := version_item vs |}).
Proof.
  intros Hstale. unfold initStorage.
  rewrite (bool_decide_eq_false_2 _ Hstale), orb_true_r. reflexivity.
Qed.

(** The marker write touches no collection. *)
Lemma getItem_setVersion k version vs :
  getItem k (collections (fst (setVersion version vs))) = getItem k (collections vs).
Proof.
  unfold setVersion. destruct (Nat.leb _ _); [|reflexivity].
  destruct k; reflexivity.
Qed.

Lemma getVersion_setVersion version vs :
  getVersion (fst (setVersion version vs))
  = if Nat.leb (stringify_length (JStr version)) (heldVersion vs + room (collections vs))
    then Some version else getVersion vs.
Proof. unfold setVersion. destruct (Nat.leb _ _); reflexivity. Qed.

(** X10: [initStorage] leaves a storage that carries the current version
    as it is, so after a call that got the marker stored a later call
    changes nothing, whatever default data it is given.  On a storage
    without the current version the marker is stored exactly when its
    text fits in the room that the default data left; when it does not
    fit the marker is as it was, and the next call seeds again. *)
Theorem initStorage_seeds_once (first later : option Defaults) (vs : versioned) :
  (getVersion vs = Some CURRENT_VERSION -> initStorage first vs = vs)
  /\ (getVersion (initStorage first vs) = Some CURRENT_VERSION ->
      initStorage later (initStorage first vs) = initStorage first vs)
  /\ (getVersion vs <> Some CURRENT_VERSION ->
      getVersion (initStorage first vs)
      = if Nat.leb (stringify_length (JStr CURRENT_VERSION))
             (heldVersion vs + room (seed first (collections vs)))
        then Some CURRENT_VERSION
        else getVersion vs).
Proof.
  split; [apply initStorage_current|]. split; [apply initStorage_current|].
  intros Hstale. rewrite (initStorage_stale _ _ Hstale), getVersion_setVersion.
  reflexivity.
Qed.

Lemma initStorage_seeds_once_witness :
  getVersion (Sample.seeded [Sample.vite]) = Some CURRENT_VERSION
  /\ initStorage (Some Sample.defaults) (Sample.seeded [Sample.vite])
     = Sample.seeded [Sample.vite].
Proof.
  split; [reflexivity|].
  exact (proj1 (initStorage_seeds_once (Some Sample.defaults) None
                  (Sample.seeded [Sample.vite])) eq_refl).
Defined.

Lemma get_seed defaultData k ls :
  (k = FAVORITES \/ k = SETTINGS) ->
  getItem k (seed (Some defaultData) ls) = getItem k ls.
Proof.
  intros Hk. unfold seed, when_present, setTags, setCategories, setProjects.
  destruct (default_tags defaultData), (default_categories defaultData),
    (default_projects defaultData);
    rewrite ?getItem_set_other by (destruct Hk; congruence); reflexivity.
Qed.

(** X11: on a storage without the current version (first run, another
    version, an unreadable marker) [initStorage] writes the default
    projects, categories and tags that are supplied over whatever was
    stored, and keeps favorites and settings.  Each of the three
    accessors returns afterwards what it returned before or the default
    data; when the browser has room for the three texts and the marker,
    every supplied default is the one stored and the marker is the
    current version. *)
Theorem initStorage_overwrites_stale (defaultData : Defaults) (vs : versioned) :
  getVersion vs <> Some CURRENT_VERSION ->
  let vs' := initStorage (Some defaultData) vs in
  (getProjects (collections vs') = getProjects (collections vs)
   \/ Some (getProjects (collections vs')) = default_projects defaultData)
  /\ (getCategories (collections vs') = getCategories (collections vs)
      \/ Some (getCategories (collections vs')) = default_categories defaultData)
  /\ (getTags (collections vs') = getTags (collections vs)
      \/ Some (getTags (collections vs')) = default_tags defaultData)
  /\ favorites_item (collections vs') = favorites_item (collections vs)
  /\ settings_item (collections vs') = settings_item (collections vs)
  /\ (from_option (textLength PROJECTS) 0 (default_projects defaultData)
      + from_option (textLength CATEGORIES) 0 (default_categories defaultData)
      + from_option (textLength TAGS) 0 (default_tags defaultData)
      + stringify_length (JStr CURRENT_VERSION) <= room (collections vs) ->
      getVersion vs' = Some CURRENT_VERSION
      /\ getProjects (collections vs')
         = default (getProjects (collections vs)) (default_projects defaultData)
      /\ getCategories (collections vs')
         = default (getCategories (collections vs)) (default_categories defaultData)
      /\ getTags (collections vs')
         = default (getTags (collections vs)) (default_tags defaultData)).
Proof.
  intros Hstale. cbn zeta. rewrite (initStorage_stale _ _ Hstale).
  assert (Hget : forall k d,
            get k d (collections
                       (fst (setVersion CURRENT_VERSION
                               {| collections := seed (Some defaultData) (collections vs);
                                  version_item := version_item vs |})))
            = get k d (seed (Some defaultData) (collections vs))).
  { intros k d. unfold get. rewrite getItem_setVersion. reflexivity. }
  unfold getProjects, getCategories, getTags. rewrite !Hget.
  set (ls := collections vs).
  unfold seed.
  set (ls1 := when_present (default_projects defaultData) setProjects ls).
  set (ls2 := when_present (default_categories defaultData) setCategories ls1).
  assert (Hframe : forall k d,
            (k <> TAGS ->
             get k d (when_present (default_tags defaultData) setTags ls2) = get k d ls2)
            /\ (k <> CATEGORIES -> get k d ls2 = get k d ls1)
            /\ (k <> PROJECTS -> get k d ls1 = get k d ls)).
  { intros k d. repeat split; intros Hk.
    - apply (when_present_other TAGS). congruence.
    - apply (when_present_other CATEGORIES). congruence.
    - apply (when_present_other PROJECTS). congruence. }
  split.
  { destruct (Hframe PROJECTS []) as (-> & -> & _); try discriminate.
    unfold ls1, when_present, setProjects. destruct (default_projects defaultData); [|auto].
    rewrite get_set. destruct (fits _ _ _); auto. }
  split.
  { destruct (Hframe CATEGORIES []) as (-> & _ & H1); try discriminate.
    rewrite <- H1 by discriminate.
    unfold ls2, when_present, setCategories.
    destruct (default_categories defaultData); [|auto].
    rewrite get_set. destruct (fits _ _ _); auto. }
  split.
  { destruct (Hframe TAGS []) as (_ & H2 & H1).
    rewrite <- H1, <- H2 by discriminate.
    unfold when_present, setTags. destruct (default_tags defaultData); [|auto].
    rewrite get_set. destruct (fits _ _ _); auto. }
  split.
  { change (getItem FAVORITES
              (collections
                 (fst (setVersion CURRENT_VERSION
                         {| collections := seed (Some defaultData) ls;
                            version_item := version_item vs |})))
            = getItem FAVORITES ls).
    rewrite getItem_setVersion. cbn [collections]. apply get_seed. auto. }
  split.
  { change (getItem SETTINGS
              (collections
                 (fst (setVersion CURRENT_VERSION
                         {| collections := seed (Some defaultData) ls;
                            version_item := version_item vs |})))
            = getItem SETTINGS ls).
    rewrite getItem_setVersion. cbn [collections]. apply get_seed. auto. }
  intros Hroom.
  assert (H1 : get PROJECTS [] ls1 = default (get PROJECTS [] ls) (default_projects defaultData)
               /\ from_option (textLength CATEGORIES) 0 (default_categories defaultData)
                  + from_option (textLength TAGS) 0 (default_tags defaultData)
                  + stringify_length (JStr CURRENT_VERSION) <= room ls1).
  { apply when_present_fits. cbn [value] in *. fold ls in Hroom. lia. }
  destruct H1 as [Hp Hroom1].
  assert (H2 : get CATEGORIES [] ls2
               = default (get CATEGORIES [] ls1) (default_categories defaultData)
               /\ from_option (textLength TAGS) 0 (default_tags defaultData)
                  + stringify_length (JStr CURRENT_VERSION) <= room ls2).
  { apply when_present_fits. cbn [value] in *. lia. }
  destruct H2 as [Hc Hroom2].
  assert (H3 : get TAGS [] (when_present (default_tags defaultData) setTags ls2)
               = default (get TAGS [] ls2) (default_tags defaultData)
               /\ stringify_length (JStr CURRENT_VERSION)
                  <= room (when_present (default_tags defaultData) setTags ls2)).
  { apply when_present_fits. cbn [value] in *. lia. }
  destruct H3 as [Ht Hroom3].
  split.
  { rewrite getVersion_setVersion. cbn [collections].
    fold ls. unfold seed. fold ls1. fold ls2.
    destruct (Nat.leb_spec (stringify_length (JStr CURRENT_VERSION))
                (heldVersion {| collections :=
                                  when_present (default_tags defaultData) setTags ls2;
                                version_item := version_item vs |}
                 + room (when_present (default_tags defaultData) setTags ls2)));
      [reflexivity|lia]. }
  split.
  { destruct (Hframe PROJECTS []) as (-> & -> & _); try discriminate. exact Hp. }
  split.
  { destruct (Hframe CATEGORIES []) as (-> & _ & H1); try discriminate.
    rewrite Hc, H1 by discriminate. reflexivity. }
  destruct (Hframe TAGS []) as (_ & H2 & H1).
  rewrite Ht, H2, H1 by discriminate. reflexivity.
Qed.

Lemma initStorage_overwrites_stale_witness :
  (getVersion (Sample.unversioned [Sample.vite]) <> Some CURRENT_VERSION
   /\ from_option (textLength PROJECTS) 0 (default_projects Sample.defaults)
      + from_option (textLength CATEGORIES) 0 (default_categories Sample.defaults)
      + from_option (textLength TAGS) 0 (default_tags Sample.defaults)
      + stringify_length (JStr CURRENT_VERSION)
      <= room (collections (Sample.unversioned [Sample.vite])))
  /\ getVersion (initStorage (Some Sample.defaults) (Sample.unversioned [Sample.vite]))
     = Some CURRENT_VERSION
  /\ getProjects (collections (initStorage (Some Sample.defaults)
                                 (Sample.unversioned [Sample.vite])))
     = default (getProjects (collections (Sample.unversioned [Sample.vite])))
         (default_projects Sample.defaults).
Proof.
  assert (Hstale : getVersion (Sample.unversioned [Sample.vite])
                   <> Some CURRENT_VERSION) by discriminate.
  assert (Hroom : from_option (textLength PROJECTS) 0 (default_projects Sample.defaults)
                  + from_option (textLength CATEGORIES) 0
                      (default_categories Sample.defaults)
                  + from_option (textLength TAGS) 0 (default_tags Sample.defaults)
                  + stringify_length (JStr CURRENT_VERSION)
                  <= room (collections (Sample.unversioned [Sample.vite]))).
  { apply Nat.leb_le. vm_compute. reflexivity. }
  split; [split; assumption|].
  destruct (proj2 (proj2 (proj2 (proj2 (proj2
              (initStorage_overwrites_stale Sample.defaults
                 (Sample.unversioned [Sample.vite]) Hstale))))) Hroom)
    as (Hversion & Hprojects & _).
  split; [exact Hversion|exact Hprojects].
Defined.

(** In a browser with room for the default data and no more, the marker
    is not stored, and a second call seeds again: it overwrites the
    projects with its own default data. *)
Example initStorage_seeds_again :
  let vs := {| collections := with_room 37 (collections (Sample.unversioned []));
               version_item := Missing |} in
  let once := initStorage (Some Sample.defaults) vs in
  let again :=
    initStorage
      (Some {| default_projects := Some []; default_categories := None;
               default_tags := None |}) once in
  getVersion once = None
  /\ getProjects (collections once) = [Sample.react]
  /\ getProjects (collections again) = []
  /\ getVersion again = Some CURRENT_VERSION.
Proof. vm_compute. repeat split. Qed.

End Generation.

(** ** The sync client: reads, updates, categories, the bulk push *)

Section SyncClientLaws.
Import Storage Sync.

(** X13: [fetchProjectsFromApi] and [fetchCategoriesFromApi] return the
    list of the remote side when it sends one (an empty list included),
    whether or not the browser takes it for the local mirror: the mirror
    holds that list when the write is taken and is as it was when it is
    not.  When the request fails or the answer carries no list they
    return the mirror, which they leave alone. *)
Theorem fetch_returns_mirror (remote : request -> listing) (w : World) :
  (let '(w', projects) := fetchProjectsFromApi remote w in
   match remote (getRequest "/projects") with
   | ListResolves (Some remoteProjects) =>
       projects = remoteProjects
       /\ if fits PROJECTS remoteProjects (storage w)
          then getProjects (storage w') = remoteProjects
          else storage w' = storage w
   | _ => projects = getProjects (storage w) /\ storage w' = storage w
   end)
  /\ (let '(w', categories) := fetchCategoriesFromApi remote w in
      match remote (getRequest "/categories") with
      | ListResolves (Some remoteCategories) =>
          categories = remoteCategories
          /\ if fits CATEGORIES remoteCategories (storage w)
             then getCategories (storage w') = remoteCategories
             else storage w' = storage w
      | _ => categories = getCategories (storage w) /\ storage w' = storage w
      end).
Proof.
  unfold fetchProjectsFromApi, fetchCategoriesFromApi, send. cbn zeta.
  split.
  - destruct (remote (getRequest "/projects")) as [|[projects|]];
      cbn [storage on_storage]; (split; [reflexivity|]); try reflexivity.
    unfold setProjects. destruct (fits PROJECTS projects (storage w)) eqn:Hfits.
    + rewrite (set_fits _ _ _ Hfits). cbn [fst]. unfold getProjects, get.
      rewrite getItem_written_same. reflexivity.
    + rewrite (set_refused _ _ _ Hfits). reflexivity.
  - destruct (remote (getRequest "/categories")) as [|[categories|]];
      cbn [storage on_storage]; (split; [reflexivity|]); try reflexivity.
    unfold setCategories. destruct (fits CATEGORIES categories (storage w)) eqn:Hfits.
    + rewrite (set_fits _ _ _ Hfits). cbn [fst]. unfold getCategories, get.
      rewrite getItem_written_same. reflexivity.
    + rewrite (set_refused _ _ _ Hfits). reflexivity.
Qed.

(** A remote list that the browser does not take: it is returned, and the
    mirror keeps the old one. *)
Example fetchProjectsFromApi_refused :
  let w := {| storage := Sample.full (Sample.storageOf [] []); sent := [] |} in
  let '(w', projects) := fetchProjectsFromApi (Sample.catalogue [Sample.vite]) w in
  projects = [Sample.vite] /\ getProjects (storage w') = [].
Proof. vm_compute. split; reflexivity. Qed.

Lemma updateProject_updated_locally clk id updates ls :
  (exists p, In p (getProjects ls) /\ prop_is p "id" id = true) ->
  updated_locally clk id updates ls (fst (updateProject clk id updates ls)).
Proof.
  intros Hstored. destruct (findIndex_is_Some _ _ Hstored) as [index Hfind].
  destruct (updateProject_found clk id updates ls index Hfind) as (old & Hold & ->).
  exists index, old. split; [exact Hfind|]. split; [exact Hold|].
  cbn zeta. cbn [fst]. unfold setProjects.
  destruct (fits PROJECTS _ ls) eqn:Hfits.
  - rewrite (set_fits _ _ _ Hfits). cbn [fst]. unfold getProjects at 1. unfold get.
    rewrite getItem_written_same. reflexivity.
  - rewrite (set_refused _ _ _ Hfits). reflexivity.
Qed.

(** X14: [updateProjectToApi] sends one PUT whose body is the update with
    the id (the [id] of the update, when it has one, wins).  After a
    successful answer and after a failed request the first stored project
    with the id is replaced by its merge with the update, dated today,
    when the browser takes the write, and the mirror is as it was when it
    does not; after an unsuccessful answer the mirror is as it was.  The
    caller gets the result of the remote side, and
    [{ success: true, local: true }] after a failed request. *)
Theorem updateProjectToApi_local_effect
    (remote : request -> reply) (clk : Clock) (id : string) (updates : obj) (w : World) :
  (exists p, In p (getProjects (storage w)) /\ prop_is p "id" id = true) ->
  let request :=
    {| endpoint := "/projects"; method := "PUT";
       body := Some (updates ∪ {["id" := JStr id]}) |} in
  let w' := fst (updateProjectToApi remote clk id updates w) in
  let answer := snd (updateProjectToApi remote clk id updates w) in
  sent w' = sent w ++ [request]
  /\ match remote request with
     | Resolves r =>
         answer = r
         /\ if success r
            then updated_locally clk id updates (storage w) (storage w')
            else storage w' = storage w
     | Rejects =>
         answer = localOnly
         /\ updated_locally clk id updates (storage w) (storage w')
     end.
Proof.
  intros Hstored. cbn zeta.
  pose proof (updateProject_updated_locally clk id updates (storage w) Hstored) as Hlocal.
  unfold updateProjectToApi, apiRequest.
  destruct (remote _) as [|r]; [|destruct (success r)];
    cbn [fst snd sent storage on_storage];
    (split; [reflexivity|]); (split; [reflexivity|]);
    try reflexivity; exact Hlocal.
Qed.

Lemma updateProjectToApi_local_effect_witness :
  (exists p, In p (getProjects (storage (Sample.world [Sample.vite])))
             /\ prop_is p "id" "1" = true)
  /\ sent (fst (updateProjectToApi Sample.offline Sample.clock "1" Sample.restar
                  (Sample.world [Sample.vite])))
     = sent (Sample.world [Sample.vite])
       ++ [{| endpoint := "/projects"; method := "PUT";
              body := Some (Sample.restar ∪ {["id" := JStr "1"]}) |}]
  /\ updated_locally Sample.clock "1" Sample.restar
       (storage (Sample.world [Sample.vite]))
       (storage (fst (updateProjectToApi Sample.offline Sample.clock "1" Sample.restar
                        (Sample.world [Sample.vite])))).
Proof.
  assert (Hstored : exists p, In p (getProjects (storage (Sample.world [Sample.vite])))
                              /\ prop_is p "id" "1" = true).
  { exists Sample.vite. split; [left; reflexivity|reflexivity]. }
  split; [exact Hstored|].
  destruct (updateProjectToApi_local_effect Sample.offline Sample.clock "1"
              Sample.restar (Sample.world [Sample.vite]) Hstored) as [Hsent [_ Hlocal]].
  split; [exact Hsent|exact Hlocal].
Defined.

(** X15: [syncDataToD1] never writes to the local storage; it sends one
    POST to [/sync] whose body holds the projects and the categories of
    the mirror, and a failed request gives a result without success. *)
Theorem syncDataToD1_pushes_mirror
    (remote : request -> reply) (isoNow : string) (w : World) :
  let '(w', result) := syncDataToD1 remote isoNow w in
  storage w' = storage w
  /\ (exists body,
        sent w' = sent w ++ [{| endpoint := "/sync"; method := "POST"; body := Some body |}]
        /\ body !! "projects" = Some (JArr (JObj <$> getProjects (storage w)))
        /\ body !! "categories" = Some (JArr (JObj <$> getCategories (storage w))))
  /\ (remote {| endpoint := "/sync"; method := "POST";
               body := Some (syncBody (exportAllData isoNow (storage w))) |} = Rejects ->
      success result = false).
Proof.
  unfold syncDataToD1, apiRequest.
  destruct (remote _) as [|r] eqn:Hremote; cbn [storage sent];
    (split; [reflexivity|]); (split; [eexists; repeat split|]);
    [reflexivity|discriminate].
Qed.

Lemma spliceCategory_found id ls index :
  findIndex (fun c => prop_is c "id" id) (getCategories ls) = Some index ->
  getCategories (spliceCategory id ls) = delete index (getCategories ls).
Proof.
  intros Hfind. unfold spliceCategory. rewrite Hfind.
  apply getCategories_sublist, sublist_delete.
Qed.

(** X16: where [deleteProject] removes every project with the id,
    [deleteCategoryFromApi] removes one category, the first with the id,
    after a successful answer or a failed request, and none after an
    unsuccessful answer; a second category with the same id stays. *)
Theorem deleteCategoryFromApi_removes_first
    (remote : request -> categoryReply) (id : string) (w : World) (index : nat) :
  findIndex (fun c => prop_is c "id" id) (getCategories (storage w)) = Some index ->
  let request :=
    {| endpoint := String.append "/categories?id=" id; method := "DELETE";
       body := None |} in
  let w' := fst (deleteCategoryFromApi remote id w) in
  match remote request with
  | CategoryResolves r =>
      if category_success r
      then getCategories (storage w') = delete index (getCategories (storage w))
      else storage w' = storage w
  | CategoryRejects =>
      getCategories (storage w') = delete index (getCategories (storage w))
  end
  /\ S (length (delete index (getCategories (storage w))))
     = length (getCategories (storage w))
  /\ (forall c, In c (drop (S index) (getCategories (storage w))) ->
                In c (delete index (getCategories (storage w)))).
Proof.
  intros Hfind. cbn zeta.
  destruct (findIndex_Some _ _ _ Hfind) as (c & Hc & _ & _).
  split; [|split].
  - unfold deleteCategoryFromApi, send.
    destruct (remote _) as [|r]; [|destruct (category_success r)];
      cbn [fst storage on_storage]; try reflexivity;
      apply spliceCategory_found, Hfind.
  - rewrite length_delete by eauto.
    apply lookup_lt_Some in Hc. lia.
  - intros c' Hc'. rewrite delete_take_drop. apply in_app_iff. right. exact Hc'.
Qed.

Lemma deleteCategoryFromApi_removes_first_witness :
  findIndex (fun c => prop_is c "id" "tool")
    (getCategories (storage (Sample.categoryWorld [Sample.tool; Sample.tool])))
  = Some 0%nat
  /\ getCategories
       (storage (fst (deleteCategoryFromApi Sample.unreachable "tool"
                        (Sample.categoryWorld [Sample.tool; Sample.tool]))))
     = [Sample.tool].
Proof.
  split; [reflexivity|].
  exact (proj1 (deleteCategoryFromApi_removes_first Sample.unreachable "tool"
                  (Sample.categoryWorld [Sample.tool; Sample.tool]) 0%nat eq_refl)).
Defined.

End SyncClientLaws.


(** ** Sorting *)

Section SortLaws.
Context {A : Type} (compare : A -> A -> Z).
Implicit Types (x : A) (l : list A).

Let first_goes (x y : A) : Prop := (compare x y <= 0)%Z.

Lemma insert_sorted_Permutation x l :
  Permutation (insert_sorted compare x l) (x :: l).
Proof.
  induction l as [|y rest IH]; simpl; [reflexivity|].
  destruct (compare x y <=? 0)%Z; [reflexivity|].
  rewrite IH. apply perm_swap.
Qed.

Lemma Array_sort_Permutation l : Permutation (Array_sort compare l) l.
Proof.
  unfold Array_sort. induction l as [|x rest IH]; simpl; [reflexivity|].
  rewrite insert_sorted_Permutation, IH. reflexivity.
Qed.

Lemma insert_sorted_first x l :
  Forall (first_goes x) l -> insert_sorted compare x l = x :: l.
Proof.
  destruct 1 as [|y rest Hy _]; simpl; [reflexivity|].
  unfold first_goes in Hy. apply Z.leb_le in Hy. rewrite Hy. reflexivity.
Qed.

Lemma Array_sort_fixed l :
  StronglySorted first_goes l -> Array_sort compare l = l.
Proof.
  unfold Array_sort. induction 1 as [|x rest _ IH Hx]; simpl; [reflexivity|].
  rewrite IH. apply insert_sorted_first, Hx.
Qed.

Hypothesis compare_orderly : FilterPanel.orderly compare.

Lemma insert_sorted_StronglySorted x l :
  StronglySorted first_goes l -> StronglySorted first_goes (insert_sorted compare x l).
Proof.
  destruct compare_orderly as [Hflip Htrans].
  induction 1 as [|y rest Hrest IH Hy]; simpl; [repeat constructor|].
  destruct (compare x y <=? 0)%Z eqn:Hxy.
  - apply Z.leb_le in Hxy. constructor; [constructor; assumption|].
    constructor; [exact Hxy|].
    eapply Forall_impl; [exact Hy|]. intros z Hz. exact (Htrans x y z Hxy Hz).
  - apply Z.leb_gt in Hxy. constructor; [exact IH|].
    rewrite insert_sorted_Permutation. constructor; [|exact Hy].
    apply Hflip. lia.
Qed.

Lemma Array_sort_StronglySorted l : StronglySorted first_goes (Array_sort compare l).
Proof.
  unfold Array_sort. induction l as [|x rest IH]; simpl; [constructor|].
  apply insert_sorted_StronglySorted, IH.
Qed.

Lemma filter_insert_sorted (keep : A -> bool) x l :
  StronglySorted first_goes l ->
  List.filter keep (insert_sorted compare x l)
  = if keep x then insert_sorted compare x (List.filter keep l)
    else List.filter keep l.
Proof.
  destruct compare_orderly as [_ Htrans].
  induction 1 as [|y rest Hrest IH Hy].
  - simpl. destruct (keep x); reflexivity.
  - cbn [insert_sorted]. destruct (compare x y <=? 0)%Z eqn:Hxy.
    + change (List.filter keep (x :: y :: rest))
        with (if keep x then x :: List.filter keep (y :: rest)
              else List.filter keep (y :: rest)).
      destruct (keep x); [|reflexivity].
      symmetry. apply insert_sorted_first.
      apply Z.leb_le in Hxy.
      assert (Hall : Forall (first_goes x) (y :: rest)).
      { constructor; [exact Hxy|].
        eapply Forall_impl; [exact Hy|]. intros z Hz. exact (Htrans x y z Hxy Hz). }
      apply Forall_forall. intros z Hz. apply list_elem_of_In, filter_In in Hz.
      rewrite Forall_forall in Hall. apply Hall, list_elem_of_In. tauto.
    + simpl. rewrite IH. destruct (keep y), (keep x); simpl; rewrite ?Hxy; reflexivity.
Qed.

Lemma filter_Array_sort (keep : A -> bool) l :
  List.filter keep (Array_sort compare l) = Array_sort compare (List.filter keep l).
Proof.
  induction l as [|x rest IH]; [reflexivity|].
  change (Array_sort compare (x :: rest))
    with (insert_sorted compare x (Array_sort compare rest)).
  rewrite filter_insert_sorted by apply Array_sort_StronglySorted.
  simpl. destruct (keep x); rewrite IH; reflexivity.
Qed.

Lemma Array_sort_idempotent l :
  Array_sort compare (Array_sort compare l) = Array_sort compare l.
Proof. apply Array_sort_fixed, Array_sort_StronglySorted. Qed.

Lemma Array_sort_stable (tied : A -> bool) l :
  (forall x y, tied x = true -> tied y = true -> (compare x y <= 0)%Z) ->
  List.filter tied (Array_sort compare l) = List.filter tied l.
Proof.
  intros Htied. rewrite filter_Array_sort. apply Array_sort_fixed.
  induction l as [|x rest IH]; simpl; [constructor|].
  destruct (tied x) eqn:Hx; [|exact IH].
  constructor; [exact IH|].
  apply Forall_forall. intros y Hy. apply list_elem_of_In, filter_In in Hy.
  apply Htied; tauto.
Qed.

End SortLaws.

(** ** The query engine: what [applyFilters] returns *)

Section QueryLaws.
Import SearchBar FilterPanel.
Variable localeCompare : string -> string -> Z.
Variable getTime : string -> option Z.

Lemma filter_ext_all {A} (f g : A -> bool) (l : list A) :
  (forall x, f x = g x) -> List.filter f l = List.filter g l.
Proof. intros H. apply List.filter_ext. exact H. Qed.

Lemma filter_filter_and {A} (f g : A -> bool) (l : list A) :
  List.filter f (List.filter g l) = List.filter (fun x => g x && f x)%bool l.
Proof.
  induction l as [|x rest IH]; simpl; [reflexivity|].
  destruct (g x); simpl; [destruct (f x)|]; rewrite IH; reflexivity.
Qed.

Lemma filter_true {A} (l : list A) : List.filter (fun _ => true) l = l.
Proof. apply filter_all_true, Forall_forall. reflexivity. Qed.

Lemma applyFacets_filter filters favorites projects :
  applyFacets filters favorites sourceOrder projects
  = List.filter (keeps filters favorites) projects.
Proof.
  unfold applyFacets, sourceOrder, keeps. cbn [foldl facetFilter].
  unfold languageFilter, categoryFilter, favoritesFilter.
  destruct (String.eqb (Filters.language filters) ""),
           (String.eqb (Filters.language filters) "all"),
           (String.eqb (Filters.category filters) ""),
           (String.eqb (Filters.category filters) "all"),
           (Filters.showFavorites filters); cbn [negb andb orb];
    rewrite ?filter_filter_and; try (symmetry; apply filter_true);
    apply filter_ext_all; intros p;
    repeat (destruct (bool_decide _)); cbn [andb]; try reflexivity;
    destruct (includes_elem _ _); reflexivity.
Qed.

Lemma keeps_passes filters favorites p :
  keeps filters favorites p = true <-> passes filters favorites p.
Proof.
  unfold keeps, passes.
  rewrite !andb_true_iff, !orb_true_iff, !String.eqb_eq, !bool_decide_eq_true,
    negb_true_iff.
  unfold includes_elem. rewrite existsb_exists.
  assert (Hin : (exists x, In x favorites /\ String.eqb (Project.id p) x = true)
                <-> In (Project.id p) favorites).
  { split.
    - intros (x & Hx & Heq). apply String.eqb_eq in Heq. congruence.
    - intros H. exists (Project.id p). split; [exact H|apply String.eqb_refl]. }
  rewrite Hin. tauto.
Qed.

Lemma sortStage_cases filters (result : list Project.t) :
  sortStage localeCompare getTime filters result
  = if String.eqb (Filters.sort filters) "" then result
    else Array_sort
           (compareBy localeCompare getTime (sortField filters) (sortOrder filters))
           result.
Proof.
  unfold sortStage, sortField, sortOrder.
  destruct (String.eqb (Filters.sort filters) ""); reflexivity.
Qed.

Lemma applyFilters_sort_of_filter projects filters favorites :
  applyFilters localeCompare getTime projects filters favorites
  = sortStage localeCompare getTime filters
      (List.filter (keeps filters favorites) projects).
Proof. rewrite <- applyFacets_filter. reflexivity. Qed.

(** X17: [applyFilters] returns exactly the projects that pass the three
    facet filters, each as often as it occurs in the input, whatever the
    sort: the sort stage only reorders. *)
Theorem applyFilters_keeps_what_passes
    (projects : list Project.t) (filters : Filters.t) (favorites : list string) :
  Permutation (applyFilters localeCompare getTime projects filters favorites)
    (applyFacets filters favorites sourceOrder projects)
  /\ (forall p,
        In p (applyFilters localeCompare getTime projects filters favorites)
        <-> In p projects /\ passes filters favorites p)
  /\ length (applyFilters localeCompare getTime projects filters favorites)
     <= length projects.
Proof.
  assert (Hperm : Permutation
            (applyFilters localeCompare getTime projects filters favorites)
            (List.filter (keeps filters favorites) projects)).
  { rewrite applyFilters_sort_of_filter, sortStage_cases.
    destruct (String.eqb _ ""); [reflexivity|apply Array_sort_Permutation]. }
  split; [rewrite applyFacets_filter; exact Hperm|]. split.
  - intros p. rewrite <- keeps_passes, <- filter_In.
    split; apply Permutation_in; [exact Hperm|symmetry; exact Hperm].
  - rewrite (Permutation_length Hperm). apply List.filter_length_le.
Qed.

Lemma compareBy_stars order (a b : Project.t) :
  compareBy localeCompare getTime "stars" order a b
  = if bool_decide (order = Some "asc")
    then (Project.stars a - Project.stars b)%Z
    else (Project.stars b - Project.stars a)%Z.
Proof. reflexivity. Qed.

Lemma compareBy_stars_orderly order :
  orderly (compareBy localeCompare getTime "stars" order).
Proof.
  split; intros; rewrite !compareBy_stars in *;
    destruct (bool_decide (order = Some "asc")); lia.
Qed.

Lemma split_dash_free s : dash_free s = true -> split "-" s = [s].
Proof.
  induction s as [|c rest IH]; simpl; [reflexivity|].
  intros [Hc Hrest]%andb_true_iff. apply negb_true_iff in Hc.
  rewrite Hc, (IH Hrest). reflexivity.
Qed.

Lemma StronglySorted_weaken {A} (R R' : A -> A -> Prop) (l : list A) :
  (forall x y, R x y -> R' x y) -> StronglySorted R l -> StronglySorted R' l.
Proof.
  intros Himpl. induction 1 as [|x rest _ IH Hx]; constructor; [exact IH|].
  eapply Forall_impl; [exact Hx|]. intros y Hy. apply Himpl, Hy.
Qed.

(** X18: with the sort string ["stars-<direction>"] the stars along the
    result of [applyFilters] never decrease when the direction is [asc]
    and never increase for any other direction; projects with equal stars
    stay in the order of the input. *)
Theorem stars_sort_orders_and_is_stable
    (projects : list Project.t) (filters : Filters.t) (favorites : list string)
    (direction : string) :
  Filters.sort filters = sortString "stars" direction ->
  dash_free direction = true ->
  let result := applyFilters localeCompare getTime projects filters favorites in
  StronglySorted
    (fun a b => if String.eqb direction "asc"
                then (Project.stars a <= Project.stars b)%Z
                else (Project.stars b <= Project.stars a)%Z) result
  /\ (forall stars,
        List.filter (fun p => Z.eqb (Project.stars p) stars) result
        = List.filter (fun p => Z.eqb (Project.stars p) stars)
            (applyFacets filters favorites sourceOrder projects)).
Proof.
  intros Hsort Hdirection result. subst result.
  assert (Hstage : forall l,
             sortStage localeCompare getTime filters l
             = Array_sort (compareBy localeCompare getTime "stars" (Some direction)) l).
  { intros l. rewrite sortStage_cases. unfold sortField, sortOrder. rewrite Hsort.
    destruct (String.eqb_spec (sortString "stars" direction) "") as [Hempty|_];
      [discriminate Hempty|].
    rewrite (split_sortString "stars" direction eq_refl), (split_dash_free _ Hdirection).
    reflexivity. }
  rewrite applyFilters_sort_of_filter, applyFacets_filter, Hstage.
  split.
  - eapply StronglySorted_weaken;
      [|apply Array_sort_StronglySorted, compareBy_stars_orderly].
    intros a b. cbn beta. rewrite compareBy_stars.
    destruct (String.eqb_spec direction "asc") as [->|Hne].
    + rewrite bool_decide_eq_true_2 by reflexivity. lia.
    + rewrite bool_decide_eq_false_2 by congruence. lia.
  - intros stars. apply Array_sort_stable; [apply compareBy_stars_orderly|].
    intros x y Hx%Z.eqb_eq Hy%Z.eqb_eq. rewrite compareBy_stars.
    destruct (bool_decide _); lia.
Qed.

Lemma searchProjects_as_filter (projects : list Project.t) (query : string) :
  searchProjects projects query
  = List.filter (fun p => String.eqb query "" || matches (toLowerCase query) p)%bool
      projects.
Proof.
  unfold searchProjects. destruct (String.eqb query ""); cbn [orb];
    [symmetry; apply filter_true|reflexivity].
Qed.

(** X19: when the comparator of the sort is orderly (it always is for
    [stars] and for a field that is not known), filtering twice with the
    same filters gives what filtering once gives. *)
Theorem applyFilters_idempotent
    (projects : list Project.t) (filters : Filters.t) (favorites : list string) :
  orderly (compareBy localeCompare getTime (sortField filters) (sortOrder filters)) ->
  applyFilters localeCompare getTime
    (applyFilters localeCompare getTime projects filters favorites) filters favorites
  = applyFilters localeCompare getTime projects filters favorites.
Proof.
  intros Horderly. rewrite !applyFilters_sort_of_filter, !sortStage_cases.
  destruct (String.eqb (Filters.sort filters) ""); [apply filter_idempotent|].
  rewrite (filter_Array_sort _ Horderly), filter_idempotent.
  apply (Array_sort_idempotent _ Horderly).
Qed.

(** X20: when the comparator of the sort is orderly, the text filter and
    [applyFilters] can be applied in either order: searching in the
    filtered and sorted list gives what [refreshProjects] shows, which
    filters and sorts the search result. *)
Theorem search_commutes_with_applyFilters
    (state : App.State) (ls : Storage.localStorage) :
  orderly (compareBy localeCompare getTime (sortField (App.filters state))
             (sortOrder (App.filters state))) ->
  searchProjects
    (applyFilters localeCompare getTime (App.projects state) (App.filters state)
       (Storage.getFavorites ls))
    (App.searchQuery state)
  = App.refreshProjects localeCompare getTime state ls.
Proof.
  intros Horderly. unfold App.refreshProjects.
  rewrite !applyFilters_sort_of_filter, !sortStage_cases, !searchProjects_as_filter.
  destruct (String.eqb (Filters.sort (App.filters state)) "");
    [apply filter_filter_comm|].
  rewrite (filter_Array_sort _ Horderly), filter_filter_comm. reflexivity.
Qed.

End QueryLaws.

Lemma stars_sort_orders_and_is_stable_witness :
  (Filters.sort (Sample.filtersOf "all" "stars-desc" false)
   = FilterPanel.sortString "stars" "desc"
   /\ FilterPanel.dash_free "desc" = true)
  /\ StronglySorted
       (fun a b => if String.eqb "desc" "asc"
                   then (Project.stars a <= Project.stars b)%Z
                   else (Project.stars b <= Project.stars a)%Z)
       (FilterPanel.applyFilters Sample.byLength Sample.noDate
          [Sample.hugo; Sample.deno; Sample.gin]
          (Sample.filtersOf "all" "stars-desc" false) []).
Proof.
  split; [split; reflexivity|].
  exact (proj1 (stars_sort_orders_and_is_stable Sample.byLength Sample.noDate
                  [Sample.hugo; Sample.deno; Sample.gin]
                  (Sample.filtersOf "all" "stars-desc" false) [] "desc"
                  eq_refl eq_refl)).
Defined.

Lemma applyFilters_idempotent_witness :
  FilterPanel.orderly
    (FilterPanel.compareBy Sample.byLength Sample.noDate
       (FilterPanel.sortField (Sample.filtersOf "Go" "stars-asc" false))
       (FilterPanel.sortOrder (Sample.filtersOf "Go" "stars-asc" false)))
  /\ FilterPanel.applyFilters Sample.byLength Sample.noDate
       (FilterPanel.applyFilters Sample.byLength Sample.noDate
          [Sample.hugo; Sample.deno; Sample.gin]
          (Sample.filtersOf "Go" "stars-asc" false) [])
       (Sample.filtersOf "Go" "stars-asc" false) []
     = FilterPanel.applyFilters Sample.byLength Sample.noDate
         [Sample.hugo; Sample.deno; Sample.gin]
         (Sample.filtersOf "Go" "stars-asc" false) [].
Proof.
  assert (Horderly : FilterPanel.orderly
            (FilterPanel.compareBy Sample.byLength Sample.noDate
               (FilterPanel.sortField (Sample.filtersOf "Go" "stars-asc" false))
               (FilterPanel.sortOrder (Sample.filtersOf "Go" "stars-asc" false)))).
  { apply (compareBy_stars_orderly Sample.byLength Sample.noDate (Some "asc")). }
  split; [exact Horderly|].
  exact (applyFilters_idempotent Sample.byLength Sample.noDate
           [Sample.hugo; Sample.deno; Sample.gin]
           (Sample.filtersOf "Go" "stars-asc" false) [] Horderly).
Defined.

Lemma search_commutes_with_applyFilters_witness :
  FilterPanel.orderly
    (FilterPanel.compareBy Sample.byLength Sample.noDate
       (FilterPanel.sortField (App.filters Sample.frontPage))
       (FilterPanel.sortOrder (App.filters Sample.frontPage)))
  /\ SearchBar.searchProjects
       (FilterPanel.applyFilters Sample.byLength Sample.noDate
          (App.projects Sample.frontPage) (App.filters Sample.frontPage)
          (Storage.getFavorites (Sample.storageOf [] ["1"])))
       (App.searchQuery Sample.frontPage)
     = App.refreshProjects Sample.byLength Sample.noDate Sample.frontPage
         (Sample.storageOf [] ["1"]).
Proof.
  assert (Horderly : FilterPanel.orderly
            (FilterPanel.compareBy Sample.byLength Sample.noDate
               (FilterPanel.sortField (App.filters Sample.frontPage))
               (FilterPanel.sortOrder (App.filters Sample.frontPage)))).
  { apply (compareBy_stars_orderly Sample.byLength Sample.noDate (Some "desc")). }
  split; [exact Horderly|].
  exact (search_commutes_with_applyFilters Sample.byLength Sample.noDate
           Sample.frontPage (Sample.storageOf [] ["1"]) Horderly).
Defined.

(** ** The query engine: languages and query refinement *)

Section SearchLaws.
Import SearchBar FilterPanel.

Lemma compareStrings_orderly : orderly compareStrings.
Proof.
  assert (Hle : forall a b, (compareStrings a b <= 0)%Z <-> String.compare a b <> Gt).
  { intros a b. unfold compareStrings. destruct (String.compare a b); split;
      intros; try lia; congruence. }
  split.
  - intros x y Hxy. apply Hle. intros Hgt.
    unfold compareStrings in Hxy. rewrite String.compare_antisym, Hgt in Hxy.
    cbn in Hxy. lia.
  - intros x y z Hxy%Hle Hyz%Hle. apply Hle.
    destruct (String.compare x y) eqn:Hx; [| |congruence].
    + apply String_as_OT.cmp_eq in Hx. subst. exact Hyz.
    + destruct (String.compare y z) eqn:Hy; [| |congruence].
      * apply String_as_OT.cmp_eq in Hy. subst. rewrite Hx. discriminate.
      * apply String_as_OT.cmp_lt in Hx, Hy.
        pose proof (String_as_OT.lt_trans _ _ _ Hx Hy) as Hxz.
        apply String_as_OT.cmp_lt in Hxz. unfold String_as_OT.cmp in Hxz.
        rewrite Hxz. discriminate.
Qed.

Lemma Set_add_In x y languages :
  In y (Set_add x languages) <-> y = x \/ In y languages.
Proof.
  unfold Set_add, includes_elem.
  destruct (existsb (String.eqb x) languages) eqn:Hex.
  - apply existsb_exists in Hex as (z & Hz & Heq). apply String.eqb_eq in Heq.
    subst z. intuition congruence.
  - rewrite in_app_iff. cbn [In]. intuition congruence.
Qed.

Lemma Set_add_NoDup x languages : NoDup languages -> NoDup (Set_add x languages).
Proof.
  intros Hnodup. unfold Set_add, includes_elem.
  destruct (existsb (String.eqb x) languages) eqn:Hex; [exact Hnodup|].
  apply NoDup_app. split; [exact Hnodup|]. split; [|apply NoDup_singleton].
  intros y Hy ->%list_elem_of_singleton.
  assert (Htrue : existsb (String.eqb x) languages = true).
  { apply existsb_exists. exists x. split; [apply list_elem_of_In, Hy|].
    apply String.eqb_refl. }
  congruence.
Qed.

(** X21: [extractLanguages] returns every non-empty language of the
    projects exactly once, in the order of their characters. *)
Theorem extractLanguages_distinct_sorted (projects : list Project.t) :
  NoDup (extractLanguages projects)
  /\ (forall language,
        In language (extractLanguages projects)
        <-> language <> ""
            /\ exists p, In p projects /\ Project.language p = Some language)
  /\ StronglySorted (fun a b => String.compare a b <> Gt) (extractLanguages projects).
Proof.
  unfold extractLanguages.
  set (step := fun (languages : list string) (p : Project.t) =>
                 match Project.language p with
                 | Some language =>
                     if negb (String.eqb language "") then Set_add language languages
                     else languages
                 | None => languages
                 end).
  assert (Hfold : forall ps acc,
             NoDup acc ->
             NoDup (foldl step acc ps)
             /\ forall x, In x (foldl step acc ps)
                          <-> In x acc
                              \/ (x <> "" /\ exists p, In p ps
                                                       /\ Project.language p = Some x)).
  { induction ps as [|p rest IH]; intros acc Hacc; cbn [foldl].
    - split; [exact Hacc|]. intros x. cbn [In]. firstorder.
    - assert (Hstep : NoDup (step acc p)).
      { unfold step. destruct (Project.language p) as [l|]; [|exact Hacc].
        destruct (negb _); [apply Set_add_NoDup|]; exact Hacc. }
      destruct (IH (step acc p) Hstep) as [Hnodup Hin].
      split; [exact Hnodup|]. intros x. rewrite Hin. cbn [In].
      assert (Hone : In x (step acc p)
                     <-> In x acc \/ (x <> "" /\ Project.language p = Some x)).
      { unfold step. destruct (Project.language p) as [l|] eqn:Hl.
        - destruct (String.eqb_spec l "") as [->|Hne]; cbn [negb].
          + split; [auto|]. intros [H|[Hx [= <-]]]; [exact H|contradiction].
          + rewrite Set_add_In. split.
            * intros [->|H]; auto.
            * intros [H|[_ [= <-]]]; auto.
        - split; [auto|]. intros [H|[_ [=]]]. exact H. }
      rewrite Hone. split.
      + intros [[H|[Hx Hp]]|(Hx & q & Hq & Hl)]; eauto 8.
      + intros [H|(Hx & q & [<-|Hq] & Hl)]; eauto 8. }
  destruct (Hfold projects [] (NoDup_nil_2)) as [Hnodup Hin].
  pose proof (Array_sort_Permutation compareStrings (foldl step [] projects)) as Hperm.
  split; [rewrite Hperm; exact Hnodup|]. split.
  - intros x. split.
    + intros H. apply (Permutation_in _ Hperm) in H. apply Hin in H.
      destruct H as [[]|H]; exact H.
    + intros H. apply (Permutation_in _ (Permutation_sym Hperm)), Hin. auto.
  - eapply (StronglySorted_weaken (fun a b => (compareStrings a b <= 0)%Z));
      [|apply Array_sort_StronglySorted, compareStrings_orderly].
    intros a b. unfold compareStrings. destruct (String.compare a b); intros; try lia;
      discriminate.
Qed.

Lemma append_cons (c : ascii) (a b : string) :
  String.append (String c a) b = String c (String.append a b).
Proof. reflexivity. Qed.

Lemma prefix_spec (p s : string) :
  String.prefix p s = true <-> exists t, s = String.append p t.
Proof.
  revert s. induction p as [|a p IH]; intros s.
  - split; [intros _; exists s; reflexivity|]. intros _. destruct s; reflexivity.
  - destruct s as [|b s]; [split; [discriminate|intros [t [=]]]|].
    cbn [String.prefix String.append]. destruct (ascii_dec a b) as [->|Hne].
    + rewrite IH. split.
      * intros [t ->]. exists t. reflexivity.
      * intros [t [= ->]]. exists t. reflexivity.
    + split; [discriminate|]. intros [t [= -> _]]. contradiction.
Qed.

Lemma includes_spec (s sub : string) :
  includes s sub = true
  <-> exists before after, s = String.append before (String.append sub after).
Proof.
  induction s as [|c rest IH]; cbn [includes]; rewrite orb_true_iff, prefix_spec.
  - split.
    + intros [[t Ht]|Hfalse]; [|discriminate]. exists "", t. exact Ht.
    + intros (before & after & H). left. destruct before; [eauto|discriminate].
  - rewrite IH. split.
    + intros [[t Ht]|(before & after & Ht)].
      * exists "", t. exact Ht.
      * exists (String c before), after. rewrite Ht. reflexivity.
    + intros (before & after & Ht). destruct before as [|b before].
      * left. eauto.
      * right. rewrite append_cons in Ht. injection Ht as -> ->. eauto.
Qed.

Lemma append_assoc (a b c : string) :
  String.append (String.append a b) c = String.append a (String.append b c).
Proof.
  induction a as [|x a IH]; [reflexivity|]. rewrite !append_cons, IH. reflexivity.
Qed.

Lemma toLowerCase_append (a b : string) :
  toLowerCase (String.append a b) = String.append (toLowerCase a) (toLowerCase b).
Proof.
  induction a as [|x a IH]; [reflexivity|].
  rewrite append_cons. cbn [toLowerCase]. rewrite append_cons, IH. reflexivity.
Qed.

Lemma includes_trans (s mid sub : string) :
  includes s mid = true -> includes mid sub = true -> includes s sub = true.
Proof.
  rewrite !includes_spec. intros (b1 & a1 & ->) (b2 & a2 & ->).
  exists (String.append b1 b2), (String.append a2 a1).
  rewrite !append_assoc. reflexivity.
Qed.

Lemma includes_toLowerCase (s sub : string) :
  includes s sub = true -> includes (toLowerCase s) (toLowerCase sub) = true.
Proof.
  rewrite !includes_spec. intros (before & after & ->).
  exists (toLowerCase before), (toLowerCase after).
  rewrite !toLowerCase_append. reflexivity.
Qed.

Lemma matches_spec (query : string) (p : Project.t) :
  matches query p = true
  <-> includes (toLowerCase (Project.name p)) query = true
      \/ includes (toLowerCase (Project.owner p)) query = true
      \/ (present (Project.description p) = true
          /\ includes (toLowerCase (default "" (Project.description p))) query = true)
      \/ (present (Project.language p) = true
          /\ includes (toLowerCase (default "" (Project.language p))) query = true)
      \/ (exists tags tag,
            Project.tags p = Some tags /\ In tag tags
            /\ includes (toLowerCase tag) query = true).
Proof.
  unfold matches.
  destruct (includes (toLowerCase (Project.name p)) query);
    [split; [intros _; left|]; reflexivity|].
  destruct (includes (toLowerCase (Project.owner p)) query);
    [split; [intros _; right; left|]; reflexivity|].
  destruct (present (Project.description p)
            && includes (toLowerCase (default "" (Project.description p))) query)%bool
    eqn:Hdescription.
  { apply andb_true_iff in Hdescription.
    split; [intros _; do 2 right; left; exact Hdescription|reflexivity]. }
  destruct (present (Project.language p)
            && includes (toLowerCase (default "" (Project.language p))) query)%bool
    eqn:Hlanguage.
  { apply andb_true_iff in Hlanguage.
    split; [intros _; do 3 right; left; exact Hlanguage|reflexivity]. }
  apply andb_false_iff in Hdescription, Hlanguage.
  destruct (Project.tags p) as [tags|].
  - destruct (existsb _ tags) eqn:Htags.
    + apply existsb_exists in Htags as (tag & Htag & Hhit).
      split; [intros _|reflexivity]. do 4 right. eauto.
    + split; [discriminate|].
      intros [H|[H|[[H1 H2]|[[H1 H2]|(tags' & tag & [= <-] & Htag & Hhit)]]]];
        try discriminate; try (destruct Hdescription; congruence);
        try (destruct Hlanguage; congruence).
      assert (Htrue : existsb (fun tag => includes (toLowerCase tag) query) tags = true).
      { apply existsb_exists. eauto. }
      congruence.
  - split; [discriminate|].
    intros [H|[H|[[H1 H2]|[[H1 H2]|(tags' & tag & [=] & _)]]]];
      try discriminate; try (destruct Hdescription; congruence);
      try (destruct Hlanguage; congruence).
Qed.

Lemma matches_refines (narrow wide : string) (p : Project.t) :
  includes narrow wide = true ->
  matches narrow p = true -> matches wide p = true.
Proof.
  intros Hsub. rewrite !matches_spec.
  assert (Hfield : forall field, includes field narrow = true ->
                                 includes field wide = true).
  { intros field H. exact (includes_trans _ _ _ H Hsub). }
  intros [H|[H|[[H1 H2]|[[H1 H2]|(tags & tag & Htags & Htag & Hhit)]]]].
  - left. auto.
  - right. left. auto.
  - do 2 right. left. auto.
  - do 3 right. left. auto.
  - do 4 right. exists tags, tag. auto.
Qed.

Lemma filter_sublist_mono {A} (f g : A -> bool) (l : list A) :
  (forall x, f x = true -> g x = true) ->
  sublist (List.filter f l) (List.filter g l).
Proof.
  intros Himpl. induction l as [|x rest IH]; simpl; [constructor|].
  destruct (f x) eqn:Hf.
  - rewrite (Himpl x Hf). apply sublist_skip, IH.
  - destruct (g x); [apply sublist_cons|]; exact IH.
Qed.

(** X22: refining the query never adds results: when the query [narrow]
    contains the non-empty query [wide], the projects found for [narrow]
    are among those found for [wide], in the same order, whatever the case
    of the letters of the two queries. *)
Theorem searchProjects_refinement (projects : list Project.t) (narrow wide : string) :
  wide <> "" ->
  includes (toLowerCase narrow) (toLowerCase wide) = true ->
  sublist (searchProjects projects narrow) (searchProjects projects wide).
Proof.
  intros Hwide Hsub.
  rewrite (searchProjects_nonempty projects wide Hwide).
  unfold searchProjects. destruct (String.eqb_spec narrow "") as [->|Hnarrow].
  - exfalso. destruct wide; [contradiction|discriminate Hsub].
  - apply filter_sublist_mono. intros p. apply matches_refines, Hsub.
Qed.

Lemma searchProjects_refinement_witness :
  ("go" <> "" /\ includes (toLowerCase "GoHugo") (toLowerCase "go") = true)
  /\ sublist (searchProjects [Sample.hugo; Sample.deno; Sample.gin] "GoHugo")
       (searchProjects [Sample.hugo; Sample.deno; Sample.gin] "go").
Proof.
  split; [split; [discriminate|reflexivity]|].
  apply (searchProjects_refinement [Sample.hugo; Sample.deno; Sample.gin] "GoHugo" "go");
    [discriminate|reflexivity].
Defined.

End SearchLaws.

(** ** github-api.js: repository URLs *)

Section UrlLaws.
Import SearchBar GitHubApi Middleware.

Lemma afterPrefix_append (p t : string) : afterPrefix p (String.append p t) = Some t.
Proof.
  induction p as [|a p IH]; [reflexivity|].
  rewrite append_cons. cbn [afterPrefix]. rewrite Ascii.eqb_refl. exact IH.
Qed.

Lemma afterPrefix_Some (p s t : string) :
  afterPrefix p s = Some t -> s = String.append p t.
Proof.
  revert s. induction p as [|a p IH]; intros s; cbn [afterPrefix].
  - intros [= ->]. reflexivity.
  - destruct s as [|b s]; [discriminate|].
    destruct (Ascii.eqb_spec a b) as [->|]; [|discriminate].
    intros H. rewrite (IH _ H). reflexivity.
Qed.

Lemma firstStop_append_Some stop p t c :
  firstStop stop p = Some c -> firstStop stop (String.append p t) = Some c.
Proof.
  induction p as [|a p IH]; [discriminate|].
  rewrite append_cons. cbn [firstStop].
  destruct (Ascii.eqb a stop || Ascii.eqb a "/")%bool; [auto|exact IH].
Qed.

Lemma firstStop_path stop owner rest :
  all_chars (fun c => negb (Ascii.eqb c stop || Ascii.eqb c "/")) owner = true ->
  firstStop stop (String.append owner (String "/" rest)) = Some "/"%char.
Proof.
  induction owner as [|a owner IH].
  - intros _. change (String.append "" (String "/" rest)) with (String "/" rest).
    cbn [firstStop]. rewrite Ascii.eqb_refl, orb_true_r. reflexivity.
  - rewrite append_cons. cbn [all_chars firstStop].
    intros [Ha Hrest]%andb_true_iff. apply negb_true_iff in Ha. rewrite Ha.
    exact (IH Hrest).
Qed.

Lemma afterPrefix_path stop p c owner rest :
  firstStop stop p = Some c -> c <> "/"%char ->
  all_chars (fun c => negb (Ascii.eqb c stop || Ascii.eqb c "/")) owner = true ->
  afterPrefix p (String.append owner (String "/" rest)) = None.
Proof.
  intros Hp Hc Howner.
  destruct (afterPrefix p _) as [t|] eqn:Hafter; [|reflexivity].
  apply afterPrefix_Some in Hafter.
  pose proof (firstStop_path stop owner rest Howner) as Hpath.
  rewrite Hafter, (firstStop_append_Some _ _ _ _ Hp) in Hpath. congruence.
Qed.

Lemma user_char_free stop owner :
  is_user_char stop = false -> is_user_char "/" = false ->
  all_chars is_user_char owner = true ->
  all_chars (fun c => negb (Ascii.eqb c stop || Ascii.eqb c "/")) owner = true.
Proof.
  intros Hstop Hslash. induction owner as [|a owner IH]; [reflexivity|].
  cbn [all_chars]. intros [Ha Hrest]%andb_true_iff. rewrite (IH Hrest), andb_true_r.
  apply negb_true_iff, orb_false_iff.
  split; apply Ascii.eqb_neq; intros ->; congruence.
Qed.

Lemma trimStart_nonspace c rest : is_space c = false -> trimStart (String c rest) = String c rest.
Proof. intros H. cbn [trimStart]. rewrite H. reflexivity. Qed.

Lemma trimEnd_cons c rest :
  trimEnd rest <> "" -> trimEnd (String c rest) = String c (trimEnd rest).
Proof. intros H. cbn [trimEnd]. destruct (trimEnd rest); [contradiction|reflexivity]. Qed.

Lemma trimEnd_nonspace s :
  s <> "" -> all_chars (fun c => negb (is_space c)) s = true -> trimEnd s = s.
Proof.
  induction s as [|c rest IH]; [contradiction|]. intros _.
  cbn [all_chars]. intros [Hc Hrest]%andb_true_iff. apply negb_true_iff in Hc.
  destruct rest as [|d rest'].
  - cbn [trimEnd]. rewrite Hc. reflexivity.
  - rewrite trimEnd_cons; rewrite IH; try discriminate; auto.
Qed.

Lemma trimEnd_append a b :
  b <> "" -> trimEnd b = b -> trimEnd (String.append a b) = String.append a b.
Proof.
  intros Hb Hfix. induction a as [|c a IH]; [exact Hfix|].
  rewrite append_cons, trimEnd_cons; rewrite IH; [reflexivity|].
  destruct a; [exact Hb|discriminate].
Qed.

Lemma eqb_dotgit_slash a b : String.eqb (String.append a (String "/" b)) ".git" = false.
Proof.
  apply String.eqb_neq. intros H.
  assert (Hfree : sep_free "/" (String.append a (String "/" b)) = true)
    by (rewrite H; reflexivity).
  clear H. induction a as [|c a IH].
  - discriminate Hfree.
  - rewrite append_cons in Hfree. cbn [sep_free] in Hfree.
    apply andb_true_iff in Hfree as [_ Hfree]. exact (IH Hfree).
Qed.

Lemma endsDotGit_slash a b :
  endsDotGit (String.append a (String "/" b)) = endsDotGit b.
Proof.
  induction a as [|c a IH].
  - change (String.append "" (String "/" b)) with (String "/" b).
    cbn [endsDotGit]. destruct b; reflexivity.
  - rewrite append_cons.
    change (endsDotGit (String c (String.append a (String "/" b))))
      with (String.eqb (String c (String.append a (String "/" b))) ".git"
            || endsDotGit (String.append a (String "/" b)))%bool.
    rewrite <- append_cons, eqb_dotgit_slash. exact IH.
Qed.

Lemma dropDotGit_none s : endsDotGit s = false -> dropDotGit s = s.
Proof.
  induction s as [|c rest IH]; [reflexivity|].
  change (endsDotGit (String c rest))
    with (String.eqb (String c rest) ".git" || endsDotGit rest)%bool.
  intros [Hhere Hrest]%orb_false_iff.
  change (dropDotGit (String c rest))
    with (if String.eqb (String c rest) ".git" then "" else String c (dropDotGit rest)).
  rewrite Hhere, (IH Hrest). reflexivity.
Qed.

Lemma length_string_append a b :
  String.length (String.append a b) = String.length a + String.length b.
Proof.
  induction a as [|c a IH]; [reflexivity|].
  rewrite append_cons. cbn [String.length]. rewrite IH. reflexivity.
Qed.

Lemma dropDotGit_suffix s : dropDotGit (String.append s ".git") = s.
Proof.
  induction s as [|c rest IH]; [reflexivity|].
  rewrite append_cons.
  change (dropDotGit (String c (String.append rest ".git")))
    with (if String.eqb (String c (String.append rest ".git")) ".git" then ""
          else String c (dropDotGit (String.append rest ".git"))).
  rewrite IH.
  destruct (String.eqb_spec (String c (String.append rest ".git")) ".git") as [H|_];
    [|reflexivity].
  exfalso. apply (f_equal String.length) in H. rewrite <- append_cons in H.
  rewrite length_string_append in H. cbn in H. lia.
Qed.

Lemma split_sep_free sep s : sep_free sep s = true -> split sep s = [s].
Proof.
  induction s as [|c rest IH]; [reflexivity|]. cbn [sep_free split].
  intros [Hc Hrest]%andb_true_iff. apply negb_true_iff in Hc.
  rewrite Hc, (IH Hrest). reflexivity.
Qed.

Lemma split_append sep a b :
  sep_free sep a = true ->
  split sep (String.append a (String sep b)) = a :: split sep b.
Proof.
  induction a as [|c rest IH].
  - intros _. change (String.append "" (String sep b)) with (String sep b).
    cbn [split]. rewrite Ascii.eqb_refl. reflexivity.
  - rewrite append_cons. cbn [sep_free split].
    intros [Hc Hrest]%andb_true_iff. apply negb_true_iff in Hc.
    rewrite Hc, (IH Hrest). reflexivity.
Qed.

Lemma all_chars_impl (f g : ascii -> bool) s :
  (forall c, f c = true -> g c = true) -> all_chars f s = true -> all_chars g s = true.
Proof.
  intros Himpl. induction s as [|c rest IH]; [reflexivity|]. cbn [all_chars].
  intros [Hc Hrest]%andb_true_iff. rewrite (Himpl c Hc), (IH Hrest). reflexivity.
Qed.

Lemma all_chars_sep_free sep (f : ascii -> bool) s :
  f sep = false -> all_chars f s = true -> sep_free sep s = true.
Proof.
  intros Hsep. induction s as [|c rest IH]; [reflexivity|]. cbn [all_chars sep_free].
  intros [Hc Hrest]%andb_true_iff. rewrite (IH Hrest), andb_true_r.
  apply negb_true_iff, Ascii.eqb_neq. intros ->. congruence.
Qed.

Lemma repo_char_not_space c : is_repo_char c = true -> negb (is_space c) = true.
Proof.
  unfold is_repo_char, is_user_char, is_space.
  destruct c as [[] [] [] [] [] [] [] []]; vm_compute; congruence.
Qed.

Lemma parse_after_clean owner repo :
  userName owner = true -> repoName repo = true ->
  List.filter (fun part => negb (String.eqb part "")) (split "/" (path owner repo))
  = [owner; repo].
Proof.
  unfold userName, repoName, path.
  intros [Ho1 Ho2]%andb_true_iff [[Hr1 Hr2]%andb_true_iff Hr3]%andb_true_iff.
  rewrite split_append by (eapply all_chars_sep_free; [|exact Ho2]; reflexivity).
  rewrite split_sep_free by (eapply all_chars_sep_free; [|exact Hr2]; reflexivity).
  cbn [List.filter]. rewrite Ho1, Hr1. reflexivity.
Qed.

Lemma trim_fixed s :
  match s with String c _ => is_space c = false | EmptyString => False end ->
  trimEnd s = s -> trim s = s.
Proof.
  destruct s as [|c rest]; [contradiction|]. intros Hc Hend.
  unfold trim. rewrite trimStart_nonspace by exact Hc. exact Hend.
Qed.

Lemma repo_parts repo :
  repoName repo = true ->
  repo <> "" /\ trimEnd repo = repo /\ endsDotGit repo = false.
Proof.
  unfold repoName. intros [[Hr1 Hr2]%andb_true_iff Hr3]%andb_true_iff.
  apply negb_true_iff in Hr3. apply negb_true_iff, String.eqb_neq in Hr1.
  split; [exact Hr1|]. split; [|exact Hr3].
  apply trimEnd_nonspace; [exact Hr1|].
  eapply all_chars_impl; [|exact Hr2]. apply repo_char_not_space.
Qed.

Lemma user_parts owner :
  userName owner = true ->
  (exists c rest, owner = String c rest /\ is_space c = false)
  /\ (forall stop, is_user_char stop = false ->
        all_chars (fun c => negb (Ascii.eqb c stop || Ascii.eqb c "/")) owner = true).
Proof.
  unfold userName. intros [Ho1 Ho2]%andb_true_iff. split.
  - destruct owner as [|c rest]; [discriminate|]. exists c, rest. split; [reflexivity|].
    cbn [all_chars] in Ho2. apply andb_true_iff in Ho2 as [Hc _].
    apply negb_true_iff, repo_char_not_space. unfold is_repo_char. rewrite Hc. reflexivity.
  - intros stop Hstop. apply user_char_free; [exact Hstop|reflexivity|exact Ho2].
Qed.

(** X23: the four formats that [parseGitHubUrl] lists give back the owner
    and the repository they were built from, [buildGitHubUrl] included,
    for a user name of letters, digits and hyphens and a repository name of
    those, dots and underscores that does not end in [.git]. *)
Theorem parseGitHubUrl_formats (owner repo : string) :
  userName owner = true -> repoName repo = true ->
  let expected := Some {| GitHubApi.owner := owner; GitHubApi.repo := repo |} in
  parseGitHubUrl (buildGitHubUrl owner repo) = expected
  /\ parseGitHubUrl (String.append (buildGitHubUrl owner repo) ".git") = expected
  /\ parseGitHubUrl (String.append "github.com/" (path owner repo)) = expected
  /\ parseGitHubUrl (path owner repo) = expected.
Proof.
  intros Howner Hrepo expected.
  destruct (repo_parts repo Hrepo) as (Hne & Hend & Hgit).
  destruct (user_parts owner Howner) as ((c & rest & -> & Hc) & Hfree).
  set (owner := String c rest) in *.
  pose proof (parse_after_clean owner repo Howner Hrepo) as Hparts.
  assert (Hpath : forall pre, String.append pre (path owner repo)
                              = String.append (String.append pre (String.append owner "/")) repo).
  { intros pre. unfold path. rewrite !append_assoc. reflexivity. }
  assert (Htail : forall pre, trimEnd (String.append pre (path owner repo))
                              = String.append pre (path owner repo)).
  { intros pre. rewrite Hpath. apply trimEnd_append; assumption. }
  assert (Hnogit : forall pre, endsDotGit (String.append pre (path owner repo)) = false).
  { intros pre. unfold path. rewrite <- append_assoc, endsDotGit_slash. exact Hgit. }
  assert (Hclean : forall s,
             dropPrefix "github.com/" (dropProtocol (dropDotGit (trim s)))
             = path owner repo -> parseGitHubUrl s = expected).
  { intros s Hs. unfold parseGitHubUrl. rewrite Hs, Hparts. reflexivity. }
  assert (Hlong : dropPrefix "github.com/"
                    (dropProtocol (String.append "https://github.com/" (path owner repo)))
                  = path owner repo).
  { reflexivity. }
  assert (Hshort : dropPrefix "github.com/" (dropProtocol (path owner repo))
                   = path owner repo).
  { unfold dropProtocol, dropPrefix, path.
    rewrite (afterPrefix_path ":" "https://" ":") by (try discriminate; auto).
    rewrite (afterPrefix_path ":" "http://" ":") by (try discriminate; auto).
    cbn [default from_option].
    rewrite (afterPrefix_path "." "www." ".") by (try discriminate; auto).
    cbn [default from_option].
    rewrite (afterPrefix_path "." "github.com/" ".") by (try discriminate; auto).
    reflexivity. }
  repeat split; apply Hclean.
  - unfold buildGitHubUrl. fold (path owner repo).
    rewrite trim_fixed; [|reflexivity|apply (Htail "https://github.com/")].
    rewrite dropDotGit_none by apply (Hnogit "https://github.com/"). exact Hlong.
  - unfold buildGitHubUrl. fold (path owner repo).
    rewrite trim_fixed.
    + rewrite dropDotGit_suffix. exact Hlong.
    + reflexivity.
    + apply (trimEnd_append (String.append "https://github.com/" (path owner repo)) ".git");
        [discriminate|reflexivity].
  - rewrite trim_fixed; [|reflexivity|apply (Htail "github.com/")].
    rewrite dropDotGit_none by apply (Hnogit "github.com/"). reflexivity.
  - rewrite trim_fixed; [|exact Hc|apply (Htail "")].
    rewrite dropDotGit_none by apply (Hnogit ""). exact Hshort.
Qed.

Lemma parseGitHubUrl_formats_witness :
  (userName "vitejs" = true /\ repoName "vite" = true)
  /\ parseGitHubUrl (buildGitHubUrl "vitejs" "vite")
     = Some {| GitHubApi.owner := "vitejs"; GitHubApi.repo := "vite" |}.
Proof.
  split; [split; reflexivity|].
  exact (proj1 (parseGitHubUrl_formats "vitejs" "vite" eq_refl eq_refl)).
Defined.

End UrlLaws.

(** ** github-api.js: what a parsed URL holds *)

Section ParseLaws.
Import SearchBar GitHubApi Middleware.

Lemma split_parts_sep_free sep s :
  Forall (fun part => sep_free sep part = true) (split sep s).
Proof.
  induction s as [|c rest IH]; cbn [split]; [repeat constructor|].
  destruct (Ascii.eqb c sep) eqn:Hc; [constructor; [reflexivity|exact IH]|].
  destruct (split sep rest) as [|part parts];
    [repeat constructor; cbn; rewrite Hc; reflexivity|].
  inversion IH as [|? ? Hpart Hparts]; subst.
  constructor; [|exact Hparts]. cbn [sep_free]. rewrite Hc, Hpart. reflexivity.
Qed.

Lemma sep_free_trimStart sep s : sep_free sep s = true -> sep_free sep (trimStart s) = true.
Proof.
  induction s as [|c rest IH]; [auto|]. cbn [trimStart].
  destruct (is_space c); [|auto]. cbn [sep_free]. intros [_ H]%andb_true_iff. auto.
Qed.

Lemma sep_free_trimEnd sep s : sep_free sep s = true -> sep_free sep (trimEnd s) = true.
Proof.
  induction s as [|c rest IH]; [auto|]. cbn [trimEnd sep_free].
  intros [Hc Hrest]%andb_true_iff. specialize (IH Hrest).
  destruct (trimEnd rest) as [|d kept].
  - destruct (is_space c); [reflexivity|]. cbn [sep_free]. rewrite Hc. reflexivity.
  - cbn [sep_free] in *. rewrite Hc. exact IH.
Qed.

Lemma sep_free_dropDotGit sep s : sep_free sep s = true -> sep_free sep (dropDotGit s) = true.
Proof.
  induction s as [|c rest IH]; [auto|].
  change (dropDotGit (String c rest))
    with (if String.eqb (String c rest) ".git" then "" else String c (dropDotGit rest)).
  destruct (String.eqb (String c rest) ".git"); [reflexivity|].
  cbn [sep_free]. intros [Hc Hrest]%andb_true_iff. rewrite Hc, (IH Hrest). reflexivity.
Qed.

Lemma sep_free_append sep a b :
  sep_free sep (String.append a b) = (sep_free sep a && sep_free sep b)%bool.
Proof.
  induction a as [|c a IH]; [reflexivity|]. rewrite append_cons. cbn [sep_free].
  rewrite IH, andb_assoc. reflexivity.
Qed.

Lemma sep_free_dropPrefix sep p s : sep_free sep s = true -> sep_free sep (dropPrefix p s) = true.
Proof.
  intros Hs. unfold dropPrefix. destruct (afterPrefix p s) as [t|] eqn:Hafter; [|exact Hs].
  apply afterPrefix_Some in Hafter. subst s. rewrite sep_free_append in Hs.
  apply andb_true_iff in Hs. cbn. tauto.
Qed.

Lemma sep_free_dropProtocol sep s : sep_free sep s = true -> sep_free sep (dropProtocol s) = true.
Proof.
  intros Hs. unfold dropProtocol. apply sep_free_dropPrefix.
  destruct (afterPrefix "https://" s) as [t|] eqn:Hafter; [|apply sep_free_dropPrefix, Hs].
  apply afterPrefix_Some in Hafter. subst s. rewrite sep_free_append in Hs.
  apply andb_true_iff in Hs. tauto.
Qed.

(** X24: whatever the text, an owner and a repository that
    [parseGitHubUrl] returns are not empty and hold no ["/"]; a text
    without ["/"] is never parsed. *)
Theorem parseGitHubUrl_parts (url : string) :
  (forall parsed, parseGitHubUrl url = Some parsed ->
     owner parsed <> "" /\ repo parsed <> ""
     /\ sep_free "/" (owner parsed) = true /\ sep_free "/" (repo parsed) = true)
  /\ (sep_free "/" url = true -> parseGitHubUrl url = None).
Proof.
  unfold parseGitHubUrl.
  set (cleanUrl := dropPrefix "github.com/" (dropProtocol (dropDotGit (trim url)))).
  split.
  - pose proof (split_parts_sep_free "/" cleanUrl) as Hfree.
    assert (Hparts : Forall (fun part => part <> "" /\ sep_free "/" part = true)
                       (List.filter (fun part => negb (String.eqb part ""))
                          (split "/" cleanUrl))).
    { apply Forall_forall. intros part Hpart.
      apply list_elem_of_In, filter_In in Hpart as [Hin Hne].
      rewrite Forall_forall in Hfree. split; [|apply Hfree, list_elem_of_In, Hin].
      apply negb_true_iff, String.eqb_neq in Hne. exact Hne. }
    destruct (List.filter _ _) as [|o [|r rest]]; [discriminate|discriminate|].
    inversion Hparts as [|? ? [Ho1 Ho2] Hrest]; subst.
    inversion Hrest as [|? ? [Hr1 Hr2] _]; subst.
    intros parsed [= <-]. cbn. auto.
  - intros Hurl.
    assert (Hclean : sep_free "/" cleanUrl = true).
    { apply sep_free_dropPrefix, sep_free_dropProtocol, sep_free_dropDotGit.
      unfold trim. apply sep_free_trimEnd, sep_free_trimStart, Hurl. }
    rewrite (split_sep_free _ _ Hclean). cbn [List.filter].
    destruct (negb _); reflexivity.
Qed.

Lemma parseGitHubUrl_parts_witness :
  sep_free "/" "vite" = true /\ parseGitHubUrl "vite" = None.
Proof.
  split; [reflexivity|].
  exact (proj2 (parseGitHubUrl_parts "vite") eq_refl).
Defined.

End ParseLaws.

(** ** github-api.js: the batch *)

Section BatchLaws.
Import SearchBar GitHubApi Middleware.
Context {Net : Type}.
Variable getRepoInfo : string -> string -> Net -> Net * (string + obj).

Lemma batchLoop_spec (total : nat) (urls : list string) :
  forall i net rs es cs,
  exists net' R E C,
    batchLoop getRepoInfo total i urls net rs es cs = (net', (rs ++ R, es ++ E, cs ++ C))
    /\ url <$> R = urls
    /\ E = List.filter (fun r => negb (success r)) R
    /\ reported <$> C = R
    /\ current <$> C = seq (i + 1) (length urls)
    /\ Forall (fun c => GitHubApi.total c = total) C
    /\ (Forall (fun u => parseGitHubUrl u = None) urls ->
        net' = net /\ Forall (fun r => success r = false) R).
Proof.
  induction urls as [|u rest IH]; intros i net rs es cs.
  - exists net, [], [], []. cbn. rewrite !app_nil_r. repeat split; constructor.
  - cbn [batchLoop].
    destruct (getRepoInfoFromUrl getRepoInfo u net) as [net1 [message|info]] eqn:Hget.
    + destruct (IH (S i) net1
                  (rs ++ [{| success := false; url := u; data := None; error := Some message |}])
                  (es ++ [{| success := false; url := u; data := None; error := Some message |}])
                  (cs ++ [{| current := i + 1; total := total;
                             reported := {| success := false; url := u; data := None;
                                            error := Some message |} |}]))
        as (net' & R & E & C & Hloop & Hurl & HE & HC & Hcur & Htot & Hnone).
      eexists net', (_ :: R), (_ :: E), (_ :: C).
      rewrite Hloop, <- !app_assoc. split; [reflexivity|].
      cbn [fmap list_fmap List.filter success url reported current negb length seq].
      rewrite <- HE. fold (fmap (M:=list) url R). fold (fmap (M:=list) reported C).
      fold (fmap (M:=list) current C).
      rewrite Hurl, HC, Hcur. replace (S i + 1) with (S (i + 1)) by lia.
      do 4 (split; [reflexivity|]).
      split; [constructor; [reflexivity|exact Htot]|].
      intros Hall. inversion Hall as [|? ? Hu Hrest]; subst.
      destruct (Hnone Hrest) as [-> Hfail].
      unfold getRepoInfoFromUrl in Hget. rewrite Hu in Hget.
      split; [congruence|constructor; [reflexivity|exact Hfail]].
    + destruct (IH (S i) net1
                  (rs ++ [{| success := true; url := u; data := Some info; error := None |}])
                  es
                  (cs ++ [{| current := i + 1; total := total;
                             reported := {| success := true; url := u; data := Some info;
                                            error := None |} |}]))
        as (net' & R & E & C & Hloop & Hurl & HE & HC & Hcur & Htot & Hnone).
      eexists net', (_ :: R), E, (_ :: C).
      rewrite Hloop, <- !app_assoc. split; [reflexivity|].
      cbn [fmap list_fmap List.filter success url reported current negb length seq].
      rewrite <- HE. fold (fmap (M:=list) url R). fold (fmap (M:=list) reported C).
      fold (fmap (M:=list) current C).
      rewrite Hurl, HC, Hcur. replace (S i + 1) with (S (i + 1)) by lia.
      do 4 (split; [reflexivity|]).
      split; [constructor; [reflexivity|exact Htot]|].
      intros Hall. inversion Hall as [|? ? Hu Hrest]; subst.
      unfold getRepoInfoFromUrl in Hget. rewrite Hu in Hget. discriminate.
Qed.

Lemma filter_partition_length {A} (f : A -> bool) (l : list A) :
  length (List.filter f l) + length (List.filter (fun x => negb (f x)) l) = length l.
Proof.
  induction l as [|x rest IH]; [reflexivity|]. cbn [List.filter].
  destruct (f x); cbn [negb length]; lia.
Qed.

(** X25: [batchGetRepoInfo] returns one result for every url, in the
    order of the urls; [errors] are the results without success,
    [successCount] counts the others, and the two add up to the number of
    urls; [onProgress] is called once for every url, with the positions 1,
    2, ... and the total, and with that url's result.  When no url can be
    parsed the network is not used and nothing succeeds. *)
Theorem batchGetRepoInfo_accounts (urls : list string) (net : Net) :
  let batch := snd (fst (batchGetRepoInfo getRepoInfo urls net)) in
  let calls := snd (batchGetRepoInfo getRepoInfo urls net) in
  url <$> results batch = urls
  /\ errors batch = List.filter (fun r => negb (success r)) (results batch)
  /\ successCount batch = length (List.filter success (results batch))
  /\ successCount batch + length (errors batch) = length urls
  /\ reported <$> calls = results batch
  /\ current <$> calls = seq 1 (length urls)
  /\ Forall (fun c => total c = length urls) calls
  /\ (Forall (fun u => parseGitHubUrl u = None) urls ->
      fst (fst (batchGetRepoInfo getRepoInfo urls net)) = net /\ successCount batch = 0).
Proof.
  unfold batchGetRepoInfo.
  destruct (batchLoop_spec (length urls) urls 0 net [] [] [])
    as (net' & R & E & C & -> & Hurl & HE & HC & Hcur & Htot & Hnone).
  cbn [app results errors successCount fst snd].
  pose proof (filter_partition_length success R) as Hcount.
  assert (Hlen : length R = length urls) by (rewrite <- Hurl, length_fmap; reflexivity).
  rewrite <- HE in Hcount.
  split; [exact Hurl|]. split; [exact HE|]. split; [lia|]. split; [lia|].
  split; [exact HC|]. split; [exact Hcur|]. split; [exact Htot|].
  intros Hall. destruct (Hnone Hall) as [Hnet Hfail]. split; [exact Hnet|].
  assert (Hnil : List.filter success R = []).
  { clear -Hfail. induction Hfail as [|r rest Hr _ IH]; [reflexivity|].
    cbn [List.filter]. rewrite Hr. exact IH. }
  rewrite Hnil in Hcount. cbn in Hcount. lia.
Qed.

End BatchLaws.

Lemma batchGetRepoInfo_accounts_witness :
  Forall (fun u => GitHubApi.parseGitHubUrl u = None) ["vite"; ""]
  /\ fst (fst (GitHubApi.batchGetRepoInfo Sample.github ["vite"; ""] 0)) = 0
  /\ GitHubApi.successCount
       (snd (fst (GitHubApi.batchGetRepoInfo Sample.github ["vite"; ""] 0))) = 0.
Proof.
  assert (Hnone : Forall (fun u => GitHubApi.parseGitHubUrl u = None) ["vite"; ""])
    by (repeat constructor).
  split; [exact Hnone|].
  exact (proj2 (proj2 (proj2 (proj2 (proj2 (proj2 (proj2
           (batchGetRepoInfo_accounts Sample.github ["vite"; ""] 0))))))) Hnone).
Defined.

(** ** The admin page: the bulk import *)

Section ImportLaws.
Import Storage Sync GitHubApi Admin.

Lemma addProjectToApi_sent remote clk projectData w :
  sent (fst (addProjectToApi remote clk projectData w)) = sent w ++ [postRequest projectData].
Proof.
  unfold addProjectToApi, apiRequest, postRequest.
  destruct (remote _) as [|r]; [|destruct (Sync.success r)]; reflexivity.
Qed.

Lemma fetchProjectsFromApi_sent listRemote w :
  sent (fst (fetchProjectsFromApi listRemote w)) = sent w ++ [getRequest "/projects"].
Proof.
  unfold fetchProjectsFromApi, send.
  destruct (listRemote _) as [|[projects|]]; reflexivity.
Qed.

Context {Net : Type}.
Variable getRepoInfo : string -> string -> Net -> Net * (string + obj).
Variable listRemote : request -> listing.
Variable remote : request -> reply.
Variable clock : nat -> Clock.

Lemma addImported_spec existing successes :
  forall w added skipped w' added' skipped',
    addImported remote clock existing successes w added skipped = Some (w', added', skipped') ->
    exists posts,
      sent w' = sent w ++ posts
      /\ added' = added + length posts
      /\ added' + skipped' = added + skipped + length successes
      /\ Forall (fun q => method q = "POST" /\ endpoint q = "/projects") posts.
Proof.
  induction successes as [|r rest IH]; intros w added skipped w' added' skipped'.
  - cbn. intros [= -> -> ->]. exists []. rewrite app_nil_r. cbn.
    repeat split; try lia. constructor.
  - cbn [addImported]. destruct (GitHubApi.data r) as [data|]; [|discriminate].
    destruct (isDuplicate existing data) as [[|]|]; cbn [mbind option_bind]; [| |discriminate].
    + intros H. apply IH in H as (posts & H1 & H2 & H3 & H4). exists posts.
      cbn [length]. repeat split; try assumption; lia.
    + intros H. apply IH in H as (posts & H1 & H2 & H3 & H4).
      rewrite addProjectToApi_sent, <- app_assoc in H1.
      eexists (_ :: posts). split; [exact H1|]. cbn [length].
      repeat split; try lia. constructor; [split; reflexivity|exact H4].
Qed.

(** The results of a batch hold the information [getRepoInfo] returned. *)
Lemma batchLoop_data (Q : obj -> Prop) total urls :
  (forall o r net net' info, getRepoInfo o r net = (net', inr info) -> Q info) ->
  forall i net rs es cs,
    Forall (fun r => exists info, GitHubApi.data r = Some info /\ Q info)
           (List.filter GitHubApi.success rs) ->
    Forall (fun r => exists info, GitHubApi.data r = Some info /\ Q info)
           (List.filter GitHubApi.success
              (fst (fst (snd (batchLoop getRepoInfo total i urls net rs es cs))))).
Proof.
  intros HQ. induction urls as [|u rest IH]; intros i net rs es cs Hrs; [exact Hrs|].
  cbn [batchLoop].
  destruct (getRepoInfoFromUrl getRepoInfo u net) as [net1 [message|info]] eqn:Hget.
  - apply IH. rewrite List.filter_app. cbn. rewrite app_nil_r. exact Hrs.
  - apply IH. rewrite List.filter_app. cbn. apply Forall_app. split; [exact Hrs|].
    constructor; [|constructor]. exists info. split; [reflexivity|].
    unfold getRepoInfoFromUrl in Hget. destruct (parseGitHubUrl u); [|discriminate].
    exact (HQ _ _ _ _ _ Hget).
Qed.

Lemma batchGetRepoInfo_data (Q : obj -> Prop) urls net :
  (forall o r net net' info, getRepoInfo o r net = (net', inr info) -> Q info) ->
  Forall (fun r => exists info, GitHubApi.data r = Some info /\ Q info)
         (List.filter GitHubApi.success
            (results (snd (fst (batchGetRepoInfo getRepoInfo urls net))))).
Proof.
  intros HQ. unfold batchGetRepoInfo.
  pose proof (batchLoop_data Q (length urls) urls HQ 0 net [] [] [] (Forall_nil_2 _)) as H.
  destruct (batchLoop _ _ _ _ _ _ _ _) as [net' [[rs es] cs]]. exact H.
Qed.

Lemma batchGetRepoInfo_counts urls net :
  let batch := snd (fst (batchGetRepoInfo getRepoInfo urls net)) in
  length (results batch) = length urls
  /\ successCount batch = length (List.filter GitHubApi.success (results batch))
  /\ successCount batch <= length (results batch).
Proof.
  unfold batchGetRepoInfo.
  destruct (batchLoop_spec getRepoInfo (length urls) urls 0 net [] [] [])
    as (net' & R & E & C & -> & Hurl & HE & _).
  cbn [app results successCount fst snd].
  pose proof (filter_partition_length GitHubApi.success R) as Hcount.
  rewrite <- HE in Hcount. rewrite <- Hurl, length_fmap. repeat split; lia.
Qed.

Lemma sameRepo_total data p : named data -> named p -> is_Some (sameRepo data p).
Proof.
  intros [[o Ho] [n Hn]] [[o' Ho'] [n' Hn']]. unfold sameRepo, lowerProp.
  rewrite Ho, Hn, Ho', Hn'. cbn. destruct (String.eqb _ _); eauto.
Qed.

Lemma isDuplicate_total existing data :
  named data -> Forall named existing -> is_Some (isDuplicate existing data).
Proof.
  intros Hdata. unfold isDuplicate. induction 1 as [|p rest Hp _ IH]; cbn; [eauto|].
  destruct (sameRepo_total data p Hdata Hp) as [[|] ->]; [eauto|exact IH].
Qed.

Lemma addImported_total existing successes :
  Forall named existing ->
  Forall (fun r => exists info, GitHubApi.data r = Some info /\ named info) successes ->
  forall w added skipped, is_Some (addImported remote clock existing successes w added skipped).
Proof.
  intros Hexisting. induction 1 as [|r rest (info & Hdata & Hnamed) _ IH]; intros w added skipped.
  - cbn. eauto.
  - cbn [addImported]. rewrite Hdata.
    destruct (isDuplicate_total existing info Hnamed Hexisting) as [[|] ->];
      cbn [mbind option_bind]; apply IH.
Qed.

Lemma addImported_empty successes :
  Forall (fun r => exists info, GitHubApi.data r = Some info /\ True) successes ->
  forall w added skipped,
  exists w', addImported remote clock [] successes w added skipped
             = Some (w', added + length successes, skipped).
Proof.
  induction 1 as [|r rest (info & Hdata & _) _ IH]; intros w added skipped.
  - cbn. rewrite Nat.add_0_r. eauto.
  - cbn [addImported]. rewrite Hdata. cbn [isDuplicate some_throwing mbind option_bind].
    destruct (IH (fst (addProjectToApi remote (clock added)
                         (importedProject (GitHubApi.url r) info) w)) (S added) skipped)
      as [w' ->].
    exists w'. cbn [length]. do 3 f_equal. lia.
Qed.

(** X26: an import that does not throw accounts for every url: the
    numbers of added, skipped and failed urls add up to the number of urls.
    Up to the end of its loop it sends one GET for the list of projects and
    then one POST to [/projects] for every added project, and nothing
    else. *)
Theorem importUrls_accounts (urls : list string) (net : Net) (w : World) :
  match importUrls getRepoInfo listRemote remote clock urls net w with
  | NoUrls => urls = []
  | ImportThrows => urls <> []
  | Imported net' w' c =>
      urls <> []
      /\ addedCount c + skippedCount c + failedCount c = length urls
      /\ exists posts,
           sent w' = sent w ++ getRequest "/projects" :: posts
           /\ length posts = addedCount c
           /\ Forall (fun q => method q = "POST" /\ endpoint q = "/projects") posts
  end.
Proof.
  unfold importUrls. case_bool_decide as Hlen.
  { destruct urls; [reflexivity|discriminate]. }
  assert (Hne : urls <> []) by (intros ->; apply Hlen; reflexivity).
  pose proof (fetchProjectsFromApi_sent listRemote w) as Hsent.
  destruct (fetchProjectsFromApi listRemote w) as [w1 existing].
  pose proof (batchGetRepoInfo_counts urls net) as (Hresults & Hcount & Hle).
  destruct (batchGetRepoInfo getRepoInfo urls net) as [[net' batch] calls].
  cbn [fst snd] in Hsent, Hresults, Hcount, Hle.
  destruct (addImported _ _ _ _ _ _ _) as [[[w' added] skipped]|] eqn:Hadd; [|exact Hne].
  apply addImported_spec in Hadd as (posts & H1 & H2 & H3 & H4).
  cbn [addedCount skippedCount failedCount].
  split; [exact Hne|]. split; [lia|].
  exists posts. rewrite H1, Hsent, <- app_assoc. repeat split; [lia|exact H4].
Qed.

(** X27: the import does not throw when the projects that the remote
    side (or the mirror) lists and the repository informations that
    [getRepoInfo] returns all have strings for [owner] and [name]. *)
Theorem importUrls_named_never_throws (urls : list string) (net : Net) (w : World) :
  (forall o r net net' info, getRepoInfo o r net = (net', inr info) -> named info) ->
  Forall named (snd (fetchProjectsFromApi listRemote w)) ->
  importUrls getRepoInfo listRemote remote clock urls net w <> ImportThrows.
Proof.
  intros Hinfo Hexisting. unfold importUrls. case_bool_decide; [discriminate|].
  destruct (fetchProjectsFromApi listRemote w) as [w1 existing].
  pose proof (batchGetRepoInfo_data named urls net Hinfo) as Hdata.
  destruct (batchGetRepoInfo getRepoInfo urls net) as [[net' batch] calls].
  cbn [fst snd] in Hdata, Hexisting.
  destruct (addImported_total existing _ Hexisting Hdata w1 0 0) as [[[w' added] skipped] ->].
  discriminate.
Qed.

(** X28: duplicates are looked for in the list fetched before the loop
    only: when that list is empty nothing is skipped, and every url that
    [getRepoInfo] finds is added, a url that occurs twice in the text
    twice. *)
Theorem importUrls_checks_fetched_list_only (urls : list string) (net : Net) (w : World) :
  urls <> [] ->
  snd (fetchProjectsFromApi listRemote w) = [] ->
  exists net' w' c,
    importUrls getRepoInfo listRemote remote clock urls net w = Imported net' w' c
    /\ skippedCount c = 0
    /\ addedCount c + failedCount c = length urls
    /\ addedCount c = successCount (snd (fst (batchGetRepoInfo getRepoInfo urls net))).
Proof.
  intros Hne Hexisting. unfold importUrls. case_bool_decide as Hlen.
  { destruct urls; [contradiction|discriminate]. }
  destruct (fetchProjectsFromApi listRemote w) as [w1 existing].
  pose proof (batchGetRepoInfo_data (fun _ => True) urls net (fun _ _ _ _ _ _ => I)) as Hdata.
  pose proof (batchGetRepoInfo_counts urls net) as (Hresults & Hcount & Hle).
  destruct (batchGetRepoInfo getRepoInfo urls net) as [[net' batch] calls].
  cbn [fst snd] in *. subst existing.
  destruct (addImported_empty _ Hdata w1 0 0) as [w' ->].
  eexists _, _, _. split; [reflexivity|]. cbn [addedCount skippedCount failedCount].
  repeat split; lia.
Qed.

End ImportLaws.

Lemma importUrls_named_never_throws_witness :
  (forall o r net net' info,
     Sample.github o r net = (net', inr info) -> Admin.named info)
  /\ Forall Admin.named
       (snd (Sync.fetchProjectsFromApi (Sample.catalogue [Sample.vite]) (Sample.world [])))
  /\ Admin.importUrls Sample.github (Sample.catalogue [Sample.vite]) Sample.accepts
       Sample.clocks ["vitejs/vite"; "vite"] 0 (Sample.world []) <> Admin.ImportThrows.
Proof.
  assert (Hinfo : forall o r net net' info,
            Sample.github o r net = (net', inr info) -> Admin.named info).
  { intros o r net net' info [= _ <-]. split; eexists; reflexivity. }
  assert (Hexisting : Forall Admin.named
            (snd (Sync.fetchProjectsFromApi (Sample.catalogue [Sample.vite])
                    (Sample.world [])))).
  { repeat constructor; eexists; reflexivity. }
  split; [exact Hinfo|]. split; [exact Hexisting|].
  exact (importUrls_named_never_throws Sample.github (Sample.catalogue [Sample.vite])
           Sample.accepts Sample.clocks ["vitejs/vite"; "vite"] 0 (Sample.world [])
           Hinfo Hexisting).
Defined.

Lemma importUrls_checks_fetched_list_only_witness :
  ["facebook/react"; "facebook/react"] <> []
  /\ snd (Sync.fetchProjectsFromApi (Sample.catalogue []) (Sample.world [])) = []
  /\ exists net' w' c,
       Admin.importUrls Sample.github (Sample.catalogue []) Sample.accepts Sample.clocks
         ["facebook/react"; "facebook/react"] 0 (Sample.world [])
       = Admin.Imported net' w' c
       /\ Admin.skippedCount c = 0
       /\ Admin.addedCount c + Admin.failedCount c
          = length ["facebook/react"; "facebook/react"]
       /\ Admin.addedCount c
          = GitHubApi.successCount
              (snd (fst (GitHubApi.batchGetRepoInfo Sample.github
                           ["facebook/react"; "facebook/react"] 0))).
Proof.
  assert (Hne : ["facebook/react"; "facebook/react"] <> []) by discriminate.
  split; [exact Hne|]. split; [reflexivity|].
  exact (importUrls_checks_fetched_list_only Sample.github (Sample.catalogue [])
           Sample.accepts Sample.clocks ["facebook/react"; "facebook/react"] 0
           (Sample.world []) Hne eq_refl).
Defined.

(** ** The API side: who is let in *)

Section AuthLaws.
Import Sync Middleware.

Lemma split_lookup_sep_free sep s i part :
  split sep s !! i = Some part -> sep_free sep part = true.
Proof.
  intros Hi. pose proof (split_parts_sep_free sep s) as Hall.
  rewrite Forall_forall in Hall. eapply Hall, list_elem_of_lookup_2, Hi.
Qed.

Lemma slice_prefix p s :
  String.prefix p s = true -> s = String.append p (slice (String.length p) s).
Proof.
  revert s. induction p as [|c p IH]; intros s; [destruct s; reflexivity|].
  destruct s as [|d s]; [discriminate|]. cbn [String.prefix].
  destruct (ascii_dec c d) as [->|]; [|discriminate].
  intros H. rewrite append_cons. cbn [String.length slice]. f_equal. apply IH, H.
Qed.

Lemma slice_append p s : slice (String.length p) (String.append p s) = s.
Proof.
  induction p as [|c p IH]; [destruct s; reflexivity|]. rewrite append_cons. exact IH.
Qed.

Lemma prefix_append p s : String.prefix p (String.append p s) = true.
Proof.
  induction p as [|c p IH]; [destruct s; reflexivity|]. rewrite append_cons.
  cbn [String.prefix]. destruct (ascii_dec c c); [exact IH|contradiction].
Qed.

Variable atob : string -> option string.
Variable btoa : string -> string.

Lemma lookup_two_parts {A} (l : list A) (x y : A) :
  l !! 0%nat = Some x -> l !! 1%nat = Some y -> exists rest, l = x :: y :: rest.
Proof.
  destruct l as [|a [|b rest]]; cbn; try discriminate.
  intros [= ->] [= ->]. eauto.
Qed.

Lemma verifyAuth_true authorization env :
  verifyAuth atob authorization env = true <->
  exists base64Credentials credentials rest,
    authorization = Some (String.append "Basic " base64Credentials)
    /\ atob base64Credentials = Some credentials
    /\ split ":" credentials = adminUsername env :: adminPassword env :: rest.
Proof.
  split.
  - unfold verifyAuth. destruct authorization as [authHeader|]; [|discriminate].
    destruct (String.eqb authHeader ""); [discriminate|]. cbn [orb].
    destruct (String.prefix "Basic " authHeader) eqn:Hprefix; [|discriminate]. cbn [negb].
    destruct (atob (slice 6 authHeader)) as [credentials|] eqn:Hatob; [|discriminate].
    intros [Hu Hp]%andb_true_iff.
    apply bool_decide_eq_true_1 in Hu. apply bool_decide_eq_true_1 in Hp.
    destruct (lookup_two_parts _ _ _ Hu Hp) as [rest Hparts].
    exists (slice 6 authHeader), credentials, rest.
    split; [f_equal; exact (slice_prefix "Basic " authHeader Hprefix)|]. auto.
  - intros (b & credentials & rest & -> & Hatob & Hparts). unfold verifyAuth.
    assert (Hne : String.eqb (String.append "Basic " b) "" = false) by reflexivity.
    rewrite Hne, prefix_append. cbn [orb negb].
    change 6 with (String.length "Basic "). rewrite slice_append, Hatob, Hparts.
    cbn [lookup list_lookup]. rewrite !bool_decide_eq_true_2 by reflexivity. reflexivity.
Qed.

(** X29: [verifyAuth] lets in exactly the requests whose header is
    ["Basic "] followed by a text that [atob] decodes to credentials whose
    first two parts between [":"] are the administrator's name and
    password; what follows a second [":"] is not looked at.  An
    administrator name or password that holds a [":"] is therefore
    accepted from no request. *)
Theorem verifyAuth_accepts_first_two_parts (authorization : option string) (env : Env) :
  (verifyAuth atob authorization env = true <->
   exists base64Credentials credentials rest,
     authorization = Some (String.append "Basic " base64Credentials)
     /\ atob base64Credentials = Some credentials
     /\ split ":" credentials = adminUsername env :: adminPassword env :: rest)
  /\ ((sep_free ":" (adminUsername env) && sep_free ":" (adminPassword env))%bool = false ->
      verifyAuth atob authorization env = false).
Proof.
  split; [apply verifyAuth_true|].
  intros Hcolon. apply not_true_is_false. intros Hok.
  apply verifyAuth_true in Hok as (b & credentials & rest & _ & _ & Hparts).
  assert (Hu : split ":" credentials !! 0%nat = Some (adminUsername env))
    by (rewrite Hparts; reflexivity).
  assert (Hp : split ":" credentials !! 1%nat = Some (adminPassword env))
    by (rewrite Hparts; reflexivity).
  apply split_lookup_sep_free in Hu. apply split_lookup_sep_free in Hp.
  rewrite Hu, Hp in Hcolon. discriminate.
Qed.

Hypothesis atob_btoa : forall s, atob (btoa s) = Some s.

(** X30: the token that a successful login returns, sent back by the
    client as it sends it, is accepted by [verifyAuth] exactly when it is
    not empty and neither the name nor the password holds a [":"]. *)
Theorem login_token_verifies (username password : string) (env : Env) (token : string) :
  login btoa username password env = Some token ->
  verifyAuth atob (authorizationHeader (Some token)) env
  = (negb (String.eqb token "") && sep_free ":" username && sep_free ":" password)%bool.
Proof.
  unfold login.
  destruct (String.eqb_spec username (adminUsername env)) as [Hu|]; [|discriminate].
  destruct (String.eqb_spec password (adminPassword env)) as [Hp|]; [|discriminate].
  cbn [andb]. intros [= <-]. unfold authorizationHeader.
  destruct (String.eqb_spec (btoa (String.append username (String ":" password))) "")
    as [Hempty|Hfull]; [reflexivity|].
  cbn [negb andb].
  set (token := btoa _) in *.
  unfold verifyAuth.
  assert (Hne : String.eqb (String.append "Basic " token) "" = false) by reflexivity.
  rewrite Hne, prefix_append. cbn [orb negb].
  change 6 with (String.length "Basic "). rewrite slice_append.
  unfold token. rewrite atob_btoa.
  destruct (sep_free ":" username) eqn:Hfu.
  - rewrite (split_append ":" _ _ Hfu). cbn [lookup list_lookup].
    rewrite <- Hu, bool_decide_eq_true_2 by reflexivity. cbn [andb].
    destruct (sep_free ":" password) eqn:Hfp.
    + rewrite (split_sep_free _ _ Hfp). cbn. apply bool_decide_eq_true_2. congruence.
    + apply bool_decide_eq_false_2. intros Heq.
      change (split ":" password !! 0%nat = Some (adminPassword env)) in Heq.
      apply split_lookup_sep_free in Heq. congruence.
  - cbn [andb]. apply andb_false_iff. left. apply bool_decide_eq_false_2. intros Heq.
    apply split_lookup_sep_free in Heq. congruence.
Qed.

End AuthLaws.

Lemma verifyAuth_accepts_first_two_parts_witness :
  (Middleware.sep_free ":" (Middleware.adminUsername Sample.colonEnv)
   && Middleware.sep_free ":" (Middleware.adminPassword Sample.colonEnv))%bool = false
  /\ Middleware.verifyAuth Sample.untagged
       (Sync.authorizationHeader (Some (Sample.tagged "root:a:b"))) Sample.colonEnv
     = false.
Proof.
  split; [reflexivity|].
  apply (proj2 (verifyAuth_accepts_first_two_parts Sample.untagged _ Sample.colonEnv)).
  reflexivity.
Defined.

Lemma login_token_verifies_witness :
  (forall s, Sample.untagged (Sample.tagged s) = Some s)
  /\ Middleware.login Sample.tagged "admin" "admin123" Sample.unsetEnv
     = Some (Sample.tagged "admin:admin123")
  /\ Middleware.verifyAuth Sample.untagged
       (Sync.authorizationHeader (Some (Sample.tagged "admin:admin123"))) Sample.unsetEnv
     = true.
Proof.
  split; [reflexivity|]. split; [reflexivity|].
  exact (login_token_verifies Sample.untagged Sample.tagged (fun s => eq_refl)
           "admin" "admin123" Sample.unsetEnv (Sample.tagged "admin:admin123") eq_refl).
Defined.

(** ** The category form: slugs *)

Section SlugLaws.
Import SearchBar Middleware Admin.

Ltac each_char c :=
  destruct c as [[] [] [] [] [] [] [] []]; vm_compute; try reflexivity; try discriminate.

Lemma lower_kept c :
  (is_word (lower c) || is_space (lower c) || is_dash (lower c))%bool = true ->
  (is_slug_like (lower c) || is_space (lower c))%bool = true.
Proof. each_char c. Qed.

Lemma slug_like_lower c : is_slug_like c = true -> lower c = c.
Proof. each_char c. Qed.

Lemma slug_like_kept c :
  is_slug_like c = true -> (is_word c || is_space c || is_dash c)%bool = true.
Proof. each_char c. Qed.

Lemma slug_like_not_space c : is_slug_like c = true -> is_space c = false.
Proof. each_char c. Qed.

Lemma slug_like_char c : is_slug_like c = true -> is_slug_char c = negb (Ascii.eqb c "_").
Proof. each_char c. Qed.

Lemma lower_underscore c : Ascii.eqb (lower c) "_" = Ascii.eqb c "_".
Proof. each_char c. Qed.

Lemma allChars_impl (f g : ascii -> bool) s :
  (forall c, f c = true -> g c = true) -> allChars f s = true -> allChars g s = true.
Proof.
  intros Hfg. induction s as [|c rest IH]; [reflexivity|]. cbn [allChars].
  intros [Hc Hrest]%andb_true_iff. rewrite (Hfg c Hc), (IH Hrest). reflexivity.
Qed.

Lemma keepChars_lower_chars text :
  allChars (fun c => is_slug_like c || is_space c)%bool
    (keepChars (fun c => is_word c || is_space c || is_dash c)%bool (toLowerCase text)) = true.
Proof.
  induction text as [|c rest IH]; [reflexivity|]. cbn [toLowerCase keepChars].
  destruct (is_word (lower c) || is_space (lower c) || is_dash (lower c))%bool eqn:Hkeep;
    [|exact IH].
  cbn [allChars]. rewrite (lower_kept c Hkeep), IH. reflexivity.
Qed.

Lemma runsToDash_chars (class P Q : ascii -> bool) s :
  (forall c, P c = true -> class c = false -> Q c = true) -> Q "-"%char = true ->
  allChars P s = true -> forall inRun, allChars Q (runsToDash class inRun s) = true.
Proof.
  intros HPQ Hdash. induction s as [|c rest IH]; [reflexivity|]. cbn [allChars].
  intros [Hc Hrest]%andb_true_iff inRun. cbn [runsToDash].
  destruct (class c) eqn:Hclass.
  - destruct inRun; [auto|]. cbn [allChars]. rewrite Hdash, IH by exact Hrest. reflexivity.
  - cbn [allChars]. rewrite (HPQ c Hc Hclass), IH by exact Hrest. reflexivity.
Qed.

Lemma runsToDash_fixed (class : ascii -> bool) s :
  allChars (fun c => negb (class c)) s = true -> forall inRun, runsToDash class inRun s = s.
Proof.
  induction s as [|c rest IH]; [reflexivity|]. cbn [allChars].
  intros [Hc Hrest]%andb_true_iff inRun. apply negb_true_iff in Hc.
  cbn [runsToDash]. rewrite Hc, IH by exact Hrest. reflexivity.
Qed.

Lemma runsToDash_single s :
  forall inRun,
    singleDashes (runsToDash is_dash inRun s) = true
    /\ (inRun = true -> startsDash (runsToDash is_dash inRun s) = false).
Proof.
  induction s as [|c rest IH]; intros inRun; [split; reflexivity|]. cbn [runsToDash].
  destruct (is_dash c) eqn:Hc.
  - destruct inRun.
    + apply IH.
    + destruct (IH true) as [Hsingle Hstart]. split; [|discriminate].
      specialize (Hstart eq_refl). cbn [singleDashes].
      destruct (runsToDash is_dash true rest) as [|d tail]; [reflexivity|].
      cbn [startsDash] in Hstart. rewrite Hstart, andb_false_r. exact Hsingle.
  - destruct (IH false) as [Hsingle _]. split; [|intros _; exact Hc].
    cbn [singleDashes]. destruct (runsToDash is_dash false rest) as [|d tail]; [reflexivity|].
    rewrite Hc. exact Hsingle.
Qed.

Lemma singleDashes_fixed s :
  singleDashes s = true ->
  forall inRun, (inRun = true -> startsDash s = false) -> runsToDash is_dash inRun s = s.
Proof.
  induction s as [|c rest IH]; [reflexivity|]. intros Hsingle inRun Hstart.
  assert (Hrest : singleDashes rest = true).
  { cbn [singleDashes] in Hsingle. destruct rest; [reflexivity|].
    apply andb_true_iff in Hsingle. apply Hsingle. }
  cbn [runsToDash]. destruct (is_dash c) eqn:Hc.
  - destruct inRun; [specialize (Hstart eq_refl); cbn in Hstart; congruence|].
    f_equal; [apply Ascii.eqb_eq in Hc; congruence|]. apply IH; [exact Hrest|]. intros _.
    cbn [singleDashes] in Hsingle. destruct rest as [|d tail]; [reflexivity|].
    rewrite Hc in Hsingle. cbn [andb startsDash] in *.
    apply andb_true_iff in Hsingle. destruct Hsingle as [Hd _].
    apply negb_true_iff in Hd. exact Hd.
  - f_equal. apply IH; [exact Hrest|discriminate].
Qed.

Lemma trimStart_no_space s : allChars (fun c => negb (is_space c)) s = true -> trimStart s = s.
Proof.
  destruct s as [|c rest]; [reflexivity|]. cbn [allChars trimStart].
  intros [Hc _]%andb_true_iff. apply negb_true_iff in Hc. rewrite Hc. reflexivity.
Qed.

Lemma trimEnd_no_space s : allChars (fun c => negb (is_space c)) s = true -> trimEnd s = s.
Proof.
  induction s as [|c rest IH]; [reflexivity|]. cbn [allChars].
  intros [Hc Hrest]%andb_true_iff. apply negb_true_iff in Hc.
  cbn [trimEnd]. rewrite (IH Hrest), Hc. destruct rest; reflexivity.
Qed.

Lemma trim_no_space s : allChars (fun c => negb (is_space c)) s = true -> trim s = s.
Proof.
  intros Hs. unfold trim. rewrite (trimStart_no_space s Hs). apply trimEnd_no_space, Hs.
Qed.

Lemma keepChars_fixed (keep : ascii -> bool) s : allChars keep s = true -> keepChars keep s = s.
Proof.
  induction s as [|c rest IH]; [reflexivity|]. cbn [allChars keepChars].
  intros [Hc Hrest]%andb_true_iff. rewrite Hc, (IH Hrest). reflexivity.
Qed.

Lemma toLowerCase_fixed s : allChars is_slug_like s = true -> toLowerCase s = s.
Proof.
  induction s as [|c rest IH]; [reflexivity|]. cbn [allChars toLowerCase].
  intros [Hc Hrest]%andb_true_iff. rewrite (slug_like_lower c Hc), (IH Hrest). reflexivity.
Qed.

Lemma sep_free_toLowerCase s : sep_free "_" (toLowerCase s) = sep_free "_" s.
Proof.
  induction s as [|c rest IH]; [reflexivity|]. cbn [toLowerCase sep_free].
  rewrite lower_underscore, IH. reflexivity.
Qed.

Lemma sep_free_keepChars (keep : ascii -> bool) s :
  keep "_"%char = true -> sep_free "_" (keepChars keep s) = sep_free "_" s.
Proof.
  intros Hkeep. induction s as [|c rest IH]; [reflexivity|]. cbn [keepChars sep_free].
  destruct (Ascii.eqb_spec c "_") as [->|Hc].
  - rewrite Hkeep. cbn [sep_free]. reflexivity.
  - destruct (keep c); cbn [sep_free negb andb]; [|exact IH].
    rewrite IH. destruct (Ascii.eqb_spec c "_"); [contradiction|reflexivity].
Qed.

Lemma sep_free_runsToDash (class : ascii -> bool) s :
  class "_"%char = false ->
  forall inRun, sep_free "_" (runsToDash class inRun s) = sep_free "_" s.
Proof.
  intros Hclass. induction s as [|c rest IH]; [reflexivity|]. intros inRun.
  cbn [runsToDash sep_free]. destruct (class c) eqn:Hc.
  - assert (Hne : Ascii.eqb c "_" = false).
    { destruct (Ascii.eqb_spec c "_") as [->|]; [congruence|reflexivity]. }
    rewrite Hne. cbn [negb andb]. destruct inRun; [apply IH|]. cbn [sep_free]. apply IH.
  - cbn [sep_free]. rewrite IH. reflexivity.
Qed.

Lemma allChars_slug_char s :
  allChars is_slug_like s = true -> allChars is_slug_char s = sep_free "_" s.
Proof.
  induction s as [|c rest IH]; [reflexivity|]. cbn [allChars sep_free].
  intros [Hc Hrest]%andb_true_iff. rewrite (slug_like_char c Hc), (IH Hrest). reflexivity.
Qed.

Lemma generateSlug_untrimmed text :
  let s := runsToDash is_dash false
             (runsToDash is_space false
                (keepChars (fun c => is_word c || is_space c || is_dash c)%bool
                   (toLowerCase text))) in
  generateSlug text = s /\ allChars is_slug_like s = true.
Proof.
  intros s.
  assert (Hchars : allChars is_slug_like s = true).
  { apply (runsToDash_chars is_dash is_slug_like is_slug_like); [auto|reflexivity|].
    apply (runsToDash_chars is_space (fun c => is_slug_like c || is_space c)%bool is_slug_like);
      [|reflexivity|apply keepChars_lower_chars].
    intros c Hc Hspace. rewrite Hspace, orb_false_r in Hc. exact Hc. }
  split; [|exact Hchars]. unfold generateSlug. fold s. apply trim_no_space.
  eapply allChars_impl; [|exact Hchars]. intros c Hc.
  rewrite (slug_like_not_space c Hc). reflexivity.
Qed.

(** X12: on ASCII text [generateSlug] returns lower case letters,
    digits, ["_"] and ["-"] only, so no white space is left for its last
    step to trim, and never two ["-"] in a row; applying it again changes
    nothing.  The result passes the slug check of the category form
    exactly when it is not empty and the text holds no ["_"]. *)
Theorem generateSlug_shape (text : string) :
  ascii_only text = true ->
  let slug := generateSlug text in
  allChars is_slug_like slug = true
  /\ singleDashes slug = true
  /\ generateSlug slug = slug
  /\ validSlug slug = (negb (String.eqb slug "") && sep_free "_" text)%bool.
Proof.
  intros _ slug. destruct (generateSlug_untrimmed text) as [Hslug Hchars].
  fold slug in Hslug. cbn zeta in Hslug, Hchars. rewrite <- Hslug in Hchars.
  assert (Hsingle : singleDashes slug = true).
  { rewrite Hslug. apply (runsToDash_single _ false). }
  split; [exact Hchars|]. split; [exact Hsingle|]. split.
  - destruct (generateSlug_untrimmed slug) as [-> _].
    rewrite (toLowerCase_fixed slug Hchars).
    rewrite keepChars_fixed by (eapply allChars_impl; [apply slug_like_kept|exact Hchars]).
    rewrite (runsToDash_fixed is_space).
    + apply singleDashes_fixed; [exact Hsingle|discriminate].
    + eapply allChars_impl; [|exact Hchars]. intros c Hc.
      rewrite (slug_like_not_space c Hc). reflexivity.
  - unfold validSlug. rewrite (allChars_slug_char slug Hchars). f_equal.
    rewrite Hslug, !sep_free_runsToDash, sep_free_keepChars, sep_free_toLowerCase
      by reflexivity.
    reflexivity.
Qed.

Lemma generateSlug_shape_witness :
  ascii_only "Web  Dev & Tools!" = true
  /\ generateSlug "Web  Dev & Tools!" = "web-dev-tools"
  /\ validSlug (generateSlug "Web  Dev & Tools!") = true.
Proof.
  split; [reflexivity|]. split; [reflexivity|].
  rewrite (proj2 (proj2 (proj2 (generateSlug_shape "Web  Dev & Tools!" eq_refl)))).
  reflexivity.
Defined.

End SlugLaws.
